(** * AudioSeg: splitting a WAV file at points of silence

    A shallow embedding of [AudioSeg.py] and the properties of its
    silence-detection pipeline.

    Modelling conventions.
    - Python [int] is [Z].  A floating-point value is a rational, an
      infinity or [NaN].  The stages of [split_audio] are modelled in exact
      arithmetic, no step rounding, which is what their structure is proved
      on: the windows, the edges, the ranges, the manifest and the files.
      Module [Float64] is the arithmetic of the program, IEEE 754 binary64
      with rounding to the nearest double, and holds the computations whose
      value depends on rounding: [energy], the step size and the Cut
      Points.  Division by zero keeps its Python and numpy meanings,
      [ZeroDivisionError] for the one, an infinity or [NaN] for the other.
    - A generator is the list of the values it yields when it is consumed; an
      exception raised while it runs is the [Raise] of the [result] monad.
    - The WAV reader, [os.path] and the module's global names are the fields
      of a [world] record; files written are a list of events.  [print] and
      [tqdm] only report progress and are left out; [main] is modelled from
      the parsed command line on.
    - The sample buffer is one-dimensional (a mono file). *)

From Stdlib Require Import ZArith QArith Qround Qabs Qpower List Bool Ascii.
From Stdlib Require Import String Lia Lqa DecimalString Sorted.
From Stdlib Require DecimalPos DecimalZ SpecFloat.
Import ListNotations.

Local Open Scope Z_scope.

(** ** Exceptions and the error monad *)

Inductive exn : Type :=
| AttributeError (msg : string)
| ValueError
| ZeroDivisionError
| OverflowError
| NameError (name : string)
| OSError (msg : string).

Inductive result (A : Type) : Type :=
| Ok (a : A)
| Raise (e : exn).

Arguments Ok {A} a.
Arguments Raise {A} e.

Definition bind {A B : Type} (m : result A) (k : A -> result B) : result B :=
  match m with
  | Ok a => k a
  | Raise e => Raise e
  end.

Declare Scope py_scope.
Delimit Scope py_scope with py.
Notation "x <- m ;; k" := (bind m (fun x => k))
  (at level 61, m at next level, right associativity) : py_scope.
Notation "'assert!' c 'else' e ;; k" := (if c then k else Raise e)
  (at level 61, c at next level, e at next level, right associativity) : py_scope.

Fixpoint mapM {A B : Type} (f : A -> result B) (l : list A) : result (list B) :=
  match l with
  | [] => Ok []
  | a :: l' => (b <- f a ;; bs <- mapM f l' ;; Ok (b :: bs))%py
  end.

(** ** Python values *)

(** The dynamically typed values that reach [windows] and leave [GetTime]. *)
Inductive pyobj : Type :=
| PyInt (z : Z)
| PyFloat (q : Q)
| PyBool (b : bool)
| PyStr (s : string)
| PyNone.

(** [len(l)] *)
Definition len {A : Type} (l : list A) : Z := Z.of_nat (List.length l).

(** [int(x)] on a float: truncation towards zero. *)
Definition py_int (x : Q) : Z := Z.quot (Qnum x) (Zpos (Qden x)).

(** [a / b] on numbers: true division. *)
Definition py_truediv (a b : Q) : result Q :=
  if Qeq_bool b 0 then Raise ZeroDivisionError else Ok (a / b)%Q.

(** [x < y] and [x > y] on floats. *)
Definition Qltb (x y : Q) : bool := negb (Qle_bool y x).
Definition Qgtb (x y : Q) : bool := Qltb y x.

(** An index of a slice, clipped the way Python clips it: a negative index
    counts from the end, and the result is kept inside [0, n]. *)
Definition clip_index (n i : Z) : Z :=
  if i <? 0 then Z.max (i + n) 0 else Z.min i n.

(** [l[start:stop]] *)
Definition py_slice {A : Type} (l : list A) (start stop : Z) : list A :=
  let s := clip_index (len l) start in
  let e := clip_index (len l) stop in
  firstn (Z.to_nat (e - s)) (skipn (Z.to_nat s) l).

(** [len(range(start, stop, step))] for a non-zero step. *)
Definition range_len (start stop step : Z) : Z :=
  if 0 <? step then
    if start <? stop then (stop - start - 1) / step + 1 else 0
  else
    if stop <? start then (start - stop - 1) / (- step) + 1 else 0.

(** [range(start, stop, step)] *)
Definition py_range (start stop step : Z) : result (list Z) :=
  if step =? 0 then Raise ValueError
  else Ok (map (fun k => start + Z.of_nat k * step)
               (seq 0 (Z.to_nat (range_len start stop step)))).

(** [str(n)] on an [int]. *)
Definition str_of_int (n : Z) : string := NilZero.string_of_int (Z.to_int n).

Fixpoint zeros (n : nat) : string :=
  match n with
  | O => EmptyString
  | S n' => String "0" (zeros n')
  end.

(** [s.zfill(width)]: zeros are inserted after a leading sign. *)
Definition zfill (width : nat) (s : string) : string :=
  let pad := zeros (width - String.length s) in
  match s with
  | String c rest =>
      if (Ascii.eqb c "-" || Ascii.eqb c "+")%bool
      then String c (pad ++ rest)
      else (pad ++ s)
  | EmptyString => pad
  end%string.

(** [str(x)] on what [GetTime] returns, an [int] or a [str]; the digits of
    a [float] are not modelled, and no float reaches it. *)
Definition py_str (v : pyobj) : string :=
  match v with
  | PyInt z => str_of_int z
  | PyStr s => s
  | PyBool true => "True"
  | PyBool false => "False"
  | PyNone => "None"
  | PyFloat _ => "float"
  end.

(** ** [datetime] and [timedelta] *)

(** Nearest integer, ties to the even one. *)
Definition round_half_even (x : Q) : Z :=
  let f := Qfloor x in
  match (2 * (Qnum x mod Zpos (Qden x))) ?= Zpos (Qden x) with
  | Lt => f
  | Gt => f + 1
  | Eq => if Z.even f then f else f + 1
  end.

Definition us_per_second : Z := 1000000.
Definition us_per_day : Z := 86400 * us_per_second.

(** A [timedelta] is its number of microseconds, the seconds given being
    rounded to the nearest one, ties to even; it holds at most 999999999
    days either way. *)
Definition timedelta (seconds : Q) : result Z :=
  let us := round_half_even (seconds * inject_Z us_per_second) in
  (assert! (Z.abs (us / us_per_day) <=? 999999999) else OverflowError ;;
   Ok us)%py.

(** A [datetime] is its number of microseconds since [datetime(1, 1, 1)];
    the last day it can hold is 9999-12-31, day 3652058 from there. *)
Definition max_datetime_day : Z := 3652058.

Definition datetime_add (d delta : Z) : result Z :=
  let t := d + delta in
  (assert! ((0 <=? t) && (t / us_per_day <=? max_datetime_day))%bool
     else OverflowError ;;
   Ok t)%py.

Definition datetime_1_1_1 : Z := 0.

Definition hour (d : Z) : Z := (d / us_per_second / 3600) mod 24.
Definition minute (d : Z) : Z := (d / us_per_second / 60) mod 60.
Definition second (d : Z) : Z := (d / us_per_second) mod 60.

(** ** Utility functions *)

Definition GetTime (video_seconds : Q) : result pyobj :=
  if Qltb video_seconds 0 then Ok (PyInt 0)
  else
    (sec <- timedelta video_seconds ;;
     d <- datetime_add datetime_1_1_1 sec ;;
     let instant :=
       (zfill 2 (str_of_int (hour d)) ++ ":" ++ zfill 2 (str_of_int (minute d))
        ++ ":" ++ zfill 2 (str_of_int (second d)) ++ ".001")%string in
     Ok (PyStr instant))%py.

Definition GetTotalTime (video_seconds : Q) : result string :=
  (sec <- timedelta video_seconds ;;
   d <- datetime_add datetime_1_1_1 sec ;;
   let delta :=
     (str_of_int (hour d) ++ ":" ++ str_of_int (minute d) ++ ":"
      ++ str_of_int (second d))%string in
   Ok delta)%py.

(** ** The signal-processing stages *)

(** The body of the loop of [windows] over the start indices still to come;
    the first window that would end at or past the end of the signal stops
    it. *)
Fixpoint windows_loop {A : Type} (signal : list A) (window_size : Z)
    (starts : list Z) : list (list A) :=
  match starts with
  | [] => []
  | i_start :: rest =>
      let i_end := i_start + window_size in
      if i_end >=? len signal then []
      else py_slice signal i_start i_end :: windows_loop signal window_size rest
  end.

Definition windows {A : Type} (signal : list A) (window_size step_size : pyobj)
    : result (list (list A)) :=
  match window_size with
  | PyInt ws =>
      match step_size with
      | PyInt ss =>
          (starts <- py_range 0 (len signal) ss ;;
           Ok (windows_loop signal ws starts))%py
      | _ => Raise (AttributeError "Step size must be an integer.")
      end
  | _ => Raise (AttributeError "Window size must be an integer.")
  end.

(** A numpy floating-point value. *)
Inductive npfloat : Type :=
| Num (q : Q)
| Inf (negative : bool)
| NaN.

Definition np_sum (l : list Q) : Q := fold_right Qplus 0%Q l.

Definition np_power (l : list Q) (p : positive) : list Q :=
  map (fun x => Qpower x (Zpos p)) l.

(** Division of numpy floats: dividing by zero gives an infinity or [NaN],
    not an exception. *)
Definition np_div (a b : npfloat) : npfloat :=
  match a, b with
  | Num x, Num y =>
      if Qeq_bool y 0 then
        if Qeq_bool x 0 then NaN else Inf (Qltb x 0)
      else Num (x / y)
  | Num _, Inf _ => Num 0
  | Inf s, Num y => Inf (xorb s (Qltb y 0))
  | _, _ => NaN
  end.

Definition np_gt (a : npfloat) (t : Q) : bool :=
  match a with
  | Num x => Qgtb x t
  | Inf negative => negb negative
  | NaN => false
  end.

Definition energy (samples : list Q) : npfloat :=
  np_div (Num (np_sum (np_power samples 2))) (Num (inject_Z (len samples))).

Fixpoint rising_edges_from (previous_value : bool) (index : Z)
    (binary_signal : list bool) : list Z :=
  match binary_signal with
  | [] => []
  | x :: rest =>
      (if x && negb previous_value then [index] else [])
        ++ rising_edges_from x (index + 1) rest
  end.

Definition rising_edges (binary_signal : list bool) : list Z :=
  rising_edges_from false 0 binary_signal.

(** ** The WAV file and the world around the program *)

Inductive dtype : Type := uint8 | int16 | int32 | int64 | float32 | float64.

(** [np.iinfo(dt).max]; a floating-point type is refused. *)
Definition iinfo_max (dt : dtype) : result Z :=
  match dt with
  | uint8 => Ok 255
  | int16 => Ok 32767
  | int32 => Ok 2147483647
  | int64 => Ok 9223372036854775807
  | float32 | float64 => Raise ValueError
  end.

(** What [wavfile.read] returns. *)
Record wav : Type := {
  sample_rate : Z;
  samples_dtype : dtype;
  samples : list Q
}.

Record world : Type := {
  (** [scipy.io.wavfile.read] *)
  wavfile_read : string -> result wav;
  (** the module-level binding of the name [output_dir], which
      [split_audio] reads and nothing in the module assigns *)
  global_output_dir : option string;
  (** [os.path.splitext(os.path.basename(p))[0]] *)
  os_path_stem : string -> string;
  (** [os.path.join] *)
  os_path_join : string -> string -> string
}.

(** What the program leaves behind. *)
Inductive event : Type :=
| WavWrite (filename : string) (rate : Z) (data : list Q)
| JsonDump (filename : string) (obj : list (string * (string * string))).

(** ** [split_audio] *)

Record analysis : Type := {
  cut_samples : list Z;
  cut_ranges : list (Z * Z * Z);
  video_sub : list (string * (string * string))
}.

Section Analysis.

(** The three settings as the body of [split_audio] reads them. *)
Variables (min_silence_length silence_threshold : Q).
Variable step_duration : option Q.

Definition window_duration : Q := min_silence_length.

(** Lines 123 to 126. *)
Definition step_duration' : Q :=
  match step_duration with
  | None => window_duration / 10
  | Some s => s
  end.

Definition window_size (sample_rate : Z) : Z :=
  py_int (window_duration * inject_Z sample_rate).

Definition step_size (sample_rate : Z) : Z :=
  py_int (step_duration' * inject_Z sample_rate).

(** [energy(w) / max_energy] *)
Definition window_energy (max_amplitude : Z) (w : list Q) : npfloat :=
  let max_energy := energy [inject_Z max_amplitude] in
  np_div (energy w) max_energy.

(** [e > silence_threshold]: the flag of a window that is not silent. *)
Definition window_silence (max_amplitude : Z) (w : list Q) : bool :=
  np_gt (window_energy max_amplitude w) silence_threshold.

(** Lines 144 to 164: one flag per window. *)
Definition classify (w : wav) : result (list bool) :=
  (max_amplitude <- iinfo_max (samples_dtype w) ;;
   let window_size := window_size (sample_rate w) in
   let step_size := step_size (sample_rate w) in
   _total <- py_truediv (inject_Z (len (samples w))) (inject_Z step_size) ;;
   signal_windows <- windows (samples w) (PyInt window_size) (PyInt step_size) ;;
   Ok (map (window_silence max_amplitude) signal_windows))%py.

(** [int(t * sample_rate)] for the cut time [t = r * step_duration] of the
    rising edge at window [r]. *)
Definition cut_sample (sample_rate r : Z) : Z :=
  let t := (inject_Z r * step_duration')%Q in
  py_int (t * inject_Z sample_rate).

(** Line 170: the Cut Points, one per rising edge. *)
Definition detected_cuts (sample_rate : Z) (flags : list bool) : list Z :=
  map (cut_sample sample_rate) (rising_edges flags).

(** [(i, cut_samples[i], cut_samples[i+1]) for i in range(len(cut_samples) - 1)] *)
Definition ranges_of (cut_samples : list Z) : list (Z * Z * Z) :=
  map (fun i => (Z.of_nat i, nth i cut_samples 0, nth (S i) cut_samples 0))
      (seq 0 (List.length cut_samples - 1)).

(** One entry of the manifest. *)
Definition manifest_entry (sample_rate : Z) (cut_samples : list Z) (i : nat)
    : result (string * (string * string)) :=
  (t0 <- py_truediv (inject_Z (nth i cut_samples 0)) (inject_Z sample_rate) ;;
   g0 <- GetTime t0 ;;
   t1 <- py_truediv (inject_Z (nth (S i) cut_samples 0)) (inject_Z sample_rate) ;;
   g1 <- GetTime t1 ;;
   Ok (str_of_int (Z.of_nat i), (py_str g0, py_str g1)))%py.

(** Lines 166 to 178: from the flags to the ranges and the manifest. *)
Definition segment (sample_rate : Z) (flags : list bool) : result analysis :=
  (let cut_samples := detected_cuts sample_rate flags ++ [-1] in
   let cut_ranges := ranges_of cut_samples in
   video_sub <- mapM (manifest_entry sample_rate cut_samples)
                     (seq 0 (List.length cut_samples - 1)) ;;
   Ok {| cut_samples := cut_samples;
         cut_ranges := cut_ranges;
         video_sub := video_sub |})%py.

Definition analyse (w : wav) : result analysis :=
  (flags <- classify w ;; segment (sample_rate w) flags)%py.

End Analysis.

(** Effects are collected in order next to the outcome. *)
Definition io (A : Type) : Type := (list event * result A)%type.

Definition io_ret {A : Type} (a : A) : io A := ([], Ok a).

Definition io_bind {A B : Type} (m : io A) (k : A -> io B) : io B :=
  match m with
  | (out, Ok a) => let (out', r) := k a in (out ++ out', r)
  | (out, Raise e) => (out, Raise e)
  end.

Definition lift {A : Type} (r : result A) : io A := ([], r).

Definition emit (e : event) : io unit := ([e], Ok tt).

Declare Scope io_scope.
Delimit Scope io_scope with io.
Notation "x <- m ;; k" := (io_bind m (fun x => k))
  (at level 61, m at next level, right associativity) : io_scope.
Notation "m ;; k" := (io_bind m (fun _ => k))
  (at level 61, right associativity) : io_scope.

(** Reading the global name [output_dir]. *)
Definition read_output_dir (W : world) : io string :=
  match global_output_dir W with
  | Some d => io_ret d
  | None => lift (Raise (NameError "output_dir"))
  end.

(** ["{:03d}".format(i)] *)
Definition format_03d (i : Z) : string := zfill 3 (str_of_int i).

Definition dry_run : bool := false.

(** Lines 180 to 193: one file per range. *)
Fixpoint write_ranges (W : world) (output_filename_prefix : string) (w : wav)
    (cut_ranges : list (Z * Z * Z)) : io unit :=
  match cut_ranges with
  | [] => io_ret tt
  | (i, start, stop) :: rest =>
      (output_dir <- read_output_dir W ;;
       let output_file_path :=
         (os_path_join W output_dir output_filename_prefix
          ++ "_" ++ format_03d i ++ ".wav")%string in
       (if negb dry_run
        then emit (WavWrite output_file_path (sample_rate w)
                            (py_slice (samples w) start stop))
        else io_ret tt) ;;
       write_ranges W output_filename_prefix w rest)%io
  end.

(** The body of [split_audio] from line 121 on, run with the settings it
    finds in its three local names. *)
Definition split_audio_body (W : world) (input_file output_file : string)
    (min_silence_length silence_threshold : Q) (step_duration : option Q)
    : io unit :=
  let input_filename := input_file in
  let output_filename_prefix := os_path_stem W input_filename in
  (w <- lift (wavfile_read W input_filename) ;;
   a <- lift (analyse min_silence_length silence_threshold step_duration w) ;;
   write_ranges W output_filename_prefix w (cut_ranges a) ;;
   output_dir <- read_output_dir W ;;
   emit (JsonDump (output_dir ++ "\" ++ output_filename_prefix ++ ".json")%string
                  (video_sub a)))%io.

(** [split_audio]: lines 115 to 119 assign the three settings before anything
    reads the values the caller passed. *)
Definition split_audio (W : world) (input_file output_file : string)
    (min_silence_length silence_threshold step_duration : pyobj) : io unit :=
  let min_silence_length := 0.6%Q in
  let silence_threshold := 1e-4%Q in
  let step_duration := Some (0.03 / 10)%Q in
  split_audio_body W input_file output_file
                   min_silence_length silence_threshold step_duration.

(** ** [main] *)

(** What [parse_args] returns for a command line that parses: a namespace
    with one attribute per [add_argument] of lines 19 to 28, the two
    positional strings and the three floats, given or defaulted. *)
Definition Namespace : Type := list (string * pyobj).

Definition parse_args (input_file output_dir : string)
    (min_silence_length silence_threshold step_duration : Q) : Namespace :=
  [("input_file", PyStr input_file);
   ("output_dir", PyStr output_dir);
   ("min_silence_length", PyFloat min_silence_length);
   ("silence_threshold", PyFloat silence_threshold);
   ("step_duration", PyFloat step_duration)]%string.

(** [args.name] *)
Definition getattr (args : Namespace) (name : string) : result pyobj :=
  match find (fun kv => String.eqb (fst kv) name) args with
  | Some (_, v) => Ok v
  | None =>
      Raise (AttributeError
               ("'Namespace' object has no attribute '" ++ name ++ "'"))
  end.

(** How a call of [main] ends. *)
Inductive ending : Type :=
| Returns
| SystemExit (code : Z)
| Uncaught (e : exn).

(** What a call of [main] does: the lines it prints, the files it writes
    and how it ends. *)
Record main_run : Type := {
  printed : list string;
  written : list event;
  ended : ending
}.

(** The call of line 44 once its five arguments are there.  The file names
    are strings on every path that reaches it. *)
Definition call_split_audio (W : world)
    (input_file output_file min_silence_length silence_threshold
       step_duration : pyobj) : main_run :=
  match input_file, output_file with
  | PyStr f, PyStr o =>
      let (out, r) := split_audio W f o min_silence_length silence_threshold
                                  step_duration in
      {| printed := []; written := out;
         ended := match r with Ok _ => Returns | Raise e => Uncaught e end |}
  | _, _ =>
      {| printed := []; written := [];
         ended := Uncaught (OSError "not a file name") |}
  end.

(** [main] from line 31 on.  [os_path_exists] is [os.path.exists];
    [split_audio_bound] tells whether the global name [split_audio] is bound
    when [main] runs: it is not when the file is run as a script, where
    line 49 calls [main] before line 104 defines the function.  The name of
    the function is looked up before its arguments are evaluated. *)
Definition main (W : world) (os_path_exists : string -> bool)
    (split_audio_bound : bool) (args : Namespace) : main_run :=
  let stop (e : exn) :=
    {| printed := []; written := []; ended := Uncaught e |} in
  let exit_with (line : string) :=
    {| printed := [line]; written := []; ended := SystemExit 1 |} in
  match getattr args "input_file" with
  | Raise e => stop e
  | Ok input_file =>
      if negb (os_path_exists (py_str input_file))
      then exit_with ("Error: The file '" ++ py_str input_file
                      ++ "' does not exist.")%string
      else
        match getattr args "output_dir" with
        | Raise e => stop e
        | Ok output_dir =>
            if negb (os_path_exists (py_str output_dir))
            then exit_with ("Error: The directory '" ++ py_str output_dir
                            ++ "' does not exist.")%string
            else if negb split_audio_bound
            then stop (NameError "split_audio")
            else
              match getattr args "input_file" with
              | Raise e => stop e
              | Ok a1 =>
              match getattr args "output_file" with
              | Raise e => stop e
              | Ok a2 =>
              match getattr args "min_silence_length" with
              | Raise e => stop e
              | Ok a3 =>
              match getattr args "silence_threshold" with
              | Raise e => stop e
              | Ok a4 =>
              match getattr args "step_duration" with
              | Raise e => stop e
              | Ok a5 => call_split_audio W a1 a2 a3 a4 a5
              end end end end end
        end
  end.

(** The settings every run of [split_audio] uses, and the stages as it runs
    them. *)
Definition default_min_silence_length : Q := 0.6.
Definition default_silence_threshold : Q := 1e-4.
Definition default_step_duration : option Q := Some (0.03 / 10)%Q.

Definition run_classify : wav -> result (list bool) :=
  classify default_min_silence_length default_silence_threshold
           default_step_duration.

Definition run_analyse : wav -> result analysis :=
  analyse default_min_silence_length default_silence_threshold
          default_step_duration.

(** ** What the properties speak of *)

(** The flag of window [k]; before the first window, and past the last one,
    there is none, which reads as false. *)
Definition flag (flags : list bool) (k : Z) : bool :=
  if k <? 0 then false else nth (Z.to_nat k) flags false.

(** The shape [HH:MM:SS.mmm]: digits around two colons and a dot. *)
Definition is_digit (c : ascii) : bool :=
  ((48 <=? nat_of_ascii c) && (nat_of_ascii c <=? 57))%nat.

Definition digit_value (c : ascii) : Z := Z.of_nat (nat_of_ascii c) - 48.

Definition hh_mm_ss_mmm (s : string) : bool :=
  match list_ascii_of_string s with
  | [h1; h2; c1; m1; m2; c2; s1; s2; dot; f1; f2; f3] =>
      forallb is_digit [h1; h2; m1; m2; s1; s2; f1; f2; f3]
      && Ascii.eqb c1 ":" && Ascii.eqb c2 ":" && Ascii.eqb dot "."
  | _ => false
  end.

(** Two decimal digits that read as [n]. *)
Definition two_digits_of (n : Z) (s : string) : bool :=
  match s with
  | String d1 (String d2 EmptyString) =>
      is_digit d1 && is_digit d2 && (n =? 10 * digit_value d1 + digit_value d2)
  | _ => false
  end.

(** The last offset [GetTime] can format: half a microsecond more rounds to
    the first instant of the year 10000. *)
Definition GetTime_limit : Q := 315537897600 - (1 # 2000000).

(** The ranges of a cut list, by recursion on the list: entry [i] runs from
    one cut to the next. *)
Fixpoint chain (i : Z) (cuts : list Z) : list (Z * Z * Z) :=
  match cuts with
  | c :: (c' :: _) as rest => (i, c, c') :: chain (i + 1) rest
  | _ => []
  end.

(** The samples written for a range. *)
Definition segment_data (samples : list Q) (r : Z * Z * Z) : list Q :=
  let '(_, start, stop) := r in py_slice samples start stop.

(** The Cut Points of a run. *)
Definition run_cuts : Z -> list bool -> list Z :=
  detected_cuts default_min_silence_length default_step_duration.

(** A window is silent when its normalized energy is a number at or below
    the threshold. *)
Definition silent_window (max_amplitude : Z) (x : list Q) : Prop :=
  exists e : Q,
    window_energy max_amplitude x = Num e /\ (e <= default_silence_threshold)%Q.

(** ** Three recordings *)

Module Recordings.

Definition full_scale : Q := 32767.

(** At 334 samples a second a window holds 200 samples and a step is one
    sample. *)
Definition rate : Z := 334.

(** Silence throughout. *)
Definition silent : wav :=
  {| sample_rate := rate; samples_dtype := int16;
     samples := repeat 0%Q 300 |}.

(** Silence, then sound up to the end. *)
Definition one_cut : wav :=
  {| sample_rate := rate; samples_dtype := int16;
     samples := repeat 0%Q 204 ++ repeat full_scale 6 |}.

(** Two clicks with more than a window of silence between them. *)
Definition two_cuts : wav :=
  {| sample_rate := rate; samples_dtype := int16;
     samples := repeat 0%Q 204 ++ [full_scale] ++ repeat 0%Q 250
                ++ [full_scale] ++ repeat 0%Q 10 |}.

Definition world_of (w : wav) (output_dir : option string) : world :=
  {| wavfile_read := fun _ => Ok w;
     global_output_dir := output_dir;
     os_path_stem := fun p => p;
     os_path_join := fun a b => (a ++ "/" ++ b)%string |}.

End Recordings.

(** ** What the further properties speak of *)

(** The first microsecond past the year 9999. *)
Definition datetime_end : Z := (max_datetime_day + 1) * us_per_day.

(** [str(GetTime(c / sample_rate))], the timestamp of lines 176 and 177 for
    the entry [c] of the cut list. *)
Definition timestamp (sample_rate c : Z) : result string :=
  (t <- py_truediv (inject_Z c) (inject_Z sample_rate) ;;
   g <- GetTime t ;;
   Ok (py_str g))%py.

(** The file a range is written to when [output_dir] is bound to [dir]. *)
Definition segment_file (W : world) (dir prefix : string) (w : wav)
    (r : Z * Z * Z) : event :=
  WavWrite (os_path_join W dir prefix ++ "_" ++ format_03d (fst (fst r))
            ++ ".wav")
           (sample_rate w) (segment_data (samples w) r).

Definition event_filename (e : event) : string :=
  match e with
  | WavWrite f _ _ => f
  | JsonDump f _ => f
  end.

(** [int(s)] on a string of decimal digits, with a minus sign or not. *)
Definition int_of_str (s : string) : option Z :=
  option_map Z.of_int (NilZero.int_of_string s).


Definition short_loud_recording : wav :=
  {| sample_rate := 334; samples_dtype := int16;
     samples := repeat 32767%Q 200 |}.

(** ** Binary64 *)

(** The arithmetic of the program: IEEE 754 binary64, every operation
    giving the exact result rounded to the nearest double, ties to the even
    significand.  A double is the rational it stands for; the sign of zero
    is not kept. *)
Module Float64.

(** [2 ^ e], for an exponent of either sign. *)
Definition pow2 (e : Z) : Q := 2 ^ e.

(** The exponent of a positive number: [2 ^ e <= x < 2 ^ (e + 1)]. *)
Definition exponent (x : Q) : Z :=
  let k := Z.log2 (Qnum x) - Z.log2 (Zpos (Qden x)) in
  if Qle_bool (pow2 k) x then k else k - 1.

(** The double nearest to [x]: a significand of 53 bits from [2 ^ -1022]
    on, a multiple of [2 ^ -1074] below, an infinity when the rounded
    number reaches [2 ^ 1024]. *)
Definition round (x : Q) : npfloat :=
  let x := Qred x in
  if Qeq_bool x 0 then Num 0
  else
    let e := Z.max (exponent (Qabs x) - 52) (-1074) in
    let y := Qred (inject_Z (round_half_even (x / pow2 e)) * pow2 e) in
    if Qle_bool (pow2 1024) (Qabs y) then Inf (Qltb x 0) else Num y.

Definition fadd (a b : npfloat) : npfloat :=
  match a, b with
  | Num x, Num y => round (x + y)
  | Inf s, Inf s' => if Bool.eqb s s' then Inf s else NaN
  | Inf s, Num _ | Num _, Inf s => Inf s
  | _, _ => NaN
  end.

Definition fmul (a b : npfloat) : npfloat :=
  match a, b with
  | Num x, Num y => round (x * y)
  | Inf s, Inf s' => Inf (xorb s s')
  | Inf s, Num y | Num y, Inf s =>
      if Qeq_bool y 0 then NaN else Inf (xorb s (Qltb y 0))
  | _, _ => NaN
  end.

(** Division as numpy does it: a zero divisor gives an infinity or [NaN]
    and no exception. *)
Definition fdiv (a b : npfloat) : npfloat :=
  match a, b with
  | Num x, Num y =>
      if Qeq_bool y 0 then
        if Qeq_bool x 0 then NaN else Inf (Qltb x 0)
      else round (x / y)
  | Num _, Inf _ => Num 0
  | Inf s, Num y => Inf (xorb s (Qltb y 0))
  | _, _ => NaN
  end.

(** [float(k)] on an [int], which is also what Python does to the [int]
    operand of a float operation: an [int] too large for a double is
    refused. *)
Definition py_float (k : Z) : result npfloat :=
  match round (inject_Z k) with
  | Inf _ => Raise OverflowError
  | f => Ok f
  end.

(** [int(x)] on a float. *)
Definition float_int (x : npfloat) : result Z :=
  match x with
  | Num q => Ok (py_int q)
  | Inf _ => Raise OverflowError
  | NaN => Raise ValueError
  end.

(** [0.03/10], the step duration of line 119. *)
Definition step_duration : npfloat := fdiv (round 0.03) (round 10).

(** [int(step_duration * sample_rate)], line 151. *)
Definition step_size (step_duration : npfloat) (sample_rate : Z) : result Z :=
  (fs <- py_float sample_rate ;; float_int (fmul step_duration fs))%py.

(** Lines 166 and 170 for the rising edge at window [r]:
    [int(t * sample_rate)] with [t = r * step_duration]. *)
Definition cut_sample (step_duration : npfloat) (sample_rate r : Z) : result Z :=
  (fr <- py_float r ;;
   let t := fmul fr step_duration in
   fs <- py_float sample_rate ;;
   float_int (fmul t fs))%py.

(** Lines 166 to 171: the generators are consumed edge by edge, and -1 is
    appended. *)
Definition cut_samples (step_duration : npfloat) (sample_rate : Z)
    (flags : list bool) : result (list Z) :=
  (cuts <- mapM (cut_sample step_duration sample_rate) (rising_edges flags) ;;
   Ok (cuts ++ [-1]))%py.

(** [np.power(samples, 2.)] on numbers that numpy takes to float64 (Python
    numbers, 32-bit and 64-bit integers, doubles): each sample as a double,
    times itself. *)
Definition np_power (samples : list Q) : list npfloat :=
  map (fun x => let f := round x in fmul f f) samples.

Fixpoint zip_add (r a : list npfloat) : list npfloat :=
  match r, a with
  | x :: r', y :: a' => fadd x y :: zip_add r' a'
  | _, _ => r
  end.

(** The eight running sums of numpy's unrolled loop, over [blocks] more
    blocks of eight. *)
Fixpoint add_blocks (blocks : nat) (r a : list npfloat)
    : list npfloat * list npfloat :=
  match blocks with
  | O => (r, a)
  | S b => add_blocks b (zip_add r (firstn 8 a)) (skipn 8 a)
  end.

(** numpy's pairwise summation: fewer than 8 numbers are added one by one
    from zero; up to 128 go through eight running sums, which are added two
    by two, and what is left over is added one by one; more are split in
    two near the middle, at a multiple of eight.  [fuel] bounds the depth
    of the splits. *)
Fixpoint pairwise_sum (fuel : nat) (a : list npfloat) : npfloat :=
  let n := List.length a in
  if (n <? 8)%nat then fold_left fadd a (Num 0)
  else if (n <=? 128)%nat then
    match add_blocks (n / 8 - 1) (firstn 8 a) (skipn 8 a) with
    | ([r0; r1; r2; r3; r4; r5; r6; r7], rest) =>
        fold_left fadd rest
                  (fadd (fadd (fadd r0 r1) (fadd r2 r3))
                        (fadd (fadd r4 r5) (fadd r6 r7)))
    | _ => NaN
    end
  else
    match fuel with
    | O => NaN
    | S fuel' =>
        let n2 := (n / 2 - (n / 2) mod 8)%nat in
        fadd (pairwise_sum fuel' (firstn n2 a)) (pairwise_sum fuel' (skipn n2 a))
    end.

(** [np.sum] of a one-dimensional array of doubles. *)
Definition np_sum (a : list npfloat) : npfloat :=
  pairwise_sum (List.length a) a.

(** [energy], lines 90 and 91.  [len(samples)] fits a machine word, so
    [float] does not refuse it. *)
Definition energy (samples : list Q) : npfloat :=
  fdiv (np_sum (np_power samples)) (round (inject_Z (len samples))).

End Float64.

(** Doubles that are whole numbers. *)
Definition integers (zs : list Z) : list npfloat :=
  map (fun z => Num (inject_Z z)) zs.

Definition sumZ (zs : list Z) : Z := fold_right Z.add 0 zs.

(** The Standard Library's specification of IEEE 754, at the format of
    binary64, to compare [Float64] with. *)
Definition of_spec_float (f : SpecFloat.spec_float) : npfloat :=
  match f with
  | SpecFloat.S754_zero _ => Num 0
  | SpecFloat.S754_infinity s => Inf s
  | SpecFloat.S754_nan => NaN
  | SpecFloat.S754_finite s m e =>
      Num (Qred (inject_Z (if s then Zneg m else Zpos m) * Float64.pow2 e))
  end.

Definition spec_of_Z (z : Z) : SpecFloat.spec_float :=
  SpecFloat.binary_normalize 53 1024 z 0 false.

Definition spec_mul := SpecFloat.SFmul 53 1024.
Definition spec_div := SpecFloat.SFdiv 53 1024.
Definition spec_add := SpecFloat.SFadd 53 1024.



(** * Properties *)

(** ** The error monad *)

Lemma bind_Ok {A B : Type} (m : result A) (k : A -> result B) (b : B) :
  bind m k = Ok b -> exists a, m = Ok a /\ k a = Ok b.
Proof.
  destruct m as [a|e]; simpl; intros H; [exists a; auto | discriminate].
Qed.

Lemma mapM_length {A B : Type} (f : A -> result B) (l : list A) (bs : list B) :
  mapM f l = Ok bs -> List.length bs = List.length l.
Proof.
  revert bs; induction l as [|a l IH]; simpl; intros bs H.
  - injection H as <-; reflexivity.
  - apply bind_Ok in H as (b & _ & H).
    apply bind_Ok in H as (bs' & Hbs & H).
    injection H as <-; simpl; f_equal; auto.
Qed.

(** ** Slices *)

Section Slices.

Context {A : Type}.
Implicit Types (l : list A) (s e : Z).

Lemma len_nonneg l : 0 <= len l.
Proof. unfold len; lia. Qed.

(** Inside the list a slice is the plain sub-list. *)
Lemma py_slice_inside l s e :
  0 <= s <= e -> e <= len l ->
  py_slice l s e = firstn (Z.to_nat (e - s)) (skipn (Z.to_nat s) l).
Proof.
  intros Hs He; unfold py_slice, clip_index.
  destruct (Z.ltb_spec s 0), (Z.ltb_spec e 0); try lia.
  rewrite !Z.min_l by lia; reflexivity.
Qed.

Lemma py_slice_length l s e :
  0 <= s <= e -> e <= len l -> len (py_slice l s e) = e - s.
Proof.
  intros Hs He; rewrite py_slice_inside by assumption.
  unfold len in *; rewrite length_firstn, length_skipn; lia.
Qed.

Lemma py_slice_nth_error l s e (j : nat) :
  0 <= s <= e -> e <= len l -> Z.of_nat j < e - s ->
  nth_error (py_slice l s e) j = nth_error l (Z.to_nat s + j).
Proof.
  intros Hs He Hj; rewrite py_slice_inside by assumption.
  rewrite nth_error_firstn.
  destruct (Nat.ltb_spec j (Z.to_nat (e - s))); [|lia].
  apply nth_error_skipn.
Qed.

(** A stop index at or past the end takes everything from the start on. *)
Lemma py_slice_to_end l s e :
  0 <= s -> len l <= e -> py_slice l s e = skipn (Z.to_nat s) l.
Proof.
  intros Hs He; pose proof (len_nonneg l) as Hn.
  unfold py_slice, clip_index.
  destruct (Z.ltb_spec s 0), (Z.ltb_spec e 0); try lia.
  rewrite (Z.min_r e) by lia.
  destruct (Z.le_gt_cases s (len l)) as [Hle|Hgt].
  - rewrite Z.min_l by lia.
    apply firstn_all2; rewrite length_skipn.
    unfold len in *; lia.
  - rewrite Z.min_r by lia.
    rewrite !skipn_all2 by (unfold len in *; lia).
    apply firstn_nil.
Qed.

Lemma py_slice_diag l s : py_slice l s s = [].
Proof. unfold py_slice; rewrite Z.sub_diag; reflexivity. Qed.

Lemma firstn_plus (x y : nat) l :
  firstn (x + y) l = (firstn x l ++ firstn y (skipn x l))%list.
Proof.
  revert l; induction x as [|x IH]; intros [|a l]; simpl;
    rewrite ?firstn_nil; try reflexivity.
  f_equal; apply IH.
Qed.

(** Two slices that share a boundary join into one. *)
Lemma py_slice_app l a b c :
  0 <= a <= b -> b <= c ->
  (py_slice l a b ++ py_slice l b c)%list = py_slice l a c.
Proof.
  intros Hab Hbc; unfold py_slice, clip_index.
  destruct (Z.ltb_spec a 0), (Z.ltb_spec b 0), (Z.ltb_spec c 0); try lia.
  set (n := len l); set (a' := Z.min a n); set (b' := Z.min b n);
    set (c' := Z.min c n).
  assert (Hn : 0 <= n) by apply len_nonneg.
  assert (H' : 0 <= a' <= b' /\ b' <= c' /\ c' <= n) by lia.
  replace (Z.to_nat b') with (Z.to_nat (b' - a') + Z.to_nat a')%nat by lia.
  rewrite <- skipn_skipn.
  replace (Z.to_nat (c' - a')) with (Z.to_nat (b' - a') + Z.to_nat (c' - b'))%nat
    by lia.
  rewrite firstn_plus; reflexivity.
Qed.

End Slices.

(** ** The Windower *)

Section Windows.

Context {A : Type}.
Variable signal : list A.
Variable ws : Z.

(** The start index of the [k]-th turn of the loop. *)
Variable start_of : nat -> Z.

Lemma windows_loop_nth_error (m a i : nat) (w : list A) :
  nth_error (windows_loop signal ws (map start_of (seq a m))) i = Some w ->
  (i < m)%nat /\
  start_of (a + i)%nat + ws < len signal /\
  w = py_slice signal (start_of (a + i)%nat) (start_of (a + i)%nat + ws).
Proof.
  revert a i; induction m as [|m IH]; intros a i; simpl.
  - destruct i; discriminate.
  - destruct (Z.geb_spec (start_of a + ws) (len signal)) as [Hge|Hlt].
    + destruct i; discriminate.
    + destruct i as [|i]; simpl.
      * intros [= <-]; rewrite Nat.add_0_r; repeat split; try lia.
      * intros H; apply IH in H as (Hi & Hend & Hw).
        replace (a + S i)%nat with (S a + i)%nat by lia.
        repeat split; try lia; assumption.
Qed.

Lemma windows_loop_complete (m a i : nat) :
  (i < m)%nat ->
  (forall j, (j <= i)%nat -> start_of (a + j)%nat + ws < len signal) ->
  (i < List.length (windows_loop signal ws (map start_of (seq a m))))%nat.
Proof.
  revert a i; induction m as [|m IH]; intros a i Hi Hall; [lia|]; simpl.
  pose proof (Hall 0%nat ltac:(lia)) as H0; rewrite Nat.add_0_r in H0.
  destruct (Z.geb_spec (start_of a + ws) (len signal)) as [Hge|Hlt]; [lia|].
  destruct i as [|i]; simpl; [lia|].
  apply -> Nat.succ_lt_mono; apply IH; [lia|].
  intros j Hj; replace (S a + j)%nat with (a + S j)%nat by lia.
  apply Hall; lia.
Qed.

End Windows.

Lemma range_len_positive_step (n step : Z) :
  0 < step -> 0 <= n ->
  forall i : Z, 0 <= i -> (i * step < n <-> i < range_len 0 n step).
Proof.
  intros Hstep Hn i Hi; unfold range_len.
  destruct (Z.ltb_spec 0 step); [|lia].
  destruct (Z.ltb_spec 0 n).
  - rewrite Z.sub_0_r.
    pose proof (Z.div_le_lower_bound (n - 1) step i) as Hlo.
    pose proof (Z.div_lt_upper_bound (n - 1) step i) as Hup.
    split; intros H'.
    + assert (i <= (n - 1) / step) by (apply Hlo; nia); lia.
    + destruct (Z.lt_ge_cases (i * step) n) as [|Hge]; [assumption|].
      assert ((n - 1) / step < i) by (apply Hup; nia); lia.
  - split; intros; nia.
Qed.

(** C5.  For positive integer sizes, [windows] yields its windows without
    raising; the [i]-th one starts at sample [i * step_size] and holds
    exactly the [window_size] samples from there on; every window it yields
    ends strictly before the end of the signal, and every window that does so
    is yielded.  A last window that would reach the end, or be cut short by
    it, is not yielded and nothing is padded. *)
Theorem windows_positions {A : Type} (signal : list A) (window_size step_size : Z) :
  0 < window_size -> 0 < step_size ->
  exists ws : list (list A),
    windows signal (PyInt window_size) (PyInt step_size) = Ok ws /\
    (forall (i : nat) (w : list A),
        nth_error ws i = Some w ->
        let i_start := Z.of_nat i * step_size in
        i_start + window_size < len signal /\
        len w = window_size /\
        forall j : nat, Z.of_nat j < window_size ->
                        nth_error w j = nth_error signal (Z.to_nat i_start + j)) /\
    (forall i : nat,
        Z.of_nat i * step_size + window_size < len signal ->
        (i < List.length ws)%nat).
Proof.
  intros Hws Hss; unfold windows, py_range.
  destruct (Z.eqb_spec step_size 0) as [|_]; [lia|]; simpl.
  set (start_of := fun k : nat => 0 + Z.of_nat k * step_size).
  set (m := Z.to_nat (range_len 0 (len signal) step_size)).
  eexists; split; [reflexivity|]; split.
  - intros i w Hw; cbv zeta; set (i_start := Z.of_nat i * step_size).
    apply (windows_loop_nth_error signal window_size start_of) in Hw
      as (_ & Hend & ->).
    unfold start_of in *; simpl in *; fold i_start in Hend |- *.
    assert (0 <= i_start) by (unfold i_start; nia).
    repeat split; [assumption | |].
    + rewrite py_slice_length; lia.
    + intros j Hj; apply py_slice_nth_error; lia.
  - intros i Hi.
    pose proof (len_nonneg signal) as Hn.
    apply (windows_loop_complete signal window_size start_of).
    + pose proof (range_len_positive_step (len signal) step_size Hss Hn
                    (Z.of_nat i) ltac:(lia)) as [Hlt _].
      subst m; lia.
    + intros j Hj; unfold start_of; simpl; nia.
Qed.

(** The theorem at a signal of ten samples, windows of three, steps of two. *)
Lemma windows_positions_witness :
  exists ws : list (list Z),
    windows [10; 11; 12; 13; 14; 15; 16; 17; 18; 19] (PyInt 3) (PyInt 2) = Ok ws /\
    (forall (i : nat) (w : list Z),
        nth_error ws i = Some w ->
        let i_start := Z.of_nat i * 2 in
        i_start + 3 < len [10; 11; 12; 13; 14; 15; 16; 17; 18; 19] /\
        len w = 3 /\
        forall j : nat, Z.of_nat j < 3 ->
                        nth_error w j =
                        nth_error [10; 11; 12; 13; 14; 15; 16; 17; 18; 19]
                                  (Z.to_nat i_start + j)) /\
    (forall i : nat,
        Z.of_nat i * 2 + 3 < len [10; 11; 12; 13; 14; 15; 16; 17; 18; 19] ->
        (i < List.length ws)%nat).
Proof.
  apply (windows_positions [10; 11; 12; 13; 14; 15; 16; 17; 18; 19] 3 2); lia.
Defined.

Example windows_ten_three_two :
  windows [10; 11; 12; 13; 14; 15; 16; 17; 18; 19] (PyInt 3) (PyInt 2)
  = Ok [[10; 11; 12]; [12; 13; 14]; [14; 15; 16]; [16; 17; 18]].
Proof. reflexivity. Qed.

(** A window that would end exactly at the end of the signal is not yielded
    either, full as it is. *)
Example windows_nine_three_three :
  windows [10; 11; 12; 13; 14; 15; 16; 17; 18] (PyInt 3) (PyInt 3)
  = Ok [[10; 11; 12]; [13; 14; 15]].
Proof. reflexivity. Qed.

(** C6.  What [windows] checks is the type of its two sizes and nothing
    about their sign: a [window_size] that is not an [int] raises
    [AttributeError], so does, after it, a [step_size] that is not an [int];
    two [int]s raise only for a zero step, the [ValueError] of [range]; every
    other pair of [int]s, positive or not, yields windows without raising. *)
Theorem windows_validation {A : Type} (signal : list A) (window_size step_size : pyobj) :
  match window_size, step_size with
  | PyInt ws, PyInt ss =>
      if ss =? 0
      then windows signal window_size step_size = Raise ValueError
      else exists l, windows signal window_size step_size = Ok l
  | PyInt _, _ =>
      windows signal window_size step_size
      = Raise (AttributeError "Step size must be an integer.")
  | _, _ =>
      windows signal window_size step_size
      = Raise (AttributeError "Window size must be an integer.")
  end.
Proof.
  destruct window_size, step_size; try reflexivity.
  unfold windows, py_range.
  destruct (z0 =? 0); simpl; [reflexivity | eexists; reflexivity].
Qed.

(** A window size of zero, and negative sizes, are accepted: no exception
    is raised for them. *)
Lemma windows_accepts_nonpositive_sizes :
  windows [1; 2; 3] (PyInt 0) (PyInt 1) = Ok [[]; []; []] /\
  windows [1; 2; 3] (PyInt (-1)) (PyInt 1) = Ok [[1; 2]; []; []] /\
  windows [1; 2; 3] (PyInt 2) (PyInt (-1)) = Ok [] /\
  ~ (forall (signal : list Z) (ws ss : Z),
        ~ (0 < ws /\ 0 < ss) ->
        exists e, windows signal (PyInt ws) (PyInt ss) = Raise e).
Proof.
  repeat split; intros H.
  destruct (H [1; 2; 3] 0 1 ltac:(lia)) as (e & He); discriminate He.
Qed.

(** ** The Energy Classifier *)

Section Energy.

(** On a sequence that is not empty [energy] is the sum of the squares
    over the count. *)
Lemma energy_nonempty (samples : list Q) :
  samples <> [] ->
  energy samples
  = Num (np_sum (np_power samples 2) / inject_Z (len samples)).
Proof.
  intros Hne; unfold energy, np_div.
  destruct (Qeq_bool (inject_Z (len samples)) 0) eqn:E; [|reflexivity].
  apply Qeq_bool_eq in E; unfold Qeq, len in E; simpl in E.
  destruct samples; [contradiction | simpl in E; lia].
Qed.

(** On the empty sequence numpy divides zero by zero. *)
Example energy_empty : energy [] = NaN.
Proof. reflexivity. Qed.

End Energy.

(** ** The Edge Detector *)

Section Edges.

(** With [previous] the flag seen last and [index] the index of the head
    of [flags], the indices yielded are those of the flags that are set
    right after one that is not. *)
Lemma rising_edges_from_In (flags : list bool) :
  forall (previous : bool) (index k : Z),
    In k (rising_edges_from previous index flags) <->
    exists i : nat,
      k = index + Z.of_nat i /\
      nth_error flags i = Some true /\
      match i with
      | O => previous
      | S j => nth j flags false
      end = false.
Proof.
  induction flags as [|x rest IH]; intros previous index k; simpl.
  - split; [contradiction | intros ([|i] & _ & H & _); discriminate].
  - rewrite in_app_iff, IH; split.
    + intros [H | (i & -> & Hi & Hp)].
      * destruct x, previous; simpl in H; try contradiction.
        destruct H as [<-|[]]; exists 0%nat; repeat split; lia.
      * exists (S i); repeat split; [lia | assumption |].
        destruct i; assumption.
    + intros ([|i] & -> & Hi & Hp).
      * left; simpl in Hi; injection Hi as ->; subst previous.
        simpl; left; lia.
      * right; exists i; repeat split; [lia | assumption |].
        destruct i; assumption.
Qed.

Lemma rising_edges_from_sorted (flags : list bool) :
  forall (previous : bool) (index : Z),
    StronglySorted Z.lt (rising_edges_from previous index flags) /\
    Forall (fun k => index <= k < index + len flags)
           (rising_edges_from previous index flags).
Proof.
  induction flags as [|x rest IH]; intros previous index; simpl.
  - split; constructor.
  - destruct (IH x (index + 1)) as (Hs & Hb).
    assert (Hb' : Forall (fun k => index + 1 <= k < index + len (x :: rest))
                         (rising_edges_from x (index + 1) rest)).
    { eapply Forall_impl; [|exact Hb].
      unfold len; simpl List.length; intros; lia. }
    destruct (x && negb previous); simpl.
    + split; constructor.
      * assumption.
      * eapply Forall_impl; [|exact Hb']; simpl; intros; lia.
      * unfold len; simpl List.length; lia.
      * eapply Forall_impl; [|exact Hb']; simpl; intros; lia.
    + split; [assumption|].
      eapply Forall_impl; [|exact Hb']; simpl; intros; lia.
Qed.

Lemma rising_edges_In (flags : list bool) (k : Z) :
  In k (rising_edges flags) <->
  0 <= k < len flags /\ flag flags k = true /\ flag flags (k - 1) = false.
Proof.
  unfold rising_edges; rewrite rising_edges_from_In; unfold flag; split.
  - intros (i & -> & Hi & Hp); simpl.
    assert (Hlt : (i < List.length flags)%nat)
      by (apply nth_error_Some; congruence).
    destruct (Z.ltb_spec (Z.of_nat i) 0); [lia|].
    rewrite Nat2Z.id.
    repeat split; try (unfold len; lia).
    + apply nth_error_nth with (d := false) in Hi; assumption.
    + destruct i as [|j]; [reflexivity|].
      destruct (Z.ltb_spec (Z.of_nat (S j) - 1) 0); [reflexivity|].
      replace (Z.to_nat (Z.of_nat (S j) - 1)) with j by lia; assumption.
  - intros ((Hk0 & Hkn) & Hk & Hp).
    destruct (Z.ltb_spec k 0); [lia|].
    exists (Z.to_nat k); repeat split; [lia | |].
    + rewrite <- Hk; apply nth_error_nth'; unfold len in Hkn; lia.
    + destruct (Z.to_nat k) as [|j] eqn:E; [reflexivity|].
      destruct (Z.ltb_spec (k - 1) 0); [lia|].
      replace (Z.to_nat (k - 1)) with j in Hp by lia; assumption.
Qed.

Lemma rising_edges_sorted (flags : list bool) :
  StronglySorted Z.lt (rising_edges flags).
Proof. apply rising_edges_from_sorted. Qed.

Lemma rising_edges_bounds (flags : list bool) :
  Forall (fun k => 0 <= k < len flags) (rising_edges flags).
Proof. apply (rising_edges_from_sorted flags false 0). Qed.

End Edges.

(** ** The Timestamp Formatter *)

Lemma Qltb_lt (x y : Q) : Qltb x y = true <-> (x < y)%Q.
Proof.
  unfold Qltb; rewrite negb_true_iff, <- not_true_iff_false, Qle_bool_iff.
  split; [apply Qnot_le_lt | apply Qlt_not_le].
Qed.

Lemma Qltb_ge (x y : Q) : Qltb x y = false <-> (y <= x)%Q.
Proof.
  unfold Qltb; rewrite negb_false_iff; apply Qle_bool_iff.
Qed.

Section Rounding.

(** Rounding to the nearest integer stays below an even bound exactly when
    the number is more than a half below it. *)
Lemma round_half_even_lt (x : Q) (K : Z) :
  Z.even K = true ->
  (round_half_even x < K <-> (x < inject_Z K - (1 # 2))%Q).
Proof.
  intros HK; destruct x as [n d].
  assert (HQ : (n # d < inject_Z K - (1 # 2))%Q <-> 2 * n < (2 * K - 1) * Zpos d).
  { unfold Qlt, Qminus, Qplus, Qopp, inject_Z; cbn [Qnum Qden].
    rewrite !Pos2Z.inj_mul; lia. }
  rewrite HQ; clear HQ.
  unfold round_half_even, Qfloor; cbn [Qnum Qden].
  apply Z.even_spec in HK as (b & ->).
  pose proof (Z.div_mod n (Zpos d) ltac:(lia)) as Hn.
  pose proof (Z.mod_pos_bound n (Zpos d) ltac:(lia)) as Hr.
  set (f := n / Zpos d) in *; set (r := n mod Zpos d) in *.
  destruct (Z.compare_spec (2 * r) (Zpos d)) as [He|Hlt|Hgt].
  - destruct (Z.even f) eqn:Ef.
    + apply Z.even_spec in Ef as (a & Ha); nia.
    + assert (Ho : Z.odd f = true) by (rewrite <- Z.negb_even, Ef; reflexivity).
      apply Z.odd_spec in Ho as (a & Ha); nia.
  - nia.
  - nia.
Qed.

Lemma round_half_even_nonneg (x : Q) : (0 <= x)%Q -> 0 <= round_half_even x.
Proof.
  destruct x as [n d]; unfold round_half_even, Qfloor, Qle; cbn [Qnum Qden].
  rewrite Z.mul_1_r; intros Hn.
  pose proof (Z.div_pos n (Zpos d) Hn ltac:(lia)).
  destruct (_ ?= _); [destruct (Z.even _)| |]; lia.
Qed.

End Rounding.

Section GetTimeProps.

Lemma zfill_two_digits (n : Z) :
  0 <= n < 100 -> two_digits_of n (zfill 2 (str_of_int n)) = true.
Proof.
  intros Hn.
  assert (Hall : forallb (fun k => two_digits_of (Z.of_nat k)
                                     (zfill 2 (str_of_int (Z.of_nat k))))
                         (seq 0 100) = true) by (vm_compute; reflexivity).
  rewrite forallb_forall in Hall.
  specialize (Hall (Z.to_nat n)); rewrite Z2Nat.id in Hall by lia.
  apply Hall, in_seq; lia.
Qed.

(** Three two-digit fields and the constant tail have the shape. *)
Lemma clock_shape (a b c : string) (h m s : Z) :
  two_digits_of h a = true -> two_digits_of m b = true ->
  two_digits_of s c = true ->
  hh_mm_ss_mmm (a ++ ":" ++ b ++ ":" ++ c ++ ".001") = true.
Proof.
  unfold two_digits_of; intros Ha Hb Hc.
  destruct a as [|a1 [|a2 [|]]]; try discriminate.
  destruct b as [|b1 [|b2 [|]]]; try discriminate.
  destruct c as [|c1 [|c2 [|]]]; try discriminate.
  apply andb_prop in Ha as (Ha & _); apply andb_prop in Ha as (Ha1 & Ha2).
  apply andb_prop in Hb as (Hb & _); apply andb_prop in Hb as (Hb1 & Hb2).
  apply andb_prop in Hc as (Hc & _); apply andb_prop in Hc as (Hc1 & Hc2).
  unfold hh_mm_ss_mmm; cbn [append list_ascii_of_string forallb].
  rewrite Ha1, Ha2, Hb1, Hb2, Hc1, Hc2; reflexivity.
Qed.

Lemma GetTime_negative (x : Q) : (x < 0)%Q -> GetTime x = Ok (PyInt 0).
Proof.
  intros Hx; unfold GetTime; apply Qltb_lt in Hx; rewrite Hx; reflexivity.
Qed.

(** The microseconds [GetTime] formats, and whether they fit. *)
Lemma GetTime_nonnegative (x : Q) :
  (0 <= x)%Q ->
  let d := round_half_even (x * inject_Z us_per_second) in
  0 <= d /\
  ((x < GetTime_limit)%Q ->
   GetTime x
   = Ok (PyStr (zfill 2 (str_of_int (hour d)) ++ ":"
                ++ zfill 2 (str_of_int (minute d)) ++ ":"
                ++ zfill 2 (str_of_int (second d)) ++ ".001"))) /\
  ((GetTime_limit <= x)%Q -> GetTime x = Raise OverflowError).
Proof.
  intros Hx d.
  assert (Hd : 0 <= d).
  { apply round_half_even_nonneg.
    apply Qmult_le_0_compat; [assumption | discriminate]. }
  set (K := (max_datetime_day + 1) * us_per_day).
  assert (HK : d < K <-> (x < GetTime_limit)%Q).
  { unfold d; rewrite (round_half_even_lt _ K) by reflexivity.
    unfold GetTime_limit, Qlt, Qminus, Qplus, Qmult, Qopp, inject_Z.
    cbn [Qnum Qden]; rewrite !Pos2Z.inj_mul.
    unfold K, max_datetime_day, us_per_day, us_per_second; lia. }
  assert (Hday : d / us_per_day <= max_datetime_day <-> d < K).
  { unfold K; pose proof (Z.div_le_lower_bound d us_per_day (max_datetime_day + 1)).
    pose proof (Z.div_lt_upper_bound d us_per_day (max_datetime_day + 1)).
    unfold us_per_day, us_per_second, max_datetime_day in *; lia. }
  split; [exact Hd|].
  unfold GetTime.
  apply Qltb_ge in Hx; rewrite Hx.
  unfold timedelta; fold d.
  split; intros Hlim.
  - assert (Hfit : d / us_per_day <= max_datetime_day) by tauto.
    assert (0 <= d / us_per_day) by (apply Z.div_pos; [assumption | reflexivity]).
    destruct (Z.leb_spec (Z.abs (d / us_per_day)) 999999999) as [_|Hbig];
      [|unfold max_datetime_day in Hfit; lia].
    cbn [bind]; unfold datetime_add, datetime_1_1_1; rewrite Z.add_0_l.
    destruct (Z.leb_spec 0 d); [|lia].
    destruct (Z.leb_spec (d / us_per_day) max_datetime_day); [|lia].
    reflexivity.
  - assert (Hover : ~ d / us_per_day <= max_datetime_day).
    { intros Hfit; apply Hday, HK in Hfit.
      apply Qlt_not_le in Hfit; contradiction. }
    destruct (Z.leb_spec (Z.abs (d / us_per_day)) 999999999); [|reflexivity].
    cbn [bind]; unfold datetime_add, datetime_1_1_1; rewrite Z.add_0_l.
    destruct (Z.leb_spec 0 d); [|lia].
    destruct (Z.leb_spec (d / us_per_day) max_datetime_day); [lia|].
    reflexivity.
Qed.

Lemma clock_fields (d : Z) :
  0 <= hour d < 24 /\ 0 <= minute d < 60 /\ 0 <= second d < 60.
Proof.
  unfold hour, minute, second; repeat split;
    solve [apply Z.mod_pos_bound; reflexivity].
Qed.

End GetTimeProps.

(** C8.  A negative offset gives the number zero, not a string.  An offset
    from zero up to, and not including, [GetTime_limit] (the end of the year
    9999 counted from [datetime(1, 1, 1)]) gives a string of the shape
    [HH:MM:SS.mmm] whose three fields are the hour, minute and second of the
    offset rounded to the microsecond, each padded to two digits; an offset
    from the limit on raises [OverflowError].  [GetTime(3661.0)] is
    ["01:01:01.001"] and [GetTime(-1.0)] is zero. *)
Theorem GetTime_contract (x : Q) :
  ((x < 0)%Q -> GetTime x = Ok (PyInt 0)) /\
  ((0 <= x)%Q -> (x < GetTime_limit)%Q ->
   exists (s : string) (hh mm ss : string),
     GetTime x = Ok (PyStr s) /\
     s = (hh ++ ":" ++ mm ++ ":" ++ ss ++ ".001")%string /\
     hh_mm_ss_mmm s = true /\
     let d := round_half_even (x * inject_Z us_per_second) in
     two_digits_of (hour d) hh = true /\
     two_digits_of (minute d) mm = true /\
     two_digits_of (second d) ss = true) /\
  ((GetTime_limit <= x)%Q -> GetTime x = Raise OverflowError) /\
  GetTime 3661 = Ok (PyStr "01:01:01.001") /\
  GetTime (-1) = Ok (PyInt 0).
Proof.
  split; [apply GetTime_negative|].
  split; [|split; [|split; reflexivity]].
  - intros H0 Hlim.
    destruct (GetTime_nonnegative x H0) as (_ & Hfmt & _).
    specialize (Hfmt Hlim); cbv zeta in *.
    set (d := round_half_even (x * inject_Z us_per_second)) in *.
    destruct (clock_fields d) as (Hh & Hm & Hs).
    assert (Hh' := zfill_two_digits (hour d) ltac:(lia)).
    assert (Hm' := zfill_two_digits (minute d) ltac:(lia)).
    assert (Hs' := zfill_two_digits (second d) ltac:(lia)).
    eexists; exists (zfill 2 (str_of_int (hour d))),
               (zfill 2 (str_of_int (minute d))),
               (zfill 2 (str_of_int (second d))).
    split; [exact Hfmt|]; split; [reflexivity|]; split.
    + eapply clock_shape; eassumption.
    + auto.
  - intros Hlim.
    assert (H0 : (0 <= x)%Q).
    { eapply Qle_trans; [|exact Hlim]; discriminate. }
    destruct (GetTime_nonnegative x H0) as (_ & _ & Hraise); auto.
Qed.

(** The theorem at one hour, one minute and one second. *)
Lemma GetTime_contract_witness :
  exists (s : string) (hh mm ss : string),
    GetTime 3661 = Ok (PyStr s) /\
    s = (hh ++ ":" ++ mm ++ ":" ++ ss ++ ".001")%string /\
    hh_mm_ss_mmm s = true /\
    let d := round_half_even (3661 * inject_Z us_per_second) in
    two_digits_of (hour d) hh = true /\
    two_digits_of (minute d) mm = true /\
    two_digits_of (second d) ss = true.
Proof.
  destruct (GetTime_contract 3661) as (_ & H & _).
  apply H; [unfold Qle | unfold Qlt]; simpl; lia.
Defined.

(** A thousand billion seconds are a non-negative offset, and [GetTime]
    raises on them: the date is past the year 9999. *)
Lemma GetTime_overflow :
  (0 <= 1000000000000)%Q /\ GetTime 1000000000000 = Raise OverflowError.
Proof.
  split; [discriminate | reflexivity].
Qed.

Section Milliseconds.

(** For a non-negative offset only the whole seconds of the rounded
    microseconds reach the result. *)
Lemma GetTime_whole_seconds (x y : Q) :
  (0 <= x)%Q -> (0 <= y)%Q ->
  round_half_even (x * inject_Z us_per_second) / us_per_second
  = round_half_even (y * inject_Z us_per_second) / us_per_second ->
  GetTime x = GetTime y.
Proof.
  intros Hx Hy.
  assert (Hdx := round_half_even_nonneg (x * inject_Z us_per_second)
                   ltac:(apply Qmult_le_0_compat; [assumption | discriminate])).
  assert (Hdy := round_half_even_nonneg (y * inject_Z us_per_second)
                   ltac:(apply Qmult_le_0_compat; [assumption | discriminate])).
  unfold GetTime, timedelta, datetime_add, datetime_1_1_1, hour, minute, second.
  apply Qltb_ge in Hx, Hy; rewrite Hx, Hy.
  set (dx := round_half_even (x * inject_Z us_per_second)) in *.
  set (dy := round_half_even (y * inject_Z us_per_second)) in *.
  intros Hsec.
  assert (Hday : forall d, d / us_per_day = d / us_per_second / 86400).
  { intros d; unfold us_per_day; rewrite (Z.mul_comm 86400).
    symmetry; apply Z.div_div; [discriminate | reflexivity]. }
  rewrite !Hday, Hsec.
  destruct (Z.abs (dy / us_per_second / 86400) <=? 999999999);
    [|reflexivity].
  cbn [bind]; rewrite !Z.add_0_l, !Hday, Hsec.
  destruct (Z.leb_spec 0 dx), (Z.leb_spec 0 dy); try lia.
  destruct (dy / us_per_second / 86400 <=? max_datetime_day);
    [|reflexivity].
  cbn [andb bind]; rewrite Hsec; reflexivity.
Qed.

End Milliseconds.

(** C10.  On a non-negative offset every value [GetTime] returns is a string
    of eight characters followed by the literal [".001"], and up to
    [GetTime_limit] it does return one.  The fraction of the offset never
    shows: two offsets with the same whole seconds give the same result, and
    [GetTime(0.5)] is ["00:00:00.001"], not ["00:00:00.500"]. *)
Theorem GetTime_milliseconds_constant (x : Q) :
  (0 <= x)%Q ->
  (forall v : pyobj,
      GetTime x = Ok v ->
      exists clock : string,
        v = PyStr (clock ++ ".001") /\ String.length clock = 8%nat) /\
  ((x < GetTime_limit)%Q -> exists v : pyobj, GetTime x = Ok v) /\
  (forall y : Q,
      (0 <= y)%Q ->
      round_half_even (x * inject_Z us_per_second) / us_per_second
      = round_half_even (y * inject_Z us_per_second) / us_per_second ->
      GetTime y = GetTime x) /\
  GetTime (1 # 2) = Ok (PyStr "00:00:00.001") /\
  GetTime (1 # 2) <> Ok (PyStr "00:00:00.500").
Proof.
  intros H0.
  destruct (GetTime_nonnegative x H0) as (_ & Hfmt & Hraise); cbv zeta in *.
  set (d := round_half_even (x * inject_Z us_per_second)) in *.
  split; [|split; [|split; [|split; [reflexivity | discriminate]]]].
  - intros v Hv.
    destruct (Qlt_le_dec x GetTime_limit) as [Hlt|Hge];
      [|rewrite (Hraise Hge) in Hv; discriminate].
    rewrite (Hfmt Hlt) in Hv; injection Hv as <-.
    destruct (clock_fields d) as (Hh & Hm & Hs).
    assert (Hh' := zfill_two_digits (hour d) ltac:(lia)).
    assert (Hm' := zfill_two_digits (minute d) ltac:(lia)).
    assert (Hs' := zfill_two_digits (second d) ltac:(lia)).
    unfold two_digits_of in *.
    destruct (zfill 2 (str_of_int (hour d))) as [|a1 [|a2 [|]]]; try discriminate.
    destruct (zfill 2 (str_of_int (minute d))) as [|b1 [|b2 [|]]]; try discriminate.
    destruct (zfill 2 (str_of_int (second d))) as [|c1 [|c2 [|]]]; try discriminate.
    eexists (String a1 (String a2 (String ":" (String b1 (String b2
              (String ":" (String c1 (String c2 EmptyString)))))))).
    split; reflexivity.
  - intros Hlt; eexists; apply (Hfmt Hlt).
  - intros y Hy Hsec; apply GetTime_whole_seconds; auto.
Qed.

(** The theorem at half a second. *)
Lemma GetTime_milliseconds_constant_witness :
  exists clock : string,
    PyStr "00:00:00.001" = PyStr (clock ++ ".001")
    /\ String.length clock = 8%nat.
Proof.
  destruct (GetTime_milliseconds_constant (1 # 2)) as (H & _);
    [discriminate|].
  apply H; reflexivity.
Defined.

(** ** Segment derivation *)

Section Segments.

Lemma ranges_of_chain_from (cuts : list Z) :
  forall k : nat,
    map (fun i => (Z.of_nat (k + i), nth i cuts 0, nth (S i) cuts 0))
        (seq 0 (List.length cuts - 1))
    = chain (Z.of_nat k) cuts.
Proof.
  induction cuts as [|c rest IH]; intros k; [reflexivity|].
  destruct rest as [|c' rest']; [reflexivity|].
  replace (List.length (c :: c' :: rest') - 1)%nat
    with (S (List.length (c' :: rest') - 1)) by (simpl; lia).
  rewrite <- cons_seq, <- seq_shift, map_cons, map_map.
  change (chain (Z.of_nat k) (c :: c' :: rest'))
    with ((Z.of_nat k, c, c') :: chain (Z.of_nat k + 1) (c' :: rest')).
  replace (Z.of_nat k + 1) with (Z.of_nat (S k)) by lia.
  rewrite <- IH, Nat.add_0_r; f_equal.
  apply map_ext; intros i.
  replace (k + S i)%nat with (S k + i)%nat by lia; reflexivity.
Qed.

Lemma ranges_of_chain (cuts : list Z) : ranges_of cuts = chain 0 cuts.
Proof. exact (ranges_of_chain_from cuts 0). Qed.

Lemma chain_length (cuts : list Z) :
  forall i, List.length (chain i cuts) = (List.length cuts - 1)%nat.
Proof.
  induction cuts as [|c rest IH]; intros i; [reflexivity|].
  destruct rest as [|c' rest']; [reflexivity|].
  change (chain i (c :: c' :: rest'))
    with ((i, c, c') :: chain (i + 1) (c' :: rest')).
  cbn [List.length]; rewrite IH; simpl; lia.
Qed.

Lemma chain_nth_error (cuts : list Z) :
  forall (i : Z) (k : nat),
    (S k < List.length cuts)%nat ->
    nth_error (chain i cuts) k
    = Some (i + Z.of_nat k, nth k cuts 0, nth (S k) cuts 0).
Proof.
  induction cuts as [|c rest IH]; intros i k Hk; [simpl in Hk; lia|].
  destruct rest as [|c' rest']; [simpl in Hk; lia|].
  change (chain i (c :: c' :: rest'))
    with ((i, c, c') :: chain (i + 1) (c' :: rest')).
  destruct k as [|k]; cbn [nth_error].
  - rewrite Z.add_0_r; reflexivity.
  - rewrite IH by (simpl in *; lia).
    replace (i + 1 + Z.of_nat k) with (i + Z.of_nat (S k)) by lia.
    reflexivity.
Qed.

(** The last range of a list that ends in the sentinel. *)
Lemma chain_snoc (cuts : list Z) (s : Z) :
  forall i,
    cuts <> [] ->
    chain i (cuts ++ [s])
    = (chain i cuts
         ++ [(i + Z.of_nat (List.length cuts) - 1, last cuts 0, s)])%list.
Proof.
  induction cuts as [|c rest IH]; intros i Hne; [contradiction|].
  destruct rest as [|c' rest'].
  - simpl; rewrite Z.add_simpl_r; reflexivity.
  - change (chain i ((c :: c' :: rest') ++ [s]))
      with ((i, c, c') :: chain (i + 1) ((c' :: rest') ++ [s])).
    change (chain i (c :: c' :: rest'))
      with ((i, c, c') :: chain (i + 1) (c' :: rest')).
    rewrite IH by discriminate.
    change (last (c :: c' :: rest') 0) with (last (c' :: rest') 0).
    replace (i + 1 + Z.of_nat (List.length (c' :: rest')) - 1)
      with (i + Z.of_nat (List.length (c :: c' :: rest')) - 1)
      by (cbn [List.length]; lia).
    reflexivity.
Qed.

Lemma StronglySorted_hd_le_last (c : Z) (rest : list Z) :
  StronglySorted Z.lt (c :: rest) -> c <= last (c :: rest) 0.
Proof.
  revert c; induction rest as [|x r IH]; intros c Hs; [simpl; lia|].
  inversion Hs as [|? ? Hs' Hlt]; subst.
  change (last (c :: x :: r) 0) with (last (x :: r) 0).
  specialize (IH x Hs'); inversion Hlt; subst; lia.
Qed.

(** Ranges between sorted cuts tile the stretch from the first cut to the
    last. *)
Lemma chain_concat (samples : list Q) (cuts : list Z) :
  forall i,
    StronglySorted Z.lt cuts -> Forall (fun c => 0 <= c) cuts ->
    List.concat (map (segment_data samples) (chain i cuts))
    = py_slice samples (hd 0 cuts) (last cuts 0).
Proof.
  induction cuts as [|c rest IH]; intros i Hs Hp.
  - simpl; rewrite py_slice_diag; reflexivity.
  - inversion Hs as [|? ? Hs' Hlt]; inversion Hp as [|? ? Hc Hp']; subst.
    destruct rest as [|c' rest'].
    + simpl; rewrite py_slice_diag; reflexivity.
    + change (chain i (c :: c' :: rest'))
        with ((i, c, c') :: chain (i + 1) (c' :: rest')).
      cbn [map List.concat segment_data].
      rewrite IH by assumption.
      change (last (c :: c' :: rest') 0) with (last (c' :: rest') 0).
      cbn [hd].
      assert (Hcc' : c < c') by (inversion Hlt; assumption).
      assert (Hlast := StronglySorted_hd_le_last c' rest' Hs').
      apply py_slice_app; lia.
Qed.

Lemma segment_Ok (msl : Q) (sd : option Q) (sr : Z) (flags : list bool)
    (a : analysis) :
  segment msl sd sr flags = Ok a ->
  cut_samples a = (detected_cuts msl sd sr flags ++ [-1])%list /\
  cut_ranges a = chain 0 (cut_samples a) /\
  List.length (cut_ranges a) = List.length (detected_cuts msl sd sr flags) /\
  List.length (video_sub a) = List.length (detected_cuts msl sd sr flags).
Proof.
  unfold segment; intros H.
  apply bind_Ok in H as (vs & Hvs & H); injection H as <-; cbn.
  apply mapM_length in Hvs.
  rewrite ranges_of_chain, chain_length, Hvs, length_seq, length_app.
  simpl; repeat split; lia.
Qed.

Lemma analyse_Ok (msl thr : Q) (sd : option Q) (w : wav) (a : analysis) :
  analyse msl thr sd w = Ok a ->
  exists flags,
    classify msl thr sd w = Ok flags /\
    segment msl sd (sample_rate w) flags = Ok a.
Proof.
  unfold analyse; intros H; apply bind_Ok in H as (flags & ? & ?).
  exists flags; auto.
Qed.

Lemma rising_edges_from_silent (flags : list bool) :
  forall index,
    Forall (fun f => f = false) flags ->
    rising_edges_from false index flags = [].
Proof.
  induction flags as [|x rest IH]; intros index H; [reflexivity|].
  inversion H; subst; simpl; auto.
Qed.

End Segments.

(** ** The three recordings, run *)

Lemma recording_classify_silent : run_classify Recordings.silent = Ok (repeat false 100).
Proof. vm_compute; reflexivity. Qed.

Lemma recording_classify_one_cut :
  run_classify Recordings.one_cut = Ok (repeat false 5 ++ repeat true 5).
Proof. vm_compute; reflexivity. Qed.

Lemma recording_analyse_one_cut :
  run_analyse Recordings.one_cut
  = Ok {| cut_samples := [5; -1];
          cut_ranges := [(0, 5, -1)];
          video_sub := [("0", ("00:00:00.001", "0"))]%string |}.
Proof. vm_compute; reflexivity. Qed.

Lemma recording_classify_two_cuts :
  run_classify Recordings.two_cuts
  = Ok (repeat false 5 ++ repeat true 200 ++ repeat false 51 ++ repeat true 10).
Proof. vm_compute; reflexivity. Qed.

Lemma recording_analyse_two_cuts :
  run_analyse Recordings.two_cuts
  = Ok {| cut_samples := [5; 256; -1];
          cut_ranges := [(0, 5, 256); (1, 256, -1)];
          video_sub := [("0", ("00:00:00.001", "00:00:00.001"));
                        ("1", ("00:00:00.001", "0"))]%string |}.
Proof. vm_compute; reflexivity. Qed.

Example rising_edges_example :
  rising_edges [true; true; false; false; true; false; true] = [0; 4; 6].
Proof. reflexivity. Qed.

(** C3.  A run has as many Segments as it has detected Cut Points: the cut
    list is the Cut Points followed by the sentinel -1, and there is one
    Segment, and one manifest entry, for each entry of the cut list but the
    last. *)
Theorem segment_count (w : wav) (a : analysis) :
  run_analyse w = Ok a ->
  exists flags : list bool,
    run_classify w = Ok flags /\
    cut_samples a = (run_cuts (sample_rate w) flags ++ [-1])%list /\
    List.length (cut_ranges a) = List.length (run_cuts (sample_rate w) flags) /\
    List.length (cut_ranges a) = (List.length (cut_samples a) - 1)%nat /\
    List.length (video_sub a) = List.length (cut_ranges a).
Proof.
  intros H; apply analyse_Ok in H as (flags & Hc & Hs).
  exists flags; split; [exact Hc|].
  apply segment_Ok in Hs as (Hcs & _ & Hr & Hv).
  fold run_cuts in *; rewrite Hcs, length_app; simpl.
  repeat split; auto; lia.
Qed.

(** The theorem at the recording with two clicks. *)
Lemma segment_count_witness :
  exists flags : list bool,
    run_classify Recordings.two_cuts = Ok flags /\
    [5; 256; -1] = (run_cuts Recordings.rate flags ++ [-1])%list /\
    2%nat = List.length (run_cuts Recordings.rate flags) /\
    2%nat = (3 - 1)%nat /\
    2%nat = 2%nat.
Proof.
  exact (segment_count Recordings.two_cuts _ recording_analyse_two_cuts).
Defined.

(** One Cut Point, one Segment, not two. *)
Lemma one_cut_one_segment :
  exists (flags : list bool) (a : analysis),
    run_classify Recordings.one_cut = Ok flags /\
    run_analyse Recordings.one_cut = Ok a /\
    run_cuts Recordings.rate flags = [5] /\
    cut_ranges a = [(0, 5, -1)] /\
    List.length (cut_ranges a)
    <> (List.length (run_cuts Recordings.rate flags) + 1)%nat.
Proof.
  eexists; eexists; split; [exact recording_classify_one_cut|].
  split; [exact recording_analyse_one_cut|].
  split; [vm_compute; reflexivity|].
  split; [reflexivity | vm_compute; discriminate].
Qed.

(** The flags of [classify] are the comparisons of the windows' normalized
    energies with the threshold, one per window in window order. *)
Lemma classify_flags (msl thr : Q) (sd : option Q) (w : wav) (flags : list bool) :
  classify msl thr sd w = Ok flags ->
  exists (max_amplitude : Z) (signal_windows : list (list Q)),
    iinfo_max (samples_dtype w) = Ok max_amplitude /\
    step_size msl sd (sample_rate w) <> 0 /\
    windows (samples w) (PyInt (window_size msl (sample_rate w)))
            (PyInt (step_size msl sd (sample_rate w)))
    = Ok signal_windows /\
    flags = map (fun x => np_gt (np_div (energy x)
                                        (energy [inject_Z max_amplitude])) thr)
                signal_windows.
Proof.
  unfold classify; intros H.
  apply bind_Ok in H as (M & HM & H).
  apply bind_Ok in H as (t & Ht & H).
  apply bind_Ok in H as (ws & Hws & H).
  injection H as <-.
  exists M, ws; repeat split; auto.
  intros E; rewrite E in Ht; discriminate.
Qed.

Lemma silent_window_flag (max_amplitude : Z) (x : list Q) :
  silent_window max_amplitude x ->
  window_silence default_silence_threshold max_amplitude x = false.
Proof.
  intros (e & He & Hle); unfold window_silence; rewrite He.
  apply Qltb_ge; assumption.
Qed.

(** ** The settings of a run *)

(** C2.  Whatever is passed for [min_silence_length], [silence_threshold]
    and [step_duration], [split_audio] does the same: the files it writes,
    the manifest it dumps and the exception it ends with, if any, are those
    of its body run with 0.6, 1e-4 and 0.03/10, which it assigns before it
    reads the three arguments.  The Cut Points, the Segments and the manifest
    are those of [run_analyse], which has the recording for only argument. *)
Theorem split_audio_ignores_settings (W : world) (input_file output_file : string)
    (min_silence_length silence_threshold step_duration : pyobj)
    (min_silence_length' silence_threshold' step_duration' : pyobj) :
  split_audio W input_file output_file
              min_silence_length silence_threshold step_duration
  = split_audio W input_file output_file
                min_silence_length' silence_threshold' step_duration' /\
  split_audio W input_file output_file
              min_silence_length silence_threshold step_duration
  = split_audio_body W input_file output_file
                     0.6%Q 1e-4%Q (Some (0.03 / 10)%Q) /\
  split_audio W input_file output_file
              min_silence_length silence_threshold step_duration
  = (w <- lift (wavfile_read W input_file) ;;
     a <- lift (run_analyse w) ;;
     write_ranges W (os_path_stem W input_file) w (cut_ranges a) ;;
     output_dir <- read_output_dir W ;;
     emit (JsonDump (output_dir ++ "\" ++ os_path_stem W input_file ++ ".json")
                    (video_sub a)))%io.
Proof.
  repeat split.
Qed.

(** The body does read its settings: with another threshold the same
    recording is cut differently. *)
Lemma split_audio_body_reads_settings :
  let W := Recordings.world_of Recordings.one_cut (Some "out"%string) in
  split_audio_body W "in.wav" "out" 0.6 1e-4 (Some (0.03 / 10)%Q)
  <> split_audio_body W "in.wav" "out" 0.6 2 (Some (0.03 / 10)%Q).
Proof.
  vm_compute; discriminate.
Qed.

(** What a run leaves behind when the name [output_dir] is bound: one file
    per range, holding the slice of the range, and the manifest. *)
Lemma write_ranges_bound (W : world) (prefix dir : string) (w : wav)
    (ranges : list (Z * Z * Z)) :
  global_output_dir W = Some dir ->
  write_ranges W prefix w ranges
  = (map (fun r => WavWrite (os_path_join W dir prefix ++ "_"
                             ++ format_03d (fst (fst r)) ++ ".wav")
                            (sample_rate w)
                            (segment_data (samples w) r))
         ranges,
     Ok tt).
Proof.
  intros Hd; induction ranges as [|[[i start] stop] rest IH]; [reflexivity|].
  cbn [write_ranges]; unfold read_output_dir; rewrite Hd.
  unfold io_bind at 1, io_ret at 1; cbn [negb dry_run].
  unfold io_bind at 1, emit at 1.
  rewrite IH; reflexivity.
Qed.

(** The module never binds [output_dir]: as it stands a run that has a
    range to write ends there, and every other run ends at the manifest. *)
Lemma split_audio_unbound_output_dir (W : world) (input_file output_file : string)
    (a b c : pyobj) (w : wav) (r : analysis) :
  global_output_dir W = None ->
  wavfile_read W input_file = Ok w ->
  run_analyse w = Ok r ->
  split_audio W input_file output_file a b c
  = ([], Raise (NameError "output_dir")).
Proof.
  intros Hd Hw Hr; unfold split_audio, split_audio_body.
  rewrite Hw; unfold lift at 1, io_bind at 1.
  fold default_min_silence_length default_silence_threshold.
  change (Some (0.03 / 10)%Q) with default_step_duration.
  fold run_analyse; rewrite Hr; unfold lift at 1, io_bind at 1.
  destruct (cut_ranges r) as [|[[i s] e] rest].
  - cbn [write_ranges]; unfold io_ret, io_bind at 1.
    unfold read_output_dir; rewrite Hd; reflexivity.
  - cbn [write_ranges]; unfold read_output_dir; rewrite Hd; reflexivity.
Qed.

(** ** Coverage *)

Section Coverage.

(** With the settings of a run a step is three thousandths of the sample
    rate, and the Cut Point of window [r] is [r] times as much, both
    truncated. *)
Lemma run_step_size (sr : Z) :
  step_size default_min_silence_length default_step_duration sr
  = Z.quot (3 * sr) 1000.
Proof. reflexivity. Qed.

Lemma run_cut_sample (sr r : Z) :
  cut_sample default_min_silence_length default_step_duration sr r
  = Z.quot (r * 3 * sr) 1000.
Proof. reflexivity. Qed.

Lemma run_cut_sample_increasing (sr r r' : Z) :
  334 <= sr -> 0 <= r < r' ->
  0 <= Z.quot (r * 3 * sr) 1000 < Z.quot (r' * 3 * sr) 1000.
Proof.
  intros Hsr Hr.
  rewrite !Z.quot_div_nonneg by nia.
  pose proof (Z.div_pos (r * 3 * sr) 1000 ltac:(nia) ltac:(lia)).
  pose proof (Z.mul_div_le (r * 3 * sr) 1000 ltac:(lia)).
  pose proof (Z.mul_succ_div_gt (r * 3 * sr) 1000 ltac:(lia)).
  pose proof (Z.mul_div_le (r' * 3 * sr) 1000 ltac:(lia)).
  pose proof (Z.mul_succ_div_gt (r' * 3 * sr) 1000 ltac:(lia)).
  nia.
Qed.

(** A run that classifies at least one window has a sample rate of 334 or
    more: below it the step is zero samples long. *)
Lemma classify_rate (w : wav) (flags : list bool) :
  run_classify w = Ok flags -> flags <> [] -> 334 <= sample_rate w.
Proof.
  intros Hc Hne; apply classify_flags in Hc as (M & ws & _ & Hstep & Hws & ->).
  rewrite run_step_size in *.
  set (ss := Z.quot (3 * sample_rate w) 1000) in *.
  assert (Hpos : 0 < ss).
  { destruct (Z.lt_trichotomy ss 0) as [Hneg | [E | Hp]]; [|contradiction|exact Hp].
    exfalso; apply Hne.
    unfold windows, py_range in Hws.
    destruct (Z.eqb_spec ss 0); [contradiction|].
    cbn [bind] in Hws; injection Hws as <-.
    unfold range_len.
    destruct (Z.ltb_spec 0 ss); [lia|].
    pose proof (len_nonneg (samples w)).
    destruct (Z.ltb_spec (len (samples w)) 0); [lia|].
    reflexivity. }
  destruct (Z.lt_ge_cases (sample_rate w) 334) as [Hlow|]; [exfalso|assumption].
  destruct (Z.lt_ge_cases (sample_rate w) 0) as [Hneg|Hnn].
  - pose proof (Z.quot_pos (- (3 * sample_rate w)) 1000 ltac:(lia) ltac:(lia)).
    rewrite Z.quot_opp_l in * by lia; lia.
  - unfold ss in Hpos; rewrite Z.quot_small in Hpos; lia.
Qed.

Lemma StronglySorted_map_lt (f : Z -> Z) (l : list Z) :
  (forall x y, 0 <= x < y -> 0 <= f x < f y) ->
  StronglySorted Z.lt l -> Forall (fun x => 0 <= x) l ->
  StronglySorted Z.lt (map f l) /\ Forall (fun c => 0 <= c) (map f l).
Proof.
  intros Hf; induction 1 as [|x l Hs IH Hx]; intros Hp; simpl.
  - split; constructor.
  - inversion Hp as [|? ? Hx0 Hp']; subst.
    destruct (IH Hp') as (IHs & IHp).
    assert (Hfx : Forall (fun c => f x < c /\ 0 <= f x) (map f l)).
    { apply Forall_map; rewrite Forall_forall in *.
      intros y Hy; specialize (Hf x y ltac:(auto with zarith)).
      specialize (Hx y Hy); lia. }
    split; constructor; auto.
    + eapply Forall_impl; [|exact Hfx]; simpl; tauto.
    + destruct l as [|y l']; [|inversion Hfx; tauto].
      specialize (Hf x (x + 1) ltac:(lia)); lia.
Qed.

Lemma run_cuts_sorted (sr : Z) (flags : list bool) :
  334 <= sr ->
  StronglySorted Z.lt (run_cuts sr flags) /\
  Forall (fun c => 0 <= c) (run_cuts sr flags).
Proof.
  intros Hsr; unfold run_cuts, detected_cuts.
  apply StronglySorted_map_lt.
  - intros x y Hxy; rewrite !run_cut_sample.
    apply run_cut_sample_increasing; assumption.
  - apply rising_edges_sorted.
  - eapply Forall_impl; [|apply rising_edges_bounds]; simpl; intros; lia.
Qed.

Lemma StronglySorted_nth_le (l : list Z) :
  StronglySorted Z.lt l ->
  forall i j, (i <= j < List.length l)%nat -> nth i l 0 <= nth j l 0.
Proof.
  induction 1 as [|x l Hs IH Hx]; intros i j Hij; [simpl in Hij; lia|].
  destruct j as [|j]; [replace i with 0%nat by lia; lia|].
  destruct i as [|i]; simpl in *.
  - rewrite Forall_forall in Hx.
    specialize (Hx (nth j l 0) ltac:(apply nth_In; lia)); lia.
  - apply IH; lia.
Qed.

(** The stop -1 is the index of the last sample, which the slice leaves
    out. *)
Lemma py_slice_stop_minus_one (l : list Q) (s : Z) :
  0 <= s < len l -> py_slice l s (-1) = py_slice l s (len l - 1).
Proof.
  intros Hs; unfold py_slice, clip_index.
  destruct (Z.ltb_spec (-1) 0), (Z.ltb_spec (len l - 1) 0); try lia.
  rewrite Z.max_l, (Z.min_l (len l - 1)) by lia.
  replace (-1 + len l) with (len l - 1) by lia; reflexivity.
Qed.

(** A slice from a start inside the list is the beginning of what
    follows the start. *)
Lemma py_slice_prefix (l : list Q) (s e : Z) :
  0 <= s ->
  exists rest, skipn (Z.to_nat s) l = (py_slice l s e ++ rest)%list.
Proof.
  intros Hs; pose proof (len_nonneg l) as Hn.
  unfold py_slice;
    set (n := Z.to_nat (clip_index (len l) e - clip_index (len l) s)).
  assert (E : skipn (Z.to_nat (clip_index (len l) s)) l = skipn (Z.to_nat s) l).
  { unfold clip_index; destruct (Z.ltb_spec s 0); [lia|].
    destruct (Z.le_gt_cases s (len l)).
    - rewrite Z.min_l by lia; reflexivity.
    - rewrite Z.min_r by lia.
      rewrite !skipn_all2 by (unfold len in *; lia); reflexivity. }
  rewrite E; exists (skipn n (skipn (Z.to_nat s) l)).
  symmetry; apply firstn_skipn.
Qed.

End Coverage.

(** C1.  The Segments of a run start at its Cut Points: Segment [i] runs
    from Cut Point [i] to the next entry of the cut list.  The Cut Points
    are not negative and strictly increase, so the Segments are sorted by
    start index and a Segment ends where the next one starts: no two
    overlap.  The samples written for all Segments but the last, one after
    the other, are the buffer from the first Cut Point to the last, and with
    those of the last Segment they are a run of consecutive samples of the
    buffer that begins at the first Cut Point, none twice and none skipped.
    Samples before the first Cut Point belong to no Segment. *)
Theorem segments_tile_from_first_cut (w : wav) (a : analysis) :
  run_analyse w = Ok a ->
  exists cuts : list Z,
    cut_samples a = (cuts ++ [-1])%list /\
    List.length (cut_ranges a) = List.length cuts /\
    (forall i : nat,
        (i < List.length cuts)%nat ->
        nth_error (cut_ranges a) i
        = Some (Z.of_nat i, nth i cuts 0, nth (S i) (cuts ++ [-1]) 0)) /\
    StronglySorted Z.lt cuts /\
    Forall (fun c => 0 <= c) cuts /\
    (forall i j : nat,
        (i < j < List.length cuts)%nat ->
        nth (S i) (cuts ++ [-1]) 0 <= nth j cuts 0) /\
    List.concat (map (segment_data (samples w)) (removelast (cut_ranges a)))
    = py_slice (samples w) (hd 0 cuts) (last cuts 0) /\
    exists rest : list Q,
      skipn (Z.to_nat (hd 0 cuts)) (samples w)
      = (List.concat (map (segment_data (samples w)) (cut_ranges a)) ++ rest)%list.
Proof.
  intros H; apply analyse_Ok in H as (flags & Hc & Hs).
  apply segment_Ok in Hs as (Hcs & Hr & Hlen & _).
  fold run_classify in Hc; fold run_cuts in *.
  set (cuts := run_cuts (sample_rate w) flags) in *.
  exists cuts.
  assert (Hsorted : StronglySorted Z.lt cuts /\ Forall (fun c => 0 <= c) cuts).
  { destruct flags as [|f flags'] eqn:E; [split; constructor|].
    apply run_cuts_sorted, (classify_rate w _ Hc); discriminate. }
  destruct Hsorted as (Hsorted & Hpos).
  rewrite Hcs in Hr.
  split; [exact Hcs|]; split; [exact Hlen|]; split; [|split; [|split; [|split]]];
    try assumption.
  - intros i Hi; rewrite Hr, chain_nth_error by (rewrite length_app; simpl; lia).
    rewrite Z.add_0_l, app_nth1 by lia; reflexivity.
  - intros i j Hij; rewrite app_nth1 by lia.
    apply StronglySorted_nth_le; [assumption | lia].
  - destruct cuts as [|c0 cuts'] eqn:E.
    + rewrite Hr; simpl; split; [rewrite py_slice_diag; reflexivity|].
      exists (samples w); reflexivity.
    + assert (Hne : c0 :: cuts' <> []) by discriminate.
      rewrite Hr, chain_snoc by assumption.
      rewrite removelast_last, map_app, concat_app.
      rewrite chain_concat by assumption.
      cbn [hd map List.concat segment_data]; rewrite app_nil_r.
      split; [reflexivity|].
      assert (Hc0 : 0 <= c0) by (inversion Hpos; assumption).
      assert (Hlast := StronglySorted_hd_le_last c0 cuts' Hsorted).
      set (cl := last (c0 :: cuts') 0) in *.
      destruct (py_slice_prefix (samples w) cl (-1) ltac:(lia)) as (rest & Hrest).
      exists rest; rewrite <- app_assoc, <- Hrest.
      set (E' := Z.max (len (samples w)) cl).
      rewrite <- (py_slice_to_end (samples w) c0 E') by lia.
      rewrite <- (py_slice_to_end (samples w) cl E') by lia.
      symmetry; apply py_slice_app; lia.
Qed.

(** The theorem at the recording with two clicks. *)
Lemma segments_tile_from_first_cut_witness :
  exists cuts : list Z,
    [5; 256; -1] = (cuts ++ [-1])%list /\
    2%nat = List.length cuts /\
    (forall i : nat,
        (i < List.length cuts)%nat ->
        nth_error [(0, 5, 256); (1, 256, -1)] i
        = Some (Z.of_nat i, nth i cuts 0, nth (S i) (cuts ++ [-1]) 0)) /\
    StronglySorted Z.lt cuts /\
    Forall (fun c => 0 <= c) cuts /\
    (forall i j : nat,
        (i < j < List.length cuts)%nat ->
        nth (S i) (cuts ++ [-1]) 0 <= nth j cuts 0) /\
    List.concat (map (segment_data (samples Recordings.two_cuts))
                     (removelast [(0, 5, 256); (1, 256, -1)]))
    = py_slice (samples Recordings.two_cuts) (hd 0 cuts) (last cuts 0) /\
    exists rest : list Q,
      skipn (Z.to_nat (hd 0 cuts)) (samples Recordings.two_cuts)
      = (List.concat (map (segment_data (samples Recordings.two_cuts))
                          [(0, 5, 256); (1, 256, -1)]) ++ rest)%list.
Proof.
  exact (segments_tile_from_first_cut Recordings.two_cuts _
                                      recording_analyse_two_cuts).
Defined.

(** The Segments of the recording that is silent and then loud start at
    sample 5: the five samples before it are in no Segment, and what is
    written is not the buffer. *)
Lemma leading_samples_left_out :
  exists a : analysis,
    run_analyse Recordings.one_cut = Ok a /\
    cut_ranges a = [(0, 5, -1)] /\
    (forall i start stop, In (i, start, stop) (cut_ranges a) -> 0 < start) /\
    List.concat (map (segment_data (samples Recordings.one_cut)) (cut_ranges a))
    <> samples Recordings.one_cut.
Proof.
  eexists; split; [exact recording_analyse_one_cut|].
  split; [reflexivity|]; split.
  - intros i start stop [[= <- <- <-]|[]]; lia.
  - intros E; apply (f_equal (@List.length Q)) in E.
    vm_compute in E; discriminate.
Qed.

(** * Further properties *)

(** ** Rounding and equal rationals *)

Lemma round_half_even_comp (x y : Q) :
  (x == y)%Q -> round_half_even x = round_half_even y.
Proof.
  intros E; unfold round_half_even.
  assert (Ef : Qfloor x = Qfloor y) by (rewrite E; reflexivity).
  assert (Ec : (2 * (Qnum x mod Zpos (Qden x)) ?= Zpos (Qden x))
               = (2 * (Qnum y mod Zpos (Qden y)) ?= Zpos (Qden y))).
  { destruct x as [n d], y as [n' d']; unfold Qeq, Qfloor in *;
      cbn [Qnum Qden] in *.
    rewrite !Z.mod_eq by lia; rewrite <- Ef.
    set (f := n / Zpos d) in *.
    rewrite <- (Zcompare_mult_compat d' (2 * (n - Zpos d * f)) (Zpos d)).
    rewrite <- (Zcompare_mult_compat d (2 * (n' - Zpos d' * f)) (Zpos d')).
    f_equal; nia. }
  rewrite Ec, Ef; reflexivity.
Qed.

Lemma Qltb_comp (x y z : Q) : (x == y)%Q -> Qltb x z = Qltb y z.
Proof.
  intros E; destruct (Qltb y z) eqn:Hy.
  - apply Qltb_lt; rewrite E; apply Qltb_lt; assumption.
  - apply Qltb_ge; rewrite E; apply Qltb_ge; assumption.
Qed.


Lemma GetTotalTime_comp (x y : Q) : (x == y)%Q -> GetTotalTime x = GetTotalTime y.
Proof.
  intros E; unfold GetTotalTime, timedelta.
  rewrite (round_half_even_comp (x * inject_Z us_per_second)
                                (y * inject_Z us_per_second))
    by (rewrite E; reflexivity).
  reflexivity.
Qed.

Lemma round_half_even_add_even (x : Q) (k : Z) :
  round_half_even (x + inject_Z (2 * k)) = round_half_even x + 2 * k.
Proof.
  destruct x as [n d]; unfold round_half_even, Qfloor, Qplus, inject_Z.
  cbn [Qnum Qden]; rewrite Pos.mul_1_r, Z.mul_1_r.
  rewrite Z.div_add, Z.mod_add by lia.
  replace (Z.even (n / Zpos d + 2 * k)) with (Z.even (n / Zpos d))
    by (rewrite Z.even_add_mul_2; reflexivity).
  destruct (_ ?= _); [destruct (Z.even _)| |]; lia.
Qed.

(** ** The two formatters *)

(** The date both formatters compute: the offset rounded to the
    microsecond, if it falls in the years 1 to 9999. *)
Lemma datetime_of_offset (x : Q) :
  let d := round_half_even (x * inject_Z us_per_second) in
  (sec <- timedelta x ;; datetime_add datetime_1_1_1 sec)%py
  = if (0 <=? d) && (d <? datetime_end) then Ok d else Raise OverflowError.
Proof.
  intros d; unfold timedelta, datetime_add, datetime_1_1_1; fold d.
  assert (Hday : d / us_per_day <= max_datetime_day <-> d < datetime_end).
  { unfold datetime_end.
    pose proof (Z.div_le_lower_bound d us_per_day (max_datetime_day + 1)).
    pose proof (Z.div_lt_upper_bound d us_per_day (max_datetime_day + 1)).
    unfold us_per_day, us_per_second, max_datetime_day in *; lia. }
  assert (Hneg : d < 0 -> d / us_per_day < 0).
  { intros; apply Z.div_lt_upper_bound; [reflexivity | lia]. }
  assert (Hpos : 0 <= d -> 0 <= d / us_per_day).
  { intros; apply Z.div_pos; [assumption | reflexivity]. }
  destruct (Z.leb_spec 0 d), (Z.ltb_spec d datetime_end); cbn [andb].
  - destruct (Z.leb_spec (Z.abs (d / us_per_day)) 999999999);
      [|unfold max_datetime_day in *; lia].
    cbn [bind]; rewrite Z.add_0_l.
    destruct (Z.leb_spec 0 d), (Z.leb_spec (d / us_per_day) max_datetime_day);
      try lia; reflexivity.
  - destruct (Z.leb_spec (Z.abs (d / us_per_day)) 999999999); [|reflexivity].
    cbn [bind]; rewrite Z.add_0_l.
    destruct (Z.leb_spec 0 d), (Z.leb_spec (d / us_per_day) max_datetime_day);
      try lia; reflexivity.
  - destruct (Z.leb_spec (Z.abs (d / us_per_day)) 999999999); [|reflexivity].
    cbn [bind]; rewrite Z.add_0_l.
    destruct (Z.leb_spec 0 d); [lia | reflexivity].
  - destruct (Z.leb_spec (Z.abs (d / us_per_day)) 999999999); [|reflexivity].
    cbn [bind]; rewrite Z.add_0_l.
    destruct (Z.leb_spec 0 d); [lia | reflexivity].
Qed.

Lemma offset_in_range (x : Q) :
  let d := round_half_even (x * inject_Z us_per_second) in
  (d < 0 <-> (x < - (1 # 2000000))%Q) /\
  (d < datetime_end <-> (x < GetTime_limit)%Q).
Proof.
  intros d; unfold d; split.
  - rewrite (round_half_even_lt _ 0) by reflexivity.
    unfold Qlt, Qminus, Qplus, Qmult, Qopp, inject_Z, us_per_second.
    cbn [Qnum Qden]; rewrite ?Pos2Z.inj_mul; lia.
  - rewrite (round_half_even_lt _ datetime_end) by reflexivity.
    unfold GetTime_limit, Qlt, Qminus, Qplus, Qmult, Qopp, inject_Z.
    cbn [Qnum Qden]; rewrite !Pos2Z.inj_mul.
    unfold datetime_end, max_datetime_day, us_per_day, us_per_second; lia.
Qed.

Lemma GetTotalTime_of_date (x : Q) :
  GetTotalTime x
  = (d <- (sec <- timedelta x ;; datetime_add datetime_1_1_1 sec) ;;
     Ok (str_of_int (hour d) ++ ":" ++ str_of_int (minute d) ++ ":"
         ++ str_of_int (second d))%string)%py.
Proof.
  unfold GetTotalTime; destruct (timedelta x); reflexivity.
Qed.

Lemma GetTotalTime_of_range (x : Q) :
  (- (1 # 2000000) <= x)%Q -> (x < GetTime_limit)%Q ->
  GetTotalTime x
  = Ok (let d := round_half_even (x * inject_Z us_per_second) in
        str_of_int (hour d) ++ ":" ++ str_of_int (minute d) ++ ":"
        ++ str_of_int (second d))%string.
Proof.
  intros Hlo Hhi; cbv zeta.
  set (d := round_half_even (x * inject_Z us_per_second)).
  pose proof (offset_in_range x) as (Hneg & Hend); fold d in Hneg, Hend.
  pose proof (datetime_of_offset x) as Hd; cbv zeta in Hd; fold d in Hd.
  rewrite GetTotalTime_of_date, Hd.
  destruct (Z.leb_spec 0 d) as [|Hlt];
    [|apply Hneg, Qlt_not_le in Hlt; contradiction].
  destruct (Z.ltb_spec d datetime_end) as [|Hge]; [reflexivity|].
  apply Hend in Hhi; lia.
Qed.

(** X1.  [GetTotalTime] has no guard for a negative offset: from half a
    microsecond below zero up to [GetTime_limit] it returns the hour, minute
    and second of the rounded offset, joined by colons and not padded; below
    that range, where [GetTime] returns zero, and from the limit on it raises
    [OverflowError]. *)
Theorem GetTotalTime_contract (x : Q) :
  let d := round_half_even (x * inject_Z us_per_second) in
  ((- (1 # 2000000) <= x)%Q -> (x < GetTime_limit)%Q ->
   GetTotalTime x
   = Ok (str_of_int (hour d) ++ ":" ++ str_of_int (minute d) ++ ":"
         ++ str_of_int (second d))%string) /\
  ((x < - (1 # 2000000))%Q ->
   GetTotalTime x = Raise OverflowError /\ GetTime x = Ok (PyInt 0)) /\
  ((GetTime_limit <= x)%Q -> GetTotalTime x = Raise OverflowError).
Proof.
  intros d; pose proof (offset_in_range x) as (Hneg & Hend); fold d in Hneg, Hend.
  pose proof (datetime_of_offset x) as Hd; cbv zeta in Hd; fold d in Hd.
  rewrite GetTotalTime_of_date, Hd.
  split; [|split].
  - intros Hlo Hhi.
    destruct (Z.leb_spec 0 d) as [|Hlt];
      [|apply Hneg, Qlt_not_le in Hlt; contradiction].
    destruct (Z.ltb_spec d datetime_end) as [|Hge]; [reflexivity|].
    apply Hend in Hhi; lia.
  - intros Hlo; split.
    + apply Hneg in Hlo.
      destruct (Z.leb_spec 0 d); [lia | reflexivity].
    + apply GetTime_negative.
      eapply Qlt_trans; [exact Hlo | reflexivity].
  - intros Hhi.
    destruct (Z.ltb_spec d datetime_end) as [Hlt|];
      [apply Hend, Qlt_not_le in Hlt; contradiction|].
    rewrite andb_false_r; reflexivity.
Qed.

(** The theorem at an hour and a quarter, and at one second before zero. *)
Lemma GetTotalTime_contract_witness :
  GetTotalTime 4500 = Ok "1:15:0"%string /\
  GetTotalTime (-1) = Raise OverflowError /\ GetTime (-1) = Ok (PyInt 0).
Proof.
  split.
  - apply (GetTotalTime_contract 4500); [discriminate | reflexivity].
  - apply (GetTotalTime_contract (-1)); reflexivity.
Defined.

Lemma clock_fields_add_days (d n : Z) :
  hour (d + n * us_per_day) = hour d /\
  minute (d + n * us_per_day) = minute d /\
  second (d + n * us_per_day) = second d.
Proof.
  unfold hour, minute, second, us_per_day.
  replace (d + n * (86400 * us_per_second))
    with (d + (n * 86400) * us_per_second) by ring.
  rewrite Z.div_add by discriminate.
  set (s := d / us_per_second).
  repeat split.
  - replace (s + n * 86400) with (s + (n * 24) * 3600) by ring.
    rewrite Z.div_add by discriminate; apply Z.mod_add; discriminate.
  - replace (s + n * 86400) with (s + (n * 1440) * 60) by ring.
    rewrite Z.div_add by discriminate.
    replace (n * 1440) with ((n * 24) * 60) by ring.
    apply Z.mod_add; discriminate.
  - replace (s + n * 86400) with (s + (n * 1440) * 60) by ring.
    apply Z.mod_add; discriminate.
Qed.

(** X2.  Both formatters drop whole days: an offset that is not negative and
    the same offset [n] days later, while it is below [GetTime_limit], give
    the same string.  A recording longer than a day gets the timestamps of
    its first day again. *)
Theorem formatters_drop_days (x : Q) (n : Z) :
  (0 <= x)%Q -> 0 <= n ->
  (x + inject_Z (86400 * n) < GetTime_limit)%Q ->
  GetTime (x + inject_Z (86400 * n)) = GetTime x /\
  GetTotalTime (x + inject_Z (86400 * n)) = GetTotalTime x.
Proof.
  intros Hx Hn Hlim.
  set (y := (x + inject_Z (86400 * n))%Q) in *.
  assert (Hxy : (x <= y)%Q).
  { unfold y; rewrite <- (Qplus_0_r x) at 1.
    apply Qplus_le_r; unfold Qle, inject_Z; cbn [Qnum Qden]; lia. }
  assert (Hy : (0 <= y)%Q) by (eapply Qle_trans; eassumption).
  assert (Hxlim : (x < GetTime_limit)%Q) by (eapply Qle_lt_trans; eassumption).
  set (dx := round_half_even (x * inject_Z us_per_second)).
  set (dy := round_half_even (y * inject_Z us_per_second)).
  assert (Hd : dy = dx + n * us_per_day).
  { unfold dy, dx.
    rewrite (round_half_even_comp _
               (x * inject_Z us_per_second
                + inject_Z (2 * (43200 * n * us_per_second)))).
    - rewrite round_half_even_add_even; unfold us_per_day; ring.
    - unfold y; rewrite Qmult_plus_distr_l, <- inject_Z_mult.
      apply Qplus_comp; [reflexivity|].
      unfold Qeq, inject_Z, us_per_second; cbn [Qnum Qden]; ring. }
  destruct (clock_fields_add_days dx n) as (Hh & Hm & Hs).
  split.
  - destruct (GetTime_nonnegative x Hx) as (_ & Hfx & _).
    destruct (GetTime_nonnegative y Hy) as (_ & Hfy & _).
    rewrite (Hfx Hxlim), (Hfy Hlim); cbv zeta; fold dx dy.
    rewrite Hd, Hh, Hm, Hs; reflexivity.
  - assert (Hlo : forall z : Q, (0 <= z)%Q -> (- (1 # 2000000) <= z)%Q).
    { intros z Hz; eapply Qle_trans; [|exact Hz]; discriminate. }
    rewrite (GetTotalTime_of_range x (Hlo x Hx) Hxlim).
    rewrite (GetTotalTime_of_range y (Hlo y Hy) Hlim).
    cbv zeta; fold dx dy; rewrite Hd, Hh, Hm, Hs; reflexivity.
Qed.

(** The theorem at a quarter past one, two days later. *)
Lemma formatters_drop_days_witness :
  GetTime (4500 + inject_Z (86400 * 2)) = GetTime 4500 /\
  GetTotalTime (4500 + inject_Z (86400 * 2)) = GetTotalTime 4500.
Proof.
  apply (formatters_drop_days 4500 2); [discriminate | lia | reflexivity].
Defined.

(** ** More on the Edge Detector *)

Lemma rising_edges_from_count (flags : list bool) :
  forall (previous : bool) (index : Z),
    (2 * List.length (rising_edges_from previous index flags)
     <= List.length flags + (if previous then 0 else 1))%nat.
Proof.
  induction flags as [|x rest IH]; intros previous index; simpl.
  - destruct previous; lia.
  - specialize (IH x (index + 1)).
    rewrite length_app.
    destruct x, previous; simpl in *; lia.
Qed.

(** X3.  Two rising edges are never next to each other, so a signal of [n]
    flags has at most [(n + 1) / 2] of them, and a run derives at most that
    many Segments from [n] windows. *)
Theorem rising_edges_spaced (flags : list bool) :
  (forall k : Z, In k (rising_edges flags) -> ~ In (k + 1) (rising_edges flags)) /\
  (2 * List.length (rising_edges flags) <= List.length flags + 1)%nat /\
  (forall (msl : Q) (sd : option Q) (sr : Z) (a : analysis),
      segment msl sd sr flags = Ok a ->
      (2 * List.length (cut_ranges a) <= List.length flags + 1)%nat).
Proof.
  split; [|split].
  - intros k Hk Hk1.
    apply rising_edges_In in Hk as (_ & Hset & _).
    apply rising_edges_In in Hk1 as (_ & _ & Hprev).
    replace (k + 1 - 1) with k in Hprev by lia; congruence.
  - apply (rising_edges_from_count flags false 0).
  - intros msl sd sr a Ha; apply segment_Ok in Ha as (_ & _ & -> & _).
    unfold detected_cuts; rewrite length_map.
    apply (rising_edges_from_count flags false 0).
Qed.

(** The theorem at the flags of a recording with two clicks. *)
Lemma rising_edges_spaced_witness :
  ~ In (4 + 1) (rising_edges [true; true; false; false; true; false; true]).
Proof.
  apply (rising_edges_spaced [true; true; false; false; true; false; true]).
  vm_compute; tauto.
Defined.

Lemma last_cons_default {A : Type} (l : list A) :
  forall x d : A, last (x :: l) d = last l x.
Proof.
  induction l as [|y l IH]; intros x d; [reflexivity|].
  change (last (x :: y :: l) d) with (last (y :: l) d).
  rewrite (IH y d), (IH y x); reflexivity.
Qed.

Lemma rising_edges_from_app (a b : list bool) :
  forall (previous : bool) (index : Z),
    rising_edges_from previous index (a ++ b)
    = (rising_edges_from previous index a
         ++ rising_edges_from (last a previous) (index + len a) b)%list.
Proof.
  induction a as [|x a IH]; intros previous index.
  - simpl; unfold len; simpl; rewrite Z.add_0_r; reflexivity.
  - change ((x :: a) ++ b)%list with (x :: (a ++ b))%list.
    cbn [rising_edges_from]; rewrite IH, <- app_assoc.
    replace (index + 1 + len a) with (index + len (x :: a))
      by (unfold len; simpl List.length; lia).
    rewrite last_cons_default; reflexivity.
Qed.

Lemma rising_edges_from_shift (flags : list bool) :
  forall (previous : bool) (index : Z),
    rising_edges_from previous index flags
    = map (fun k => index + k) (rising_edges_from previous 0 flags).
Proof.
  induction flags as [|x rest IH]; intros previous index; [reflexivity|].
  cbn [rising_edges_from]; rewrite map_app.
  rewrite (IH x (index + 1)), (IH x (0 + 1)), map_map.
  f_equal.
  - destruct (x && negb previous); simpl; [rewrite Z.add_0_r|]; reflexivity.
  - apply map_ext; intros k; lia.
Qed.

(** X5.  The edges of a signal cut in two are the edges of the first part,
    then those of the second part moved by the length of the first; when
    the first part ends on a set flag and the second begins with one, that
    flag of the second part is no edge of the whole. *)
Theorem rising_edges_app (a b : list bool) :
  rising_edges (a ++ b)
  = (rising_edges a
       ++ map (fun k => len a + k)
              (if last a false && hd false b
               then tl (rising_edges b)
               else rising_edges b))%list.
Proof.
  unfold rising_edges at 1 2.
  rewrite rising_edges_from_app, Z.add_0_l; f_equal.
  rewrite rising_edges_from_shift; f_equal.
  destruct (last a false); [|reflexivity].
  destruct b as [|[|] b]; reflexivity.
Qed.

(** ** More on the Windower *)

(** X6.  For positive sizes [windows] yields as many windows as there are
    starts [0, step_size, 2 * step_size, ...] strictly below
    [len(signal) - window_size]: none for a signal of at most [window_size]
    samples, and one more than the quotient of
    [len(signal) - window_size - 1] by [step_size] otherwise. *)
Theorem windows_count {A : Type} (signal : list A) (window_size step_size : Z) :
  0 < window_size -> 0 < step_size ->
  exists ws : list (list A),
    windows signal (PyInt window_size) (PyInt step_size) = Ok ws /\
    Z.of_nat (List.length ws)
    = if len signal <=? window_size then 0
      else (len signal - window_size - 1) / step_size + 1.
Proof.
  intros Hws Hss; unfold windows, py_range.
  destruct (Z.eqb_spec step_size 0) as [|_]; [lia|]; cbn [bind].
  set (start_of := fun k : nat => 0 + Z.of_nat k * step_size).
  set (m := Z.to_nat (range_len 0 (len signal) step_size)).
  set (l := windows_loop signal window_size (map start_of (seq 0 m))).
  exists l; split; [reflexivity|].
  pose proof (len_nonneg signal) as Hn.
  set (count := if len signal <=? window_size then 0
                else (len signal - window_size - 1) / step_size + 1).
  assert (Hcount : forall i : nat,
             Z.of_nat i * step_size + window_size < len signal
             <-> Z.of_nat i < count).
  { intros i; unfold count.
    destruct (Z.leb_spec (len signal) window_size) as [Hshort|Hlong].
    - split; intros; nia.
    - pose proof (range_len_positive_step (len signal - window_size) step_size
                    Hss ltac:(lia) (Z.of_nat i) ltac:(lia)) as Hr.
      unfold range_len in Hr.
      destruct (Z.ltb_spec 0 step_size); [|lia].
      destruct (Z.ltb_spec 0 (len signal - window_size)); [|lia].
      rewrite Z.sub_0_r in Hr.
      rewrite <- Hr; lia. }
  assert (Hin : forall i : nat, (i < List.length l)%nat <-> Z.of_nat i < count).
  { intros i; rewrite <- Hcount; split.
    - intros Hi; destruct (nth_error l i) as [w|] eqn:E;
        [|apply nth_error_None in E; lia].
      apply (windows_loop_nth_error signal window_size start_of) in E
        as (_ & Hend & _).
      unfold start_of in Hend; simpl in Hend; lia.
    - intros Hi; apply (windows_loop_complete signal window_size start_of).
      + pose proof (range_len_positive_step (len signal) step_size Hss Hn
                      (Z.of_nat i) ltac:(lia)) as [Hlt _].
        subst m; lia.
      + intros j Hj; unfold start_of; simpl; nia. }
  assert (Hc0 : 0 <= count).
  { unfold count; destruct (Z.leb_spec (len signal) window_size); [lia|].
    pose proof (Z.div_pos (len signal - window_size - 1) step_size
                  ltac:(lia) Hss); lia. }
  pose proof (proj2 (Hin (List.length l))) as H1.
  pose proof (proj1 (Hin (Z.to_nat count))) as H2.
  rewrite Z2Nat.id in H2 by assumption.
  lia.
Qed.

(** The theorem at ten samples, windows of three, steps of two. *)
Lemma windows_count_witness :
  exists ws : list (list Z),
    windows [10; 11; 12; 13; 14; 15; 16; 17; 18; 19] (PyInt 3) (PyInt 2) = Ok ws /\
    Z.of_nat (List.length ws)
    = if len [10; 11; 12; 13; 14; 15; 16; 17; 18; 19] <=? 3 then 0
      else (len [10; 11; 12; 13; 14; 15; 16; 17; 18; 19] - 3 - 1) / 2 + 1.
Proof.
  apply (windows_count [10; 11; 12; 13; 14; 15; 16; 17; 18; 19] 3 2); lia.
Defined.

(** A signal no longer than the window yields no window, whatever the
    step. *)
Lemma windows_short {A : Type} (signal : list A) (ws ss : Z) (l : list (list A)) :
  len signal <= ws ->
  windows signal (PyInt ws) (PyInt ss) = Ok l -> l = [].
Proof.
  intros Hshort; unfold windows, py_range.
  destruct (ss =? 0); [discriminate|]; cbn [bind]; intros [= <-].
  destruct (Z.to_nat (range_len 0 (len signal) ss)) as [|m]; [reflexivity|].
  cbn [seq map windows_loop].
  change (Z.of_nat 0 * ss + ws) with ws.
  destruct (Z.geb_spec ws (len signal)); [reflexivity | lia].
Qed.

(** X7.  A recording of at most [int(0.6 * sample_rate)] samples is too
    short for a window: whatever its samples, a run that classifies it finds
    no window, no Cut Point and no Segment, and its manifest is empty. *)
Theorem short_recording (w : wav) (flags : list bool) :
  run_classify w = Ok flags ->
  len (samples w) <= window_size default_min_silence_length (sample_rate w) ->
  flags = [] /\
  run_analyse w
  = Ok {| cut_samples := [-1]; cut_ranges := []; video_sub := [] |}.
Proof.
  intros Hc Hshort.
  assert (Hflags : flags = []).
  { pose proof Hc as Hc'.
    apply classify_flags in Hc' as (M & ws & _ & _ & Hws & ->).
    apply windows_short in Hws; [subst ws; reflexivity | assumption]. }
  split; [exact Hflags|].
  unfold run_analyse, analyse; fold run_classify; rewrite Hc, Hflags.
  reflexivity.
Qed.

(** The theorem at two hundred samples of full scale. *)
Lemma short_recording_witness :
  @nil bool = [] /\
  run_analyse short_loud_recording
  = Ok {| cut_samples := [-1]; cut_ranges := []; video_sub := [] |}.
Proof.
  apply (short_recording short_loud_recording []);
    [vm_compute; reflexivity | vm_compute; discriminate].
Defined.

(** ** More on the Energy Classifier *)

Lemma Qsquare_nonneg (x : Q) : (0 <= x ^ 2)%Q.
Proof.
  destruct x as [n d]; unfold Qle, Qpower, Qpower_positive, Qmult.
  cbn [Qnum Qden pow_pos Pos.iter_op]; nia.
Qed.

Lemma Qsquare_le (x m : Q) : (- m <= x)%Q -> (x <= m)%Q -> (x ^ 2 <= m ^ 2)%Q.
Proof.
  intros Hlo Hhi.
  assert (Hd : (0 <= (m - x) * (m + x))%Q).
  { apply Qmult_le_0_compat.
    - rewrite <- (Qplus_opp_r x); apply Qplus_le_l; assumption.
    - setoid_replace 0%Q with (- m + m)%Q by ring.
      setoid_replace (m + x)%Q with (x + m)%Q by ring.
      apply Qplus_le_l; assumption. }
  apply (Qplus_le_l _ _ (- x ^ 2)).
  setoid_replace (x ^ 2 + - x ^ 2)%Q with 0%Q by ring.
  setoid_replace (m ^ 2 + - x ^ 2)%Q with ((m - x) * (m + x))%Q by ring.
  assumption.
Qed.

Lemma np_sum_squares_nonneg (samples : list Q) :
  (0 <= np_sum (np_power samples 2))%Q.
Proof.
  induction samples as [|x l IH]; [discriminate|].
  change (np_sum (np_power (x :: l) 2))
    with (x ^ 2 + np_sum (np_power l 2))%Q.
  rewrite <- (Qplus_0_r 0); apply Qplus_le_compat;
    [apply Qsquare_nonneg | assumption].
Qed.

Lemma np_sum_squares_le (samples : list Q) (m : Q) :
  Forall (fun x => - m <= x /\ x <= m)%Q samples ->
  (np_sum (np_power samples 2) <= inject_Z (len samples) * m ^ 2)%Q.
Proof.
  induction 1 as [|x l (Hlo & Hhi) _ IH].
  - unfold Qle; simpl; lia.
  - change (np_sum (np_power (x :: l) 2))
      with (x ^ 2 + np_sum (np_power l 2))%Q.
    setoid_replace (inject_Z (len (x :: l)) * m ^ 2)%Q
      with (m ^ 2 + inject_Z (len l) * m ^ 2)%Q.
    + apply Qplus_le_compat; [apply Qsquare_le|]; assumption.
    + unfold len; simpl List.length.
      rewrite Nat2Z.inj_succ; unfold Z.succ.
      rewrite inject_Z_plus; ring.
Qed.

(** ** How a run can fail *)

Lemma run_step_size_zero (sr : Z) :
  step_size default_min_silence_length default_step_duration sr = 0
  <-> -334 < sr < 334.
Proof.
  rewrite run_step_size; split.
  - intros E.
    destruct (Z.le_gt_cases 334 sr) as [Hhi|Hhi].
    + pose proof (Z.quot_le_lower_bound (3 * sr) 1000 1 ltac:(lia) ltac:(lia)); lia.
    + destruct (Z.le_gt_cases sr (-334)) as [Hlo|Hlo]; [|lia].
      pose proof (Z.quot_le_lower_bound (- (3 * sr)) 1000 1 ltac:(lia) ltac:(lia)).
      rewrite Z.quot_opp_l in * by lia; lia.
  - intros Hsr; destruct (Z.le_gt_cases 0 sr).
    + apply Z.quot_small; lia.
    + apply Z.opp_inj; rewrite <- Z.quot_opp_l by lia.
      apply Z.quot_small; lia.
Qed.

Lemma windows_nonzero_step {A : Type} (signal : list A) (ws ss : Z) :
  ss <> 0 -> exists l, windows signal (PyInt ws) (PyInt ss) = Ok l.
Proof.
  intros Hss; unfold windows, py_range.
  destruct (Z.eqb_spec ss 0); [contradiction|].
  eexists; reflexivity.
Qed.

(** X9.  The analysis of a run fails before it looks at a sample in two
    cases: on floating-point samples [np.iinfo] raises [ValueError], and on
    integer samples with a sample rate below 334 the step is zero samples
    long and the division of line 161 raises [ZeroDivisionError].  On
    integer samples at 334 samples a second or more every window gets its
    flag. *)
Theorem run_classify_failures (w : wav) :
  match iinfo_max (samples_dtype w) with
  | Raise _ =>
      (samples_dtype w = float32 \/ samples_dtype w = float64) /\
      run_classify w = Raise ValueError /\
      run_analyse w = Raise ValueError
  | Ok max_amplitude =>
      if (-334 <? sample_rate w) && (sample_rate w <? 334)
      then run_classify w = Raise ZeroDivisionError /\
           run_analyse w = Raise ZeroDivisionError
      else exists signal_windows : list (list Q),
          windows (samples w)
                  (PyInt (window_size default_min_silence_length (sample_rate w)))
                  (PyInt (step_size default_min_silence_length
                                    default_step_duration (sample_rate w)))
          = Ok signal_windows /\
          run_classify w
          = Ok (map (window_silence default_silence_threshold max_amplitude)
                    signal_windows)
  end.
Proof.
  unfold run_analyse, analyse; fold run_classify.
  unfold run_classify, classify.
  destruct (iinfo_max (samples_dtype w)) as [M|e] eqn:EM.
  - cbn [bind].
    pose proof (run_step_size_zero (sample_rate w)) as Hz.
    set (ss := step_size default_min_silence_length default_step_duration
                         (sample_rate w)) in *.
    unfold py_truediv.
    destruct ((-334 <? sample_rate w) && (sample_rate w <? 334)) eqn:Esr.
    + apply andb_prop in Esr as (H1 & H2).
      apply Z.ltb_lt in H1, H2.
      rewrite (proj2 Hz (conj H1 H2)); split; reflexivity.
    + assert (Hss : ss <> 0).
      { intros E; apply Hz in E as (H1 & H2).
        apply Z.ltb_lt in H1, H2; rewrite H1, H2 in Esr; discriminate. }
      destruct (Qeq_bool (inject_Z ss) 0) eqn:E.
      { apply Qeq_bool_eq in E; unfold Qeq in E; simpl in E; lia. }
      cbn [bind].
      destruct (windows_nonzero_step (samples w)
                  (window_size default_min_silence_length (sample_rate w))
                  ss Hss) as (l & Hl).
      exists l; rewrite Hl; split; reflexivity.
  - destruct (samples_dtype w); try discriminate; injection EM as <-;
      repeat split; auto.
Qed.

(** ** The manifest *)

Lemma mapM_nth_error {A B : Type} (f : A -> result B) (l : list A) :
  forall (bs : list B) (i : nat) (x : A),
    mapM f l = Ok bs -> nth_error l i = Some x ->
    exists b, nth_error bs i = Some b /\ f x = Ok b.
Proof.
  induction l as [|a l IH]; intros bs i x H Hx; [destruct i; discriminate|].
  simpl in H; apply bind_Ok in H as (b & Hb & H).
  apply bind_Ok in H as (bs' & Hbs & H); injection H as <-.
  destruct i as [|i]; simpl in *.
  - injection Hx as <-; exists b; auto.
  - eapply IH; eassumption.
Qed.

Lemma mapM_Ok {A B : Type} (f : A -> result B) (l : list A) :
  (forall x, In x l -> exists b, f x = Ok b) -> exists bs, mapM f l = Ok bs.
Proof.
  induction l as [|a l IH]; intros H; [exists []; reflexivity|].
  destruct (H a (or_introl eq_refl)) as (b & Hb).
  destruct IH as (bs & Hbs); [intros x Hx; apply H; right; assumption|].
  exists (b :: bs); simpl; rewrite Hb; cbn [bind]; rewrite Hbs; reflexivity.
Qed.

Lemma manifest_entry_timestamps (sr : Z) (cs : list Z) (i : nat) :
  manifest_entry sr cs i
  = (t0 <- timestamp sr (nth i cs 0) ;;
     t1 <- timestamp sr (nth (S i) cs 0) ;;
     Ok (str_of_int (Z.of_nat i), (t0, t1)))%py.
Proof.
  unfold manifest_entry, timestamp.
  destruct (py_truediv (inject_Z (nth i cs 0)) (inject_Z sr)) as [q0|];
    [|reflexivity]; cbn [bind].
  destruct (GetTime q0); [|reflexivity]; cbn [bind].
  destruct (py_truediv (inject_Z (nth (S i) cs 0)) (inject_Z sr)) as [q1|];
    [|reflexivity]; cbn [bind].
  destruct (GetTime q1); reflexivity.
Qed.

Lemma py_truediv_positive (c sr : Z) :
  0 < sr ->
  py_truediv (inject_Z c) (inject_Z sr) = Ok (inject_Z c / inject_Z sr)%Q.
Proof.
  intros Hsr; unfold py_truediv.
  destruct (Qeq_bool (inject_Z sr) 0) eqn:E; [|reflexivity].
  apply Qeq_bool_eq in E; unfold Qeq in E; simpl in E; lia.
Qed.

Lemma Qdiv_Z_sign (c sr : Z) :
  0 < sr ->
  (c < 0 -> (inject_Z c / inject_Z sr < 0)%Q) /\
  (0 <= c -> (0 <= inject_Z c / inject_Z sr)%Q) /\
  (forall k : Z, c < k * sr -> (inject_Z c / inject_Z sr < inject_Z k)%Q).
Proof.
  intros Hsr.
  assert (Hq : (0 < inject_Z sr)%Q) by (unfold Qlt; simpl; lia).
  repeat split.
  - intros Hc; apply Qlt_shift_div_r; [assumption|].
    rewrite Qmult_0_l; unfold Qlt; simpl; lia.
  - intros Hc; apply Qle_shift_div_l; [assumption|].
    rewrite Qmult_0_l; unfold Qle; simpl; lia.
  - intros k Hk; apply Qlt_shift_div_r; [assumption|].
    rewrite <- inject_Z_mult; unfold Qlt, inject_Z; cbn [Qnum Qden]; lia.
Qed.

(** The sentinel of the cut list reads as the string ["0"]. *)
Lemma timestamp_sentinel (sr : Z) :
  0 < sr -> timestamp sr (-1) = Ok "0"%string.
Proof.
  intros Hsr; unfold timestamp.
  rewrite py_truediv_positive by assumption; cbn [bind].
  rewrite GetTime_negative; [reflexivity|].
  apply (Qdiv_Z_sign (-1) sr Hsr); lia.
Qed.

(** What [GetTime] returns on an offset that is not negative is a string of
    the shape [HH:MM:SS.mmm]. *)
Lemma GetTime_returns_clock (x : Q) (v : pyobj) :
  (0 <= x)%Q -> GetTime x = Ok v ->
  exists s : string, v = PyStr s /\ hh_mm_ss_mmm s = true.
Proof.
  intros Hx Hv.
  destruct (GetTime_nonnegative x Hx) as (_ & Hfmt & Hraise).
  destruct (Qlt_le_dec x GetTime_limit) as [Hlt|Hge];
    [|rewrite (Hraise Hge) in Hv; discriminate].
  rewrite (Hfmt Hlt) in Hv; injection Hv as <-.
  eexists; split; [reflexivity|].
  set (d := round_half_even (x * inject_Z us_per_second)).
  destruct (clock_fields d) as (Hh & Hm & Hs).
  eapply clock_shape; apply zfill_two_digits; lia.
Qed.

(** A cut that is not negative and falls before the year 10000 has a
    timestamp. *)
Lemma timestamp_cut (sr c : Z) :
  0 < sr -> 0 <= c -> c < 315537897599 * sr ->
  exists s : string, timestamp sr c = Ok s /\ hh_mm_ss_mmm s = true.
Proof.
  intros Hsr Hc Hlim; unfold timestamp.
  rewrite py_truediv_positive by assumption; cbn [bind].
  destruct (Qdiv_Z_sign c sr Hsr) as (_ & Hnn & Hlt).
  specialize (Hnn Hc); specialize (Hlt _ Hlim).
  destruct (GetTime_nonnegative _ Hnn) as (_ & Hfmt & _).
  assert (Hin : (inject_Z c / inject_Z sr < GetTime_limit)%Q).
  { eapply Qlt_trans; [exact Hlt | reflexivity]. }
  pose proof (Hfmt Hin) as Hg.
  destruct (GetTime_returns_clock _ _ Hnn Hg) as (s & Hs & Hshape).
  rewrite Hg; cbn [bind]; rewrite Hs; exists s; auto.
Qed.

Lemma windows_loop_length {A : Type} (signal : list A) (ws : Z) (starts : list Z) :
  (List.length (windows_loop signal ws starts) <= List.length starts)%nat.
Proof.
  induction starts as [|i rest IH]; simpl; [lia|].
  destruct (_ >=? _); simpl; lia.
Qed.

(** On integer samples at 334 samples a second or more every window is
    classified, and there are no more windows than samples. *)
Lemma run_classify_Ok (w : wav) (max_amplitude : Z) :
  iinfo_max (samples_dtype w) = Ok max_amplitude ->
  334 <= sample_rate w ->
  exists signal_windows : list (list Q),
    windows (samples w)
            (PyInt (window_size default_min_silence_length (sample_rate w)))
            (PyInt (step_size default_min_silence_length default_step_duration
                              (sample_rate w)))
    = Ok signal_windows /\
    run_classify w
    = Ok (map (window_silence default_silence_threshold max_amplitude)
              signal_windows) /\
    (List.length signal_windows <= List.length (samples w))%nat.
Proof.
  intros HM Hsr.
  assert (Hss : 0 < step_size default_min_silence_length default_step_duration
                          (sample_rate w)).
  { rewrite run_step_size.
    pose proof (Z.quot_le_lower_bound (3 * sample_rate w) 1000 1
                  ltac:(lia) ltac:(lia)); lia. }
  set (ss := step_size default_min_silence_length default_step_duration
                       (sample_rate w)) in *.
  destruct (windows_nonzero_step (samples w)
              (window_size default_min_silence_length (sample_rate w)) ss
              ltac:(lia)) as (l & Hl).
  exists l; split; [exact Hl|]; split.
  - unfold run_classify, classify; rewrite HM; cbn [bind]; fold ss.
    unfold py_truediv.
    destruct (Qeq_bool (inject_Z ss) 0) eqn:E.
    { apply Qeq_bool_eq in E; unfold Qeq in E; simpl in E; lia. }
    cbn [bind]; rewrite Hl; reflexivity.
  - unfold windows, py_range in Hl.
    destruct (Z.eqb_spec ss 0); [lia|]; cbn [bind] in Hl; injection Hl as <-.
    etransitivity; [apply windows_loop_length|].
    rewrite length_map, length_seq.
    pose proof (len_nonneg (samples w)) as Hn.
    assert (range_len 0 (len (samples w)) ss <= len (samples w)).
    { unfold range_len.
      destruct (Z.ltb_spec 0 ss); [|lia].
      destruct (Z.ltb_spec 0 (len (samples w))); [|lia].
      rewrite Z.sub_0_r.
      pose proof (Z.div_le_upper_bound (len (samples w) - 1) ss
                    (len (samples w) - 1) ltac:(lia) ltac:(nia)); lia. }
    unfold len in *; lia.
Qed.

Lemma run_cuts_bounded (sr : Z) (flags : list bool) :
  334 <= sr ->
  Forall (fun c => 0 <= c /\ 1000 * c <= 3 * len flags * sr) (run_cuts sr flags).
Proof.
  intros Hsr; unfold run_cuts, detected_cuts.
  apply Forall_map.
  eapply Forall_impl; [|apply rising_edges_bounds].
  intros k Hk; cbv beta in *; rewrite run_cut_sample.
  rewrite Z.quot_div_nonneg by nia.
  pose proof (Z.div_pos (k * 3 * sr) 1000 ltac:(nia) ltac:(lia)).
  pose proof (Z.mul_div_le (k * 3 * sr) 1000 ltac:(lia)).
  split; nia.
Qed.

(** X10.  On integer samples, at a sample rate of 334 or more and with at
    most [10 ^ 14] samples, the analysis of a run raises nothing: it returns
    its cut list, ranges and manifest. *)
Theorem run_analyse_succeeds (w : wav) (max_amplitude : Z) :
  iinfo_max (samples_dtype w) = Ok max_amplitude ->
  334 <= sample_rate w ->
  len (samples w) <= 10 ^ 14 ->
  exists a : analysis, run_analyse w = Ok a.
Proof.
  intros HM Hsr Hlen.
  destruct (run_classify_Ok w max_amplitude HM Hsr) as (wl & _ & Hc & Hwl).
  set (flags := map (window_silence default_silence_threshold max_amplitude) wl)
    in *.
  assert (Hflags : len flags <= 10 ^ 14).
  { unfold flags, len in *; rewrite length_map; lia. }
  unfold run_analyse, analyse; fold run_classify; rewrite Hc; cbn [bind].
  unfold segment; fold run_cuts.
  set (cuts := run_cuts (sample_rate w) flags).
  pose proof (run_cuts_bounded (sample_rate w) flags Hsr) as Hb; fold cuts in Hb.
  assert (Hstamp : forall i : nat,
             (i <= List.length cuts)%nat ->
             exists s, timestamp (sample_rate w) (nth i (cuts ++ [-1]) 0) = Ok s).
  { intros i Hi; destruct (Nat.eq_dec i (List.length cuts)) as [->|Hne].
    - rewrite app_nth2, Nat.sub_diag by lia; simpl nth.
      exists "0"%string; apply timestamp_sentinel; lia.
    - rewrite app_nth1 by lia.
      rewrite Forall_forall in Hb.
      destruct (Hb (nth i cuts 0) ltac:(apply nth_In; lia)) as (H0 & H1).
      destruct (timestamp_cut (sample_rate w) (nth i cuts 0)) as (s & Hs & _);
        [lia | assumption | nia | exists s; exact Hs]. }
  destruct (mapM_Ok (manifest_entry (sample_rate w) (cuts ++ [-1]))
                    (seq 0 (List.length (cuts ++ [-1]) - 1))) as (vs & Hvs).
  - intros i Hi; apply in_seq in Hi; rewrite length_app in Hi; simpl in Hi.
    rewrite manifest_entry_timestamps.
    destruct (Hstamp i ltac:(lia)) as (s0 & ->).
    destruct (Hstamp (S i) ltac:(lia)) as (s1 & ->).
    eexists; reflexivity.
  - rewrite Hvs; eexists; reflexivity.
Qed.

(** The theorem at the recording with two clicks. *)
Lemma run_analyse_succeeds_witness :
  exists a : analysis, run_analyse Recordings.two_cuts = Ok a.
Proof.
  apply (run_analyse_succeeds Recordings.two_cuts 32767);
    [reflexivity | vm_compute; discriminate | vm_compute; discriminate].
Defined.

Lemma segment_manifest (msl : Q) (sd : option Q) (sr : Z) (flags : list bool)
    (a : analysis) :
  segment msl sd sr flags = Ok a ->
  mapM (manifest_entry sr (cut_samples a))
       (seq 0 (List.length (cut_samples a) - 1))
  = Ok (video_sub a).
Proof.
  unfold segment; intros H.
  apply bind_Ok in H as (vs & Hvs & H); injection H as <-; exact Hvs.
Qed.

(** X11.  The manifest of a run has one entry per Segment, keyed by the
    Segment's number in decimal.  The start of entry [i] is the timestamp of
    Cut Point [i], a string of the shape [HH:MM:SS.mmm]; its end is the
    timestamp of the next Cut Point, the start of the next entry, and for
    the last entry it is the string ["0"], which is what the sentinel -1
    reads as. *)
Theorem manifest_entries (w : wav) (a : analysis) :
  run_analyse w = Ok a ->
  exists cuts : list Z,
    cut_samples a = (cuts ++ [-1])%list /\
    List.length (video_sub a) = List.length cuts /\
    forall i : nat,
      (i < List.length cuts)%nat ->
      exists t0 t1 : string,
        nth_error (video_sub a) i = Some (str_of_int (Z.of_nat i), (t0, t1)) /\
        timestamp (sample_rate w) (nth i cuts 0) = Ok t0 /\
        hh_mm_ss_mmm t0 = true /\
        if (S i <? List.length cuts)%nat
        then timestamp (sample_rate w) (nth (S i) cuts 0) = Ok t1
        else t1 = "0"%string.
Proof.
  intros H; apply analyse_Ok in H as (flags & Hc & Hs).
  pose proof (segment_manifest _ _ _ _ _ Hs) as Hvs.
  apply segment_Ok in Hs as (Hcs & _ & _ & Hlen).
  fold run_classify in Hc; fold run_cuts in *.
  set (cuts := run_cuts (sample_rate w) flags) in *.
  exists cuts; split; [exact Hcs|]; split; [exact Hlen|].
  intros i Hi.
  assert (Hsr : 334 <= sample_rate w).
  { apply (classify_rate w flags Hc); intros ->.
    unfold cuts in Hi; simpl in Hi; lia. }
  rewrite Hcs in Hvs; rewrite length_app in Hvs; simpl List.length in Hvs.
  destruct (mapM_nth_error _ _ _ i i Hvs) as (e & He & Hentry).
  { rewrite nth_error_nth' with (d := 0%nat) by (rewrite length_seq; lia).
    rewrite seq_nth by lia; reflexivity. }
  rewrite manifest_entry_timestamps in Hentry.
  apply bind_Ok in Hentry as (t0 & Ht0 & Hentry).
  apply bind_Ok in Hentry as (t1 & Ht1 & Hentry).
  injection Hentry as <-.
  rewrite app_nth1 in Ht0 by lia.
  exists t0, t1; split; [exact He|]; split; [exact Ht0|]; split.
  - pose proof (run_cuts_sorted (sample_rate w) flags Hsr) as (_ & Hpos).
    fold cuts in Hpos; rewrite Forall_forall in Hpos.
    specialize (Hpos (nth i cuts 0) ltac:(apply nth_In; lia)).
    unfold timestamp in Ht0.
    rewrite py_truediv_positive in Ht0 by lia; cbn [bind] in Ht0.
    apply bind_Ok in Ht0 as (v & Hv & Ht0); injection Ht0 as <-.
    destruct (Qdiv_Z_sign (nth i cuts 0) (sample_rate w) ltac:(lia))
      as (_ & Hnn & _).
    destruct (GetTime_returns_clock _ _ (Hnn Hpos) Hv) as (s & -> & Hshape).
    exact Hshape.
  - destruct (Nat.ltb_spec (S i) (List.length cuts)) as [Hlt|Hge].
    + rewrite app_nth1 in Ht1 by lia; exact Ht1.
    + rewrite app_nth2 in Ht1 by lia.
      replace (S i - List.length cuts)%nat with 0%nat in Ht1 by lia.
      simpl nth in Ht1.
      rewrite timestamp_sentinel in Ht1 by lia.
      injection Ht1 as <-; reflexivity.
Qed.

(** The theorem at the recording with two clicks. *)
Lemma manifest_entries_witness :
  exists cuts : list Z,
    [5; 256; -1] = (cuts ++ [-1])%list /\
    2%nat = List.length cuts /\
    forall i : nat,
      (i < List.length cuts)%nat ->
      exists t0 t1 : string,
        nth_error [("0", ("00:00:00.001", "00:00:00.001"));
                   ("1", ("00:00:00.001", "0"))]%string i
        = Some (str_of_int (Z.of_nat i), (t0, t1)) /\
        timestamp Recordings.rate (nth i cuts 0) = Ok t0 /\
        hh_mm_ss_mmm t0 = true /\
        if (S i <? List.length cuts)%nat
        then timestamp Recordings.rate (nth (S i) cuts 0) = Ok t1
        else t1 = "0"%string.
Proof.
  exact (manifest_entries Recordings.two_cuts _ recording_analyse_two_cuts).
Defined.

(** ** A recording that is loud throughout *)








(** ** What a run writes *)

(** X17.  When the last Cut Point of a run lies inside the buffer, the
    samples written for all its Segments, one after the other, are the
    buffer from the first Cut Point up to, and not including, its last
    sample: the sentinel -1 is the stop of the last slice, so the last
    sample of a recording is written to no file. *)
Theorem last_sample_not_written (w : wav) (a : analysis) (cuts : list Z) :
  run_analyse w = Ok a ->
  cut_samples a = (cuts ++ [-1])%list ->
  cuts <> [] ->
  last cuts 0 < len (samples w) ->
  List.concat (map (segment_data (samples w)) (cut_ranges a))
  = py_slice (samples w) (hd 0 cuts) (len (samples w) - 1) /\
  len (List.concat (map (segment_data (samples w)) (cut_ranges a)))
  = len (samples w) - 1 - hd 0 cuts.
Proof.
  intros H Hcs Hne Hlast.
  apply analyse_Ok in H as (flags & Hc & Hs).
  apply segment_Ok in Hs as (Hcs' & Hr & _).
  fold run_classify in Hc; fold run_cuts in *.
  assert (Hcuts : cuts = run_cuts (sample_rate w) flags).
  { rewrite Hcs in Hcs'; apply app_inv_tail in Hcs'; exact Hcs'. }
  assert (Hsr : 334 <= sample_rate w).
  { apply (classify_rate w flags Hc); intros ->; apply Hne; rewrite Hcuts.
    reflexivity. }
  destruct (run_cuts_sorted (sample_rate w) flags Hsr) as (Hsorted & Hpos).
  rewrite <- Hcuts in Hsorted, Hpos.
  destruct cuts as [|c0 cuts']; [contradiction|].
  pose proof (StronglySorted_hd_le_last c0 cuts' Hsorted) as Hle.
  assert (Hc0 : 0 <= c0) by (inversion Hpos; assumption).
  set (cl := last (c0 :: cuts') 0) in *.
  assert (Heq : List.concat (map (segment_data (samples w)) (cut_ranges a))
                = py_slice (samples w) c0 (len (samples w) - 1)).
  { rewrite Hr, Hcs, chain_snoc by discriminate.
    rewrite map_app, concat_app, chain_concat by assumption.
    cbn [hd map List.concat segment_data]; rewrite app_nil_r.
    fold cl; rewrite py_slice_stop_minus_one by lia.
    apply py_slice_app; lia. }
  cbn [hd]; split; [exact Heq|].
  rewrite Heq, py_slice_length; lia.
Qed.

(** The theorem at the recording with two clicks. *)
Lemma last_sample_not_written_witness :
  List.concat (map (segment_data (samples Recordings.two_cuts))
                   [(0, 5, 256); (1, 256, -1)])
  = py_slice (samples Recordings.two_cuts) (hd 0 [5; 256])
             (len (samples Recordings.two_cuts) - 1) /\
  len (List.concat (map (segment_data (samples Recordings.two_cuts))
                        [(0, 5, 256); (1, 256, -1)]))
  = len (samples Recordings.two_cuts) - 1 - hd 0 [5; 256].
Proof.
  apply (last_sample_not_written Recordings.two_cuts _ [5; 256]
                                 recording_analyse_two_cuts);
    [reflexivity | discriminate | vm_compute; reflexivity].
Defined.

(** X12.  Where the name [output_dir] is bound, a run that reads its
    recording and analyses it writes one WAV file per Segment, in the order
    of the Segments: at the path of [output_dir] joined with the input's
    base name, then an underscore, the Segment's number on three digits and
    [".wav"], at the recording's sample rate, holding the slice of the
    Segment; it then dumps the manifest to [output_dir], a backslash, the
    base name and [".json"], and returns.  Its [output_file] argument is
    used for nothing. *)
Theorem split_audio_files (W : world) (input_file output_file dir : string)
    (a b c : pyobj) (w : wav) (r : analysis) :
  wavfile_read W input_file = Ok w ->
  run_analyse w = Ok r ->
  global_output_dir W = Some dir ->
  split_audio W input_file output_file a b c
  = ((map (segment_file W dir (os_path_stem W input_file) w) (cut_ranges r)
      ++ [JsonDump (dir ++ "\" ++ os_path_stem W input_file ++ ".json")
                   (video_sub r)])%list,
     Ok tt).
Proof.
  intros Hw Hr Hd; unfold split_audio, split_audio_body.
  rewrite Hw; unfold lift at 1, io_bind at 1.
  fold default_min_silence_length default_silence_threshold.
  change (Some (0.03 / 10)%Q) with default_step_duration.
  fold run_analyse; rewrite Hr; unfold lift at 1, io_bind at 1.
  rewrite (write_ranges_bound W _ dir w _ Hd).
  unfold io_bind at 1, read_output_dir; rewrite Hd.
  unfold io_ret, io_bind, emit; rewrite app_nil_l; reflexivity.
Qed.

(** The theorem at the recording with two clicks, read from ["in.wav"] with
    [output_dir] bound to ["out"]. *)
Lemma split_audio_files_witness :
  split_audio (Recordings.world_of Recordings.two_cuts (Some "out"%string))
              "in.wav" "ignored" PyNone PyNone PyNone
  = ([WavWrite "out/in.wav_000.wav" 334
               (py_slice (samples Recordings.two_cuts) 5 256);
      WavWrite "out/in.wav_001.wav" 334
               (py_slice (samples Recordings.two_cuts) 256 (-1));
      JsonDump "out\in.wav.json"
               [("0", ("00:00:00.001", "00:00:00.001"));
                ("1", ("00:00:00.001", "0"))]]%string,
     Ok tt).
Proof.
  exact (split_audio_files
           (Recordings.world_of Recordings.two_cuts (Some "out"%string))
           "in.wav" "ignored" "out" PyNone PyNone PyNone Recordings.two_cuts _
           eq_refl recording_analyse_two_cuts eq_refl).
Defined.

(** X14.  As the module stands, with no binding for [output_dir], no call
    of [split_audio] writes a file or returns: it ends in the exception of
    the reader or of the analysis, or else in [NameError] at the first line
    that reads [output_dir]. *)
Theorem split_audio_never_completes (W : world) (input_file output_file : string)
    (a b c : pyobj) :
  global_output_dir W = None ->
  fst (split_audio W input_file output_file a b c) = [] /\
  (exists e : exn, snd (split_audio W input_file output_file a b c) = Raise e) /\
  (forall (w : wav) (r : analysis),
      wavfile_read W input_file = Ok w -> run_analyse w = Ok r ->
      snd (split_audio W input_file output_file a b c)
      = Raise (NameError "output_dir")).
Proof.
  intros Hd.
  destruct (wavfile_read W input_file) as [w|e] eqn:Hw.
  - destruct (run_analyse w) as [r|e] eqn:Hr.
    + rewrite (split_audio_unbound_output_dir W _ _ a b c w r Hd Hw Hr).
      split; [reflexivity|]; split; [eexists; reflexivity|].
      intros w' r' _ _; reflexivity.
    + assert (E : split_audio W input_file output_file a b c = ([], Raise e)).
      { unfold split_audio, split_audio_body.
        rewrite Hw; unfold lift at 1, io_bind at 1.
        fold default_min_silence_length default_silence_threshold.
        change (Some (0.03 / 10)%Q) with default_step_duration.
        fold run_analyse; rewrite Hr; reflexivity. }
      rewrite E; split; [reflexivity|]; split; [eexists; reflexivity|].
      intros w' r' [= <-]; rewrite Hr; discriminate.
  - assert (E : split_audio W input_file output_file a b c = ([], Raise e)).
    { unfold split_audio, split_audio_body; rewrite Hw; reflexivity. }
    rewrite E; split; [reflexivity|]; split; [eexists; reflexivity|].
    intros w r H; discriminate H.
Qed.

(** The theorem at the recording with one cut. *)
Lemma split_audio_never_completes_witness :
  fst (split_audio (Recordings.world_of Recordings.one_cut None)
                   "in.wav" "out" PyNone PyNone PyNone) = [] /\
  (exists e : exn,
      snd (split_audio (Recordings.world_of Recordings.one_cut None)
                       "in.wav" "out" PyNone PyNone PyNone) = Raise e) /\
  (forall (w : wav) (r : analysis),
      wavfile_read (Recordings.world_of Recordings.one_cut None) "in.wav" = Ok w ->
      run_analyse w = Ok r ->
      snd (split_audio (Recordings.world_of Recordings.one_cut None)
                       "in.wav" "out" PyNone PyNone PyNone)
      = Raise (NameError "output_dir")).
Proof.
  apply (split_audio_never_completes
           (Recordings.world_of Recordings.one_cut None)); reflexivity.
Defined.

(** ** The names of the files *)

Lemma uint_of_zeros (k : nat) (s : string) :
  NilEmpty.uint_of_string (zeros k ++ s)
  = option_map (Nat.iter k Decimal.D0) (NilEmpty.uint_of_string s).
Proof.
  induction k as [|k IH]; simpl.
  - destruct (NilEmpty.uint_of_string s); reflexivity.
  - rewrite IH; destruct (NilEmpty.uint_of_string s); reflexivity.
Qed.

Lemma of_uint_leading_zeros (k : nat) (u : Decimal.uint) :
  Z.of_uint (Nat.iter k Decimal.D0 u) = Z.of_uint u.
Proof.
  induction k as [|k IH]; [reflexivity|].
  simpl Nat.iter; rewrite <- IH; reflexivity.
Qed.

Lemma string_of_uint_head (u : Decimal.uint) :
  u <> Decimal.Nil ->
  exists (c : ascii) (rest : string),
    NilEmpty.string_of_uint u = String c rest /\
    Ascii.eqb c "-" = false /\ Ascii.eqb c "+" = false.
Proof.
  destruct u; [contradiction| | | | | | | | | |]; intros _;
    eexists; eexists; repeat split.
Qed.

(** The digits of a Segment's number read back as the number. *)
Lemma format_03d_read_back (i : Z) :
  0 <= i -> int_of_str (format_03d i) = Some i.
Proof.
  intros Hi; destruct i as [|p|p]; [reflexivity | | lia].
  unfold format_03d, str_of_int, int_of_str.
  change (Z.to_int (Zpos p)) with (Decimal.Pos (Pos.to_uint p)).
  pose proof (DecimalPos.Unsigned.to_uint_nonnil p) as Hnil.
  set (u := Pos.to_uint p) in *.
  assert (Hs : NilZero.string_of_int (Decimal.Pos u) = NilEmpty.string_of_uint u).
  { simpl; unfold NilZero.string_of_uint; destruct u; [contradiction|..];
      reflexivity. }
  rewrite Hs.
  destruct (string_of_uint_head u Hnil) as (c & rest & Hhead & Hminus & Hplus).
  pose proof (NilEmpty.usu u) as Hparse.
  set (s := NilEmpty.string_of_uint u) in *.
  assert (Hz : zfill 3 s = (zeros (3 - String.length s) ++ s)%string).
  { unfold zfill; rewrite Hhead, Hminus, Hplus; reflexivity. }
  rewrite Hz.
  assert (Hint : NilZero.int_of_string (zeros (3 - String.length s) ++ s)
                 = Some (Decimal.Pos (Nat.iter (3 - String.length s)
                                               Decimal.D0 u))).
  { destruct (3 - String.length s)%nat as [|k] eqn:Ek.
    - simpl; rewrite Hhead; unfold NilZero.int_of_string; rewrite Hminus.
      unfold NilZero.uint_of_string; rewrite <- Hhead, Hparse; reflexivity.
    - change (zeros (S k) ++ s)%string with (String "0" (zeros k ++ s)).
      unfold NilZero.int_of_string, NilZero.uint_of_string.
      change (Ascii.eqb "0" "-") with false; cbv iota.
      change (String "0" (zeros k ++ s)) with (zeros (S k) ++ s)%string.
      rewrite uint_of_zeros, Hparse; reflexivity. }
  rewrite Hint; cbn [option_map Z.of_int].
  rewrite of_uint_leading_zeros.
  change (Z.of_uint u) with (Z.of_int (Z.to_int (Zpos p))).
  rewrite DecimalZ.of_to; reflexivity.
Qed.

Lemma append_inv_head (p a b : string) : (p ++ a = p ++ b)%string -> a = b.
Proof.
  induction p as [|c p IH]; simpl; [auto|].
  intros [= H]; auto.
Qed.

Lemma list_ascii_of_append (a b : string) :
  list_ascii_of_string (a ++ b)
  = (list_ascii_of_string a ++ list_ascii_of_string b)%list.
Proof.
  induction a as [|c a IH]; simpl; [reflexivity | rewrite IH; reflexivity].
Qed.

Lemma append_inv_tail (a b t : string) : (a ++ t = b ++ t)%string -> a = b.
Proof.
  intros H; apply (f_equal list_ascii_of_string) in H.
  rewrite !list_ascii_of_append in H; apply app_inv_tail in H.
  rewrite <- (string_of_list_ascii_of_string a), H.
  apply string_of_list_ascii_of_string.
Qed.

Lemma chain_indices (cuts : list Z) :
  forall i : Z,
    map (fun r => fst (fst r)) (chain i cuts)
    = map (fun k => i + Z.of_nat k) (seq 0 (List.length cuts - 1)).
Proof.
  induction cuts as [|c rest IH]; intros i; [reflexivity|].
  destruct rest as [|c' rest']; [reflexivity|].
  change (chain i (c :: c' :: rest'))
    with ((i, c, c') :: chain (i + 1) (c' :: rest')).
  replace (List.length (c :: c' :: rest') - 1)%nat
    with (S (List.length (c' :: rest') - 1)) by (simpl; lia).
  rewrite <- cons_seq, <- seq_shift, !map_cons, map_map, IH.
  cbn [fst]; f_equal; [lia|].
  apply map_ext; intros k; lia.
Qed.

(** X13.  The three digits of a file name read back as the number of the
    Segment, for every number (there are more digits from 1000 on); so the
    WAV files of a run all have different names, and no Segment overwrites
    another. *)
Theorem segment_files_distinct (w : wav) (a : analysis) :
  run_analyse w = Ok a ->
  (forall i : nat,
      (i < List.length (cut_ranges a))%nat ->
      exists start stop : Z,
        nth_error (cut_ranges a) i = Some (Z.of_nat i, start, stop) /\
        int_of_str (format_03d (Z.of_nat i)) = Some (Z.of_nat i)) /\
  forall (W : world) (dir prefix : string),
    NoDup (map event_filename
               (map (segment_file W dir prefix w) (cut_ranges a))).
Proof.
  intros H; apply analyse_Ok in H as (flags & _ & Hs).
  apply segment_Ok in Hs as (_ & Hr & _).
  set (cs := cut_samples a) in *; split.
  - intros i Hi; rewrite Hr, chain_length in Hi.
    exists (nth i cs 0), (nth (S i) cs 0); split.
    + rewrite Hr, chain_nth_error by lia; reflexivity.
    + apply format_03d_read_back; lia.
  - intros W dir prefix; rewrite Hr, map_map.
    set (name := fun i : Z => (os_path_join W dir prefix ++ "_"
                               ++ format_03d i ++ ".wav")%string).
    rewrite (map_ext _ (fun r => name (fst (fst r)))) by reflexivity.
    rewrite <- (map_map (fun r => fst (fst r)) name), chain_indices, map_map.
    apply NoDup_map_NoDup_ForallPairs; [|apply seq_NoDup].
    intros i j _ _ E; unfold name in E; rewrite !Z.add_0_l in E.
    apply append_inv_head in E; injection E as E.
    apply append_inv_tail in E.
    apply (f_equal int_of_str) in E.
    rewrite !format_03d_read_back in E by lia.
    injection E as E; lia.
Qed.

(** The theorem at the recording with two clicks. *)
Lemma segment_files_distinct_witness :
  NoDup (map event_filename
             (map (segment_file
                     (Recordings.world_of Recordings.two_cuts (Some "out"%string))
                     "out" "in" Recordings.two_cuts)
                  [(0, 5, 256); (1, 256, -1)])).
Proof.
  exact (proj2 (segment_files_distinct Recordings.two_cuts _
                                       recording_analyse_two_cuts)
               (Recordings.world_of Recordings.two_cuts (Some "out"%string))
               "out"%string "in"%string).
Defined.

(** ** [main] *)

(** X16.  [main] never gets to split anything.  When the input file or the
    output directory is missing it prints the error and exits with status 1.
    When both are there the call of line 44 fails before [split_audio] is
    entered: with [NameError] where the name [split_audio] is not bound yet,
    as when the file is run as a script, and otherwise with [AttributeError],
    since the namespace of the parser has an [output_dir] and no
    [output_file].  No call of [main] writes a file or returns. *)
Theorem main_never_splits (W : world) (os_path_exists : string -> bool)
    (split_audio_bound : bool) (input_file output_dir : string)
    (min_silence_length silence_threshold step_duration : Q) :
  let run := main W os_path_exists split_audio_bound
                  (parse_args input_file output_dir min_silence_length
                              silence_threshold step_duration) in
  written run = [] /\
  ended run <> Returns /\
  run
  = if negb (os_path_exists input_file)
    then {| printed := ["Error: The file '" ++ input_file
                        ++ "' does not exist."]%string;
            written := []; ended := SystemExit 1 |}
    else if negb (os_path_exists output_dir)
    then {| printed := ["Error: The directory '" ++ output_dir
                        ++ "' does not exist."]%string;
            written := []; ended := SystemExit 1 |}
    else if split_audio_bound
    then {| printed := []; written := [];
            ended := Uncaught
                       (AttributeError
                          "'Namespace' object has no attribute 'output_file'") |}
    else {| printed := []; written := [];
            ended := Uncaught (NameError "split_audio") |}.
Proof.
  intros run; unfold run, main, parse_args, getattr; cbn [find fst String.eqb].
  cbn -[negb append].
  destruct (os_path_exists input_file), (os_path_exists output_dir),
    split_audio_bound; cbn; repeat split; discriminate.
Qed.

(** ** What the windows of a signal hold *)

Lemma Forall_firstn_skipn {A : Type} (P : A -> Prop) (l : list A) (n k : nat) :
  Forall P l -> Forall P (firstn n (skipn k l)).
Proof.
  intros H; rewrite Forall_forall in *; intros x Hx.
  apply H.
  rewrite <- (firstn_skipn k l); apply in_or_app; right.
  rewrite <- (firstn_skipn n (skipn k l)); apply in_or_app; left; assumption.
Qed.

(** A window holds samples of the signal and nothing else. *)
Lemma windows_loop_Forall {A : Type} (P : A -> Prop) (signal : list A) (ws : Z)
    (starts : list Z) :
  Forall P signal -> Forall (Forall P) (windows_loop signal ws starts).
Proof.
  intros H; induction starts as [|i rest IH]; simpl; [constructor|].
  destruct (_ >=? _); constructor; [|assumption].
  apply Forall_firstn_skipn; assumption.
Qed.

Lemma windows_loop_nonempty {A : Type} (signal : list A) (ws : Z)
    (starts : list Z) :
  0 < ws -> Forall (fun i => 0 <= i) starts ->
  Forall (fun x => x <> []) (windows_loop signal ws starts).
Proof.
  intros Hws; induction 1 as [|i rest Hi _ IH]; simpl; [constructor|].
  destruct (Z.geb_spec (i + ws) (len signal)); constructor; [|assumption].
  intros E; apply (f_equal len) in E.
  rewrite py_slice_length in E by lia.
  unfold len in E; simpl in E; lia.
Qed.

(** * Binary64 *)

(** ** Powers of two and exponents *)

Lemma pow2_pos (e : Z) : (0 < Float64.pow2 e)%Q.
Proof. apply Qpower_0_lt; reflexivity. Qed.

Lemma pow2_add (a b : Z) : (Float64.pow2 (a + b) == Float64.pow2 a * Float64.pow2 b)%Q.
Proof. apply Qpower_plus; discriminate. Qed.

Lemma pow2_le (a b : Z) : a <= b -> (Float64.pow2 a <= Float64.pow2 b)%Q.
Proof. intros H; apply Qpower_le_compat_l; [assumption | discriminate]. Qed.

Lemma pow2_lt (a b : Z) : a < b -> (Float64.pow2 a < Float64.pow2 b)%Q.
Proof. intros H; apply Qpower_lt_compat_l; [assumption | reflexivity]. Qed.

Lemma pow2_Z (n : Z) : 0 <= n -> (Float64.pow2 n == inject_Z (2 ^ n))%Q.
Proof. intros H; unfold Float64.pow2; rewrite Zpower_Qpower by assumption; reflexivity. Qed.

Lemma exponent_spec (x : Q) :
  (0 < x)%Q -> (Float64.pow2 (Float64.exponent x) <= x)%Q /\ (x < Float64.pow2 (Float64.exponent x + 1))%Q.
Proof.
  intros Hx; destruct x as [n d].
  assert (Hn : 0 < n) by (unfold Qlt in Hx; simpl in Hx; lia).
  unfold Float64.exponent; cbn [Qnum Qden].
  set (a := Z.log2 n); set (b := Z.log2 (Zpos d)).
  pose proof (Z.log2_spec n Hn) as Ha; fold a in Ha.
  pose proof (Z.log2_spec (Zpos d) ltac:(lia)) as Hb; fold b in Hb.
  pose proof (Z.log2_nonneg n); pose proof (Z.log2_nonneg (Zpos d)).
  assert (Hd : (0 < inject_Z (Zpos d))%Q) by reflexivity.
  assert (Ex : (n # d == inject_Z n / inject_Z (Zpos d))%Q) by apply Qmake_Qdiv.
  assert (Hup : (n # d < Float64.pow2 (a - b + 1))%Q).
  { rewrite Ex; apply Qlt_shift_div_r; [assumption|].
    apply Qlt_le_trans with (Float64.pow2 (a + 1)).
    - rewrite pow2_Z by lia; rewrite <- Zlt_Qlt; lia.
    - replace (a + 1) with ((a - b + 1) + b) by lia.
      rewrite pow2_add; apply Qmult_le_l; [apply pow2_pos|].
      rewrite pow2_Z by lia; rewrite <- Zle_Qle; lia. }
  assert (Hlo : (Float64.pow2 (a - b - 1) <= n # d)%Q).
  { rewrite Ex; apply Qle_shift_div_l; [assumption|].
    apply Qle_trans with (Float64.pow2 a).
    - replace a with ((a - b - 1) + (b + 1)) at 2 by lia.
      rewrite pow2_add; apply Qmult_le_l; [apply pow2_pos|].
      rewrite pow2_Z by lia; rewrite <- Zle_Qle; lia.
    - rewrite pow2_Z by lia; rewrite <- Zle_Qle; lia. }
  destruct (Qle_bool (Float64.pow2 (a - b)) (n # d)) eqn:E.
  - apply Qle_bool_iff in E; split; assumption.
  - split; [assumption|].
    replace (a - b - 1 + 1) with (a - b) by lia.
    apply Qnot_le_lt; intros H'; apply Qle_bool_iff in H'; congruence.
Qed.

Lemma exponent_unique (x : Q) (e : Z) :
  (Float64.pow2 e <= x)%Q -> (x < Float64.pow2 (e + 1))%Q -> Float64.exponent x = e.
Proof.
  intros Hlo Hhi.
  assert (Hx : (0 < x)%Q) by (eapply Qlt_le_trans; [apply pow2_pos | exact Hlo]).
  destruct (exponent_spec x Hx) as (Hlo' & Hhi').
  assert (H1 : Float64.exponent x < e + 1).
  { assert (H : (Float64.pow2 (Float64.exponent x) < Float64.pow2 (e + 1))%Q)
      by (eapply Qle_lt_trans; eassumption).
    destruct (Z.lt_ge_cases (Float64.exponent x) (e + 1)) as [|Hge]; [assumption|].
    apply pow2_le in Hge; apply Qlt_not_le in H; contradiction. }
  assert (H2 : e < Float64.exponent x + 1).
  { assert (H : (Float64.pow2 e < Float64.pow2 (Float64.exponent x + 1))%Q)
      by (eapply Qle_lt_trans; eassumption).
    destruct (Z.lt_ge_cases e (Float64.exponent x + 1)) as [|Hge]; [assumption|].
    apply pow2_le in Hge; apply Qlt_not_le in H; contradiction. }
  lia.
Qed.

(** ** Rounding to the nearest double *)

Lemma round_half_even_Z (z : Z) : round_half_even (inject_Z z) = z.
Proof.
  unfold round_half_even, Qfloor, inject_Z; cbn [Qnum Qden].
  rewrite Z.mod_1_r, Z.div_1_r; reflexivity.
Qed.

Lemma round_half_even_error (q : Q) :
  (inject_Z (round_half_even q) - (1 # 2) <= q)%Q /\
  (q <= inject_Z (round_half_even q) + (1 # 2))%Q.
Proof.
  destruct q as [n d]; unfold round_half_even, Qfloor; cbn [Qnum Qden].
  pose proof (Z.div_mod n (Zpos d) ltac:(lia)) as Hdm.
  pose proof (Z.mod_pos_bound n (Zpos d) ltac:(lia)) as Hm.
  set (f := n / Zpos d) in *; set (r := n mod Zpos d) in *.
  assert (HQ : forall k : Z,
             ((inject_Z k - (1 # 2) <= n # d)%Q <-> (2 * k - 1) * Zpos d <= 2 * n)
             /\ ((n # d <= inject_Z k + (1 # 2))%Q <-> 2 * n <= (2 * k + 1) * Zpos d)).
  { intros k; unfold Qle, Qminus, Qplus, Qopp, inject_Z; cbn [Qnum Qden].
    split; split; intros H; nia. }
  destruct (Z.compare_spec (2 * r) (Zpos d)) as [E|E|E].
  - destruct (Z.even f); split; apply HQ; nia.
  - split; apply HQ; nia.
  - split; apply HQ; nia.
Qed.

Lemma Qabs_nonzero (x : Q) : ~ (x == 0)%Q -> (0 < Qabs x)%Q.
Proof.
  destruct x as [n d]; unfold Qeq, Qlt, Qabs; cbn [Qnum Qden]; lia.
Qed.

Lemma exponent_comp (x y : Q) :
  (0 < x)%Q -> (x == y)%Q -> Float64.exponent x = Float64.exponent y.
Proof.
  intros Hx E.
  destruct (exponent_spec y) as (Hlo & Hhi); [rewrite <- E; assumption|].
  apply exponent_unique; rewrite E; assumption.
Qed.

Lemma round_unfold (x : Q) :
  ~ (x == 0)%Q ->
  Float64.round x
  = let e := Z.max (Float64.exponent (Qabs x) - 52) (-1074) in
    let y := Qred (inject_Z (round_half_even (x / Float64.pow2 e)) * Float64.pow2 e) in
    if Qle_bool (Float64.pow2 1024) (Qabs y) then Inf (Qltb x 0) else Num y.
Proof.
  intros Hx; unfold Float64.round.
  pose proof (Qred_correct x) as Er.
  destruct (Qeq_bool (Qred x) 0) eqn:E.
  { apply Qeq_bool_eq in E; rewrite Er in E; contradiction. }
  assert (Ee : Float64.exponent (Qabs (Qred x)) = Float64.exponent (Qabs x)).
  { apply exponent_comp; [|rewrite Er; reflexivity].
    apply Qabs_nonzero; rewrite Er; assumption. }
  cbv zeta; rewrite Ee.
  set (e := Z.max (Float64.exponent (Qabs x) - 52) (-1074)).
  rewrite (round_half_even_comp (Qred x / Float64.pow2 e) (x / Float64.pow2 e))
    by (rewrite Er; reflexivity).
  rewrite (Qltb_comp (Qred x) x 0 Er); reflexivity.
Qed.

Lemma round_comp (x y : Q) : (x == y)%Q -> Float64.round x = Float64.round y.
Proof.
  intros E; unfold Float64.round; rewrite (Qred_complete x y E); reflexivity.
Qed.

(** A number with a significand of at most 53 bits and an exponent in range
    is a double: rounding leaves it as it is. *)
Lemma round_exact (m e : Z) :
  Z.abs m < 2 ^ 53 -> -1074 <= e <= 971 ->
  Float64.round (inject_Z m * Float64.pow2 e) = Num (Qred (inject_Z m * Float64.pow2 e)).
Proof.
  intros Hm He.
  destruct (Z.eq_dec m 0) as [->|Hm0].
  { unfold Float64.round.
    assert (E : Qred (inject_Z 0 * Float64.pow2 e) = 0%Q).
    { change 0%Q with (Qred 0); apply Qred_complete; ring. }
    rewrite E; reflexivity. }
  assert (Hx : ~ (inject_Z m * Float64.pow2 e == 0)%Q).
  { intros E; apply Qmult_integral in E; destruct E as [E|E].
    - unfold Qeq in E; simpl in E; lia.
    - pose proof (pow2_pos e) as Hp; rewrite E in Hp; discriminate Hp. }
  rewrite round_unfold by assumption.
  set (a := Z.log2 (Z.abs m)).
  pose proof (Z.log2_spec (Z.abs m) ltac:(lia)) as Ha; fold a in Ha.
  pose proof (Z.log2_nonneg (Z.abs m)) as Ha0; fold a in Ha0.
  assert (Ha52 : a <= 52).
  { destruct (Z.le_gt_cases a 52) as [|Hgt]; [assumption|].
    pose proof (Z.pow_le_mono_r 2 53 a ltac:(lia) ltac:(lia)); lia. }
  assert (Eabs : (Qabs (inject_Z m * Float64.pow2 e) == inject_Z (Z.abs m) * Float64.pow2 e)%Q).
  { rewrite Qabs_Qmult, (Qabs_pos (Float64.pow2 e)) by (apply Qlt_le_weak, pow2_pos).
    reflexivity. }
  assert (Ee : Float64.exponent (Qabs (inject_Z m * Float64.pow2 e)) = a + e).
  { apply exponent_unique; rewrite Eabs.
    - rewrite pow2_add; apply Qmult_le_r; [apply pow2_pos|].
      rewrite pow2_Z by lia; rewrite <- Zle_Qle; lia.
    - replace (a + e + 1) with ((a + 1) + e) by lia.
      rewrite pow2_add; apply Qmult_lt_r; [apply pow2_pos|].
      rewrite pow2_Z by lia; rewrite <- Zlt_Qlt; lia. }
  cbv zeta; rewrite Ee.
  set (er := Z.max (a + e - 52) (-1074)).
  assert (Her : er <= e) by lia.
  assert (Eq : (inject_Z m * Float64.pow2 e / Float64.pow2 er == inject_Z (m * 2 ^ (e - er)))%Q).
  { replace e with ((e - er) + er) at 1 by lia.
    rewrite pow2_add, inject_Z_mult, <- pow2_Z by lia.
    field; intros E; pose proof (pow2_pos er) as Hp; rewrite E in Hp;
      discriminate Hp. }
  rewrite (round_half_even_comp _ _ Eq), round_half_even_Z.
  assert (Ey : Qred (inject_Z (m * 2 ^ (e - er)) * Float64.pow2 er)
               = Qred (inject_Z m * Float64.pow2 e)).
  { apply Qred_complete.
    replace e with ((e - er) + er) at 2 by lia.
    rewrite pow2_add, inject_Z_mult, <- pow2_Z by lia; ring. }
  rewrite Ey.
  destruct (Qle_bool _ _) eqn:Eo; [|reflexivity].
  exfalso; apply Qle_bool_iff in Eo.
  rewrite Qred_correct, Eabs in Eo.
  apply (Qle_not_lt _ _ Eo).
  apply Qlt_le_trans with (Float64.pow2 53 * Float64.pow2 e)%Q.
  - apply Qmult_lt_r; [apply pow2_pos|].
    rewrite pow2_Z by lia; rewrite <- Zlt_Qlt; lia.
  - rewrite <- pow2_add; apply pow2_le; lia.
Qed.

Lemma Qred_inject_Z (n : Z) : Qred (inject_Z n) = inject_Z n.
Proof.
  unfold Qred, inject_Z.
  pose proof (Z.ggcd_gcd n 1) as Hg.
  pose proof (Z.ggcd_correct_divisors n 1) as Hd.
  destruct (Z.ggcd n 1) as (g & a & b); cbn [fst] in Hg.
  rewrite Z.gcd_1_r in Hg; subst g; destruct Hd as (Hn & Hb).
  replace a with n by lia; replace b with 1 by lia; reflexivity.
Qed.

(** Integers up to [2 ^ 53] are doubles. *)
Lemma round_integer (n : Z) :
  Z.abs n <= 2 ^ 53 -> Float64.round (inject_Z n) = Num (inject_Z n).
Proof.
  intros Hn.
  destruct (Z.eq_dec (Z.abs n) (2 ^ 53)) as [E|E].
  - assert (En : n = (n / 2) * 2).
    { destruct (Z.abs_spec n) as [[_ A]|[_ A]]; rewrite A in E.
      - subst n; reflexivity.
      - replace n with (- 2 ^ 53) by lia; reflexivity. }
    assert (Ex : (inject_Z n == inject_Z (n / 2) * Float64.pow2 1)%Q).
    { rewrite En at 1; rewrite inject_Z_mult; reflexivity. }
    rewrite (round_comp _ _ Ex), round_exact.
    + f_equal; rewrite <- (Qred_inject_Z n); apply Qred_complete.
      symmetry; exact Ex.
    + destruct (Z.abs_spec n) as [[_ A]|[_ A]]; rewrite A in E.
      * subst n; reflexivity.
      * replace n with (- 2 ^ 53) by lia; reflexivity.
    + lia.
  - assert (Ex : (inject_Z n == inject_Z n * Float64.pow2 0)%Q) by (unfold Float64.pow2; simpl; ring).
    rewrite (round_comp _ _ Ex), round_exact by lia.
    f_equal; rewrite <- (Qred_inject_Z n) at 2; apply Qred_complete.
    symmetry; exact Ex.
Qed.

(** Above [2 ^ -1022] and below [2 ^ 1023] rounding moves a number by at
    most the fraction [2 ^ -53] of it. *)
Lemma round_near (x : Q) :
  (Float64.pow2 (-1022) <= x)%Q -> (x < Float64.pow2 1023)%Q ->
  exists y : Q,
    Float64.round x = Num y /\
    (x - x * Float64.pow2 (-53) <= y)%Q /\ (y <= x + x * Float64.pow2 (-53))%Q.
Proof.
  intros Hlo Hhi.
  assert (Hx : (0 < x)%Q) by (eapply Qlt_le_trans; [apply pow2_pos | exact Hlo]).
  assert (Hx0 : ~ (x == 0)%Q) by (intros E; rewrite E in Hx; discriminate Hx).
  rewrite round_unfold by assumption.
  assert (Ea : Float64.exponent (Qabs x) = Float64.exponent x).
  { apply exponent_comp; [|apply Qabs_pos, Qlt_le_weak; assumption].
    apply Qabs_nonzero; assumption. }
  cbv zeta; rewrite Ea.
  destruct (exponent_spec x Hx) as (Ha1 & Ha2).
  set (a := Float64.exponent x) in *.
  assert (Ha : -1022 <= a).
  { assert (H : (Float64.pow2 (-1022) < Float64.pow2 (a + 1))%Q)
      by (eapply Qle_lt_trans; eassumption).
    destruct (Z.le_gt_cases (-1022) a) as [|Hgt]; [assumption|].
    assert (Hle : a + 1 <= -1022) by lia.
    apply pow2_le in Hle; apply Qlt_not_le in H; contradiction. }
  replace (Z.max (a - 52) (-1074)) with (a - 52) by lia.
  set (p := Float64.pow2 (a - 52)).
  assert (Hp : (0 < p)%Q) by apply pow2_pos.
  destruct (round_half_even_error (x / p)) as (He1 & He2).
  set (m := round_half_even (x / p)) in *.
  set (y := Qred (inject_Z m * p)).
  assert (Ey : (y == inject_Z m * p)%Q) by apply Qred_correct.
  assert (Exp : (x / p * p == x)%Q).
  { field; intros E; rewrite E in Hp; discriminate Hp. }
  assert (H1 : ((inject_Z m - (1 # 2)) * p <= x)%Q).
  { rewrite <- Exp; apply Qmult_le_compat_r; [assumption | apply Qlt_le_weak, Hp]. }
  assert (H2 : (x <= (inject_Z m + (1 # 2)) * p)%Q).
  { rewrite <- Exp at 1; apply Qmult_le_compat_r; [assumption | apply Qlt_le_weak, Hp]. }
  assert (Hhalf : ((1 # 2) * p <= x * Float64.pow2 (-53))%Q).
  { assert (E : ((1 # 2) * p == Float64.pow2 a * Float64.pow2 (-53))%Q).
    { unfold p; replace (a - 52) with (a + (-53) + 1) by lia.
      rewrite !pow2_add; change (Float64.pow2 1) with 2%Q; ring. }
    rewrite E; apply Qmult_le_compat_r; [assumption | apply Qlt_le_weak, pow2_pos]. }
  assert (B1 : (x - x * Float64.pow2 (-53) <= y)%Q) by (rewrite Ey; lra).
  assert (B2 : (y <= x + x * Float64.pow2 (-53))%Q) by (rewrite Ey; lra).
  assert (Hsmall : (x * Float64.pow2 (-53) < x)%Q).
  { rewrite <- (Qmult_1_r x) at 2.
    apply Qmult_lt_l; [assumption|].
    change 1%Q with (Float64.pow2 0); apply pow2_lt; lia. }
  destruct (Qle_bool (Float64.pow2 1024) (Qabs y)) eqn:Eo.
  - exfalso; apply Qle_bool_iff in Eo.
    rewrite Qabs_pos in Eo by lra.
    assert (E : (Float64.pow2 1024 == 2 * Float64.pow2 1023)%Q).
    { change 1024 with (1 + 1023); rewrite pow2_add; reflexivity. }
    rewrite E in Eo; lra.
  - exists y; auto.
Qed.


(** On these computations [Float64] gives what the Standard Library's
    specification of IEEE 754 gives: the step duration and the Cut Point of
    window 97 at 48000 samples a second, a square and two sums past
    [2 ^ 53], a sum that needs rounding, two ties among the subnormal
    numbers and an overflow. *)
Example Float64_as_SpecFloat :
  let sd := spec_div (spec_div (spec_of_Z 3) (spec_of_Z 100)) (spec_of_Z 10) in
  let third := spec_div (spec_of_Z 1) (spec_of_Z 3) in
  of_spec_float sd = Float64.step_duration /\
  of_spec_float (spec_mul (spec_mul (spec_of_Z 97) sd) (spec_of_Z 48000))
  = Float64.fmul (Float64.fmul (Num 97) Float64.step_duration) (Num 48000) /\
  of_spec_float (spec_mul (spec_of_Z 2147483647) (spec_of_Z 2147483647))
  = Float64.fmul (Num 2147483647) (Num 2147483647) /\
  of_spec_float (spec_add (spec_of_Z (2 ^ 53)) (spec_of_Z 1))
  = Float64.fadd (Num (inject_Z (2 ^ 53))) (Num 1) /\
  of_spec_float (spec_add (spec_of_Z (2 ^ 53)) (spec_of_Z 3))
  = Float64.fadd (Num (inject_Z (2 ^ 53))) (Num 3) /\
  of_spec_float (spec_add third (spec_of_Z (-7)))
  = Float64.fadd (Float64.round (1 # 3)) (Num (-7)) /\
  of_spec_float (spec_div (spec_div (spec_of_Z (-5)) (spec_of_Z (2 ^ 1000)))
                          (spec_of_Z (2 ^ 75)))
  = Float64.round (- (5 # (2 ^ 1075))) /\
  of_spec_float (spec_div (spec_div (spec_of_Z 3) (spec_of_Z (2 ^ 1000)))
                          (spec_of_Z (2 ^ 75)))
  = Float64.round (3 # (2 ^ 1075)) /\
  of_spec_float (spec_mul (spec_of_Z (2 ^ 1000)) (spec_of_Z (- 2 ^ 30)))
  = Float64.fmul (Num (inject_Z (2 ^ 1000))) (Num (inject_Z (- 2 ^ 30))).
Proof. vm_compute; repeat split. Qed.

(** ** Sums of whole numbers *)

Lemma fadd_integer (a b : Z) :
  Z.abs (a + b) <= 2 ^ 53 ->
  Float64.fadd (Num (inject_Z a)) (Num (inject_Z b)) = Num (inject_Z (a + b)).
Proof.
  intros H; cbn [Float64.fadd].
  rewrite (round_comp _ (inject_Z (a + b))) by (rewrite inject_Z_plus; reflexivity).
  apply round_integer; assumption.
Qed.

Lemma fmul_integer (a b : Z) :
  Z.abs (a * b) <= 2 ^ 53 ->
  Float64.fmul (Num (inject_Z a)) (Num (inject_Z b)) = Num (inject_Z (a * b)).
Proof.
  intros H; cbn [Float64.fmul].
  rewrite (round_comp _ (inject_Z (a * b))) by (rewrite inject_Z_mult; reflexivity).
  apply round_integer; assumption.
Qed.

Lemma sumZ_nonneg (zs : list Z) : Forall (fun z => 0 <= z) zs -> 0 <= sumZ zs.
Proof. induction 1; simpl; lia. Qed.

Lemma sumZ_app (a b : list Z) : sumZ (a ++ b) = sumZ a + sumZ b.
Proof. induction a; simpl; lia. Qed.

Lemma sumZ_firstn_skipn (n : nat) (zs : list Z) :
  sumZ (firstn n zs) + sumZ (skipn n zs) = sumZ zs.
Proof. rewrite <- sumZ_app, firstn_skipn; reflexivity. Qed.

Lemma Forall_firstn {A : Type} (P : A -> Prop) (n : nat) (l : list A) :
  Forall P l -> Forall P (firstn n l).
Proof.
  intros H; rewrite Forall_forall in *; intros x Hx; apply H.
  rewrite <- (firstn_skipn n l); apply in_or_app; left; assumption.
Qed.

Lemma Forall_skipn {A : Type} (P : A -> Prop) (n : nat) (l : list A) :
  Forall P l -> Forall P (skipn n l).
Proof.
  intros H; rewrite Forall_forall in *; intros x Hx; apply H.
  rewrite <- (firstn_skipn n l); apply in_or_app; right; assumption.
Qed.

Lemma fold_left_integers (zs : list Z) (a0 : Z) :
  0 <= a0 -> Forall (fun z => 0 <= z) zs -> a0 + sumZ zs <= 2 ^ 53 ->
  fold_left Float64.fadd (integers zs) (Num (inject_Z a0)) = Num (inject_Z (a0 + sumZ zs)).
Proof.
  intros Ha H; revert a0 Ha; induction H as [|z zs Hz Hzs IH]; intros a0 Ha Hb.
  - simpl; rewrite Z.add_0_r; reflexivity.
  - pose proof (sumZ_nonneg zs Hzs).
    cbn [integers map fold_left sumZ fold_right] in *; fold (sumZ zs) in *.
    rewrite fadd_integer by lia.
    fold (integers zs); rewrite IH by lia.
    do 2 f_equal; lia.
Qed.

Lemma zip_add_integers (rz az : list Z) :
  Forall (fun z => 0 <= z) rz -> Forall (fun z => 0 <= z) az ->
  sumZ rz + sumZ az <= 2 ^ 53 ->
  exists rz' : list Z,
    Float64.zip_add (integers rz) (integers az) = integers rz' /\
    List.length rz' = List.length rz /\
    Forall (fun z => 0 <= z) rz' /\
    sumZ rz' = sumZ rz + sumZ (firstn (List.length rz) az).
Proof.
  intros Hr; revert az; induction Hr as [|x rz Hx Hrz IH]; intros az Ha Hb.
  - exists []; repeat split; auto.
  - destruct Ha as [|y az Hy Haz].
    + exists (x :: rz); simpl; repeat split; auto; lia.
    + pose proof (sumZ_nonneg rz Hrz); pose proof (sumZ_nonneg az Haz).
      cbn [sumZ fold_right] in Hb; fold (sumZ rz) (sumZ az) in Hb.
      destruct (IH az Haz ltac:(lia)) as (rz' & E & Hl & Hn & Hs).
      exists (x + y :: rz').
      cbn [integers map Float64.zip_add]; fold (integers rz) (integers az).
      rewrite fadd_integer, E by lia.
      split; [reflexivity|]; split; [simpl; lia|]; split; [constructor; [lia | assumption]|].
      cbn [List.length firstn sumZ fold_right]; fold (sumZ rz') (sumZ rz).
      fold (sumZ (firstn (List.length rz) az)); lia.
Qed.

Lemma integers_firstn (n : nat) (zs : list Z) :
  firstn n (integers zs) = integers (firstn n zs).
Proof. apply firstn_map. Qed.

Lemma integers_skipn (n : nat) (zs : list Z) :
  skipn n (integers zs) = integers (skipn n zs).
Proof. apply skipn_map. Qed.

Lemma add_blocks_integers (blocks : nat) (rz az : list Z) :
  Forall (fun z => 0 <= z) rz -> Forall (fun z => 0 <= z) az ->
  sumZ rz + sumZ az <= 2 ^ 53 -> List.length rz = 8%nat ->
  exists rz' az' : list Z,
    Float64.add_blocks blocks (integers rz) (integers az) = (integers rz', integers az') /\
    List.length rz' = 8%nat /\
    Forall (fun z => 0 <= z) rz' /\ Forall (fun z => 0 <= z) az' /\
    sumZ rz' + sumZ az' = sumZ rz + sumZ az.
Proof.
  revert rz az; induction blocks as [|b IH]; intros rz az Hr Ha Hb Hl.
  - exists rz, az; repeat split; auto.
  - cbn [Float64.add_blocks]; rewrite integers_firstn, integers_skipn.
    pose proof (sumZ_firstn_skipn 8 az) as Hsplit.
    pose proof (sumZ_nonneg _ (Forall_firstn _ 8 az Ha)).
    pose proof (sumZ_nonneg _ (Forall_skipn _ 8 az Ha)).
    destruct (zip_add_integers rz (firstn 8 az) Hr (Forall_firstn _ 8 az Ha)
                ltac:(lia)) as (rz1 & E & Hl1 & Hn1 & Hs1).
    rewrite E.
    assert (Ef : firstn (List.length rz) (firstn 8 az) = firstn 8 az).
    { rewrite Hl, firstn_firstn; reflexivity. }
    rewrite Ef in Hs1.
    destruct (IH rz1 (skipn 8 az) Hn1 (Forall_skipn _ 8 az Ha) ltac:(lia)
                ltac:(lia)) as (rz' & az' & E' & Hl' & Hn' & Ha' & Hs').
    exists rz', az'; repeat split; auto; lia.
Qed.

Lemma pairwise_sum_small (fuel : nat) (a : list npfloat) :
  (List.length a < 8)%nat -> Float64.pairwise_sum fuel a = fold_left Float64.fadd a (Num 0).
Proof.
  intros H; apply Nat.ltb_lt in H.
  destruct fuel; cbn [Float64.pairwise_sum]; rewrite H; reflexivity.
Qed.

Lemma pairwise_sum_block (fuel : nat) (a : list npfloat) :
  (8 <= List.length a <= 128)%nat ->
  Float64.pairwise_sum fuel a
  = match Float64.add_blocks (List.length a / 8 - 1) (firstn 8 a) (skipn 8 a) with
    | ([r0; r1; r2; r3; r4; r5; r6; r7], rest) =>
        fold_left Float64.fadd rest
                  (Float64.fadd (Float64.fadd (Float64.fadd r0 r1) (Float64.fadd r2 r3))
                        (Float64.fadd (Float64.fadd r4 r5) (Float64.fadd r6 r7)))
    | _ => NaN
    end.
Proof.
  intros (H1 & H2).
  assert (E1 : (List.length a <? 8)%nat = false) by (apply Nat.ltb_ge; assumption).
  apply Nat.leb_le in H2.
  destruct fuel; cbn [Float64.pairwise_sum]; rewrite E1, H2; reflexivity.
Qed.

Lemma pairwise_sum_split (fuel : nat) (a : list npfloat) :
  (128 < List.length a)%nat ->
  Float64.pairwise_sum (S fuel) a
  = let n2 := (List.length a / 2 - (List.length a / 2) mod 8)%nat in
    Float64.fadd (Float64.pairwise_sum fuel (firstn n2 a)) (Float64.pairwise_sum fuel (skipn n2 a)).
Proof.
  intros H.
  assert (E1 : (List.length a <? 8)%nat = false) by (apply Nat.ltb_ge; lia).
  assert (E2 : (List.length a <=? 128)%nat = false) by (apply Nat.leb_gt; lia).
  cbn [Float64.pairwise_sum]; rewrite E1, E2; reflexivity.
Qed.

Lemma integers_length (zs : list Z) : List.length (integers zs) = List.length zs.
Proof. apply length_map. Qed.

Lemma pairwise_sum_integers_small (fuel : nat) (zs : list Z) :
  Forall (fun z => 0 <= z) zs -> sumZ zs <= 2 ^ 53 ->
  (List.length zs < 8)%nat ->
  Float64.pairwise_sum fuel (integers zs) = Num (inject_Z (sumZ zs)).
Proof.
  intros Hz Hb Hn.
  rewrite pairwise_sum_small by (rewrite integers_length; assumption).
  change (Num 0) with (Num (inject_Z 0)).
  rewrite fold_left_integers by (assumption || lia); reflexivity.
Qed.

Lemma pairwise_sum_integers_block (fuel : nat) (zs : list Z) :
  Forall (fun z => 0 <= z) zs -> sumZ zs <= 2 ^ 53 ->
  (8 <= List.length zs <= 128)%nat ->
  Float64.pairwise_sum fuel (integers zs) = Num (inject_Z (sumZ zs)).
Proof.
  intros Hz Hb Hn.
  rewrite pairwise_sum_block by (rewrite integers_length; assumption).
  rewrite integers_length, integers_firstn, integers_skipn.
  pose proof (sumZ_firstn_skipn 8 zs) as Hsplit.
  destruct (add_blocks_integers (List.length zs / 8 - 1)
              (firstn 8 zs) (skipn 8 zs)
              (Forall_firstn _ 8 zs Hz) (Forall_skipn _ 8 zs Hz)
              ltac:(lia) ltac:(rewrite length_firstn; lia))
    as (rz & az & E & Hlr & Hnr & Hna & Hs).
  rewrite E.
  destruct rz as [|r0 [|r1 [|r2 [|r3 [|r4 [|r5 [|r6 [|r7 [|? ?]]]]]]]]];
    try discriminate Hlr.
  cbn [integers map].
  pose proof (sumZ_nonneg az Hna).
  repeat match goal with
         | H : Forall _ (_ :: _) |- _ => inversion H; subst; clear H
         end.
  cbn [sumZ fold_right] in Hs; fold (sumZ az) in Hs.
  rewrite !fadd_integer by lia.
  fold (integers az).
  rewrite fold_left_integers by (assumption || lia).
  do 2 f_equal; lia.
Qed.

(** The sum of whole numbers that are not negative and add up to at most
    [2 ^ 53] is exact, with fuel for every split. *)
Lemma pairwise_sum_integers (fuel : nat) (zs : list Z) :
  Forall (fun z => 0 <= z) zs -> sumZ zs <= 2 ^ 53 ->
  (List.length zs <= fuel + 128)%nat ->
  Float64.pairwise_sum fuel (integers zs) = Num (inject_Z (sumZ zs)).
Proof.
  revert zs; induction fuel as [|fuel IH]; intros zs Hz Hb Hl.
  - destruct (Nat.lt_ge_cases (List.length zs) 8) as [Hn|Hn].
    + apply pairwise_sum_integers_small; assumption.
    + apply pairwise_sum_integers_block; try assumption; lia.
  - destruct (Nat.lt_ge_cases (List.length zs) 8) as [Hn|Hn];
      [apply pairwise_sum_integers_small; assumption|].
    destruct (Nat.le_gt_cases (List.length zs) 128) as [Hn'|Hn'];
      [apply pairwise_sum_integers_block; try assumption; lia|].
    rewrite pairwise_sum_split by (rewrite integers_length; assumption).
    cbv zeta; rewrite integers_length.
    set (n2 := (List.length zs / 2 - (List.length zs / 2) mod 8)%nat).
    assert (Hn2 : (0 < n2 < List.length zs)%nat).
    { unfold n2.
      pose proof (Nat.mod_upper_bound (List.length zs / 2) 8 ltac:(lia)).
      pose proof (Nat.div_lt (List.length zs) 2 ltac:(lia) ltac:(lia)).
      assert (64 <= List.length zs / 2)%nat
        by (apply Nat.div_le_lower_bound; lia).
      lia. }
    rewrite integers_firstn, integers_skipn.
    pose proof (sumZ_firstn_skipn n2 zs) as Hsplit.
    pose proof (sumZ_nonneg _ (Forall_firstn _ n2 zs Hz)).
    pose proof (sumZ_nonneg _ (Forall_skipn _ n2 zs Hz)).
    rewrite !IH.
    + rewrite fadd_integer by lia; do 2 f_equal; lia.
    + apply Forall_skipn; assumption.
    + lia.
    + rewrite length_skipn; lia.
    + apply Forall_firstn; assumption.
    + lia.
    + rewrite length_firstn; lia.
Qed.

Lemma np_sum_integers (zs : list Z) :
  Forall (fun z => 0 <= z) zs -> sumZ zs <= 2 ^ 53 ->
  Float64.np_sum (integers zs) = Num (inject_Z (sumZ zs)).
Proof.
  intros Hz Hb; unfold Float64.np_sum; apply pairwise_sum_integers; try assumption.
  rewrite integers_length; lia.
Qed.

(** ** [energy] in binary64 *)

Lemma np_power_integers (xs : list Z) :
  Forall (fun x => x * x <= 2 ^ 53) xs ->
  Float64.np_power (map inject_Z xs) = integers (map (fun x => x * x) xs).
Proof.
  induction 1 as [|x xs Hx _ IH]; [reflexivity|].
  cbn [map Float64.np_power integers] in *; cbv zeta.
  rewrite round_integer by nia.
  rewrite fmul_integer by nia.
  f_equal; exact IH.
Qed.

Lemma energy_integers (xs : list Z) :
  xs <> [] -> len xs <= 2 ^ 53 ->
  sumZ (map (fun x => x * x) xs) <= 2 ^ 53 ->
  Float64.energy (map inject_Z xs)
  = Float64.round (inject_Z (sumZ (map (fun x => x * x) xs)) / inject_Z (len xs)).
Proof.
  intros Hne Hlen Hsum; unfold Float64.energy.
  assert (Hsq : Forall (fun z => 0 <= z) (map (fun x => x * x) xs)).
  { apply Forall_map, Forall_forall; intros x _; nia. }
  assert (Hx : Forall (fun x => x * x <= 2 ^ 53) xs).
  { clear Hne Hlen; induction xs as [|x xs IH]; constructor.
    - cbn [map sumZ fold_right] in Hsum.
      inversion Hsq as [|? ? _ Hsq']; subst.
      pose proof (sumZ_nonneg _ Hsq') as H0; unfold sumZ in H0; lia.
    - inversion Hsq as [|? ? H0 Hsq']; subst.
      cbn [map sumZ fold_right] in Hsum; apply IH; [|assumption].
      unfold sumZ; lia. }
  rewrite np_power_integers, np_sum_integers by assumption.
  unfold len at 1; rewrite length_map; fold (len xs).
  assert (Hpos : 0 < len xs).
  { unfold len; destruct xs; [contradiction | simpl; lia]. }
  rewrite round_integer by lia.
  cbn [Float64.fdiv].
  destruct (Qeq_bool (inject_Z (len xs)) 0) eqn:E; [|reflexivity].
  apply Qeq_bool_eq in E; unfold Qeq in E; simpl in E; lia.
Qed.

Lemma sumZ_repeat (z : Z) (n : nat) : sumZ (repeat z n) = Z.of_nat n * z.
Proof. induction n; cbn [repeat sumZ fold_right] in *; [|unfold sumZ in IHn]; lia. Qed.

Lemma energy_constant_integer (c : Z) (L : nat) :
  (0 < L)%nat -> Z.of_nat L <= 2 ^ 53 -> Z.of_nat L * (c * c) <= 2 ^ 53 ->
  Float64.energy (repeat (inject_Z c) L) = Num (inject_Z (c * c)).
Proof.
  intros HL HL' Hb.
  replace (repeat (inject_Z c) L) with (map inject_Z (repeat c L))
    by apply map_repeat.
  assert (Hlen : len (repeat c L) = Z.of_nat L)
    by (unfold len; rewrite repeat_length; reflexivity).
  rewrite energy_integers.
  - rewrite map_repeat, sumZ_repeat, Hlen.
    rewrite (round_comp _ (inject_Z (c * c))).
    + apply round_integer; nia.
    + rewrite inject_Z_mult; field.
      intros E; unfold Qeq in E; simpl in E; lia.
  - destruct L; [lia | discriminate].
  - rewrite Hlen; assumption.
  - rewrite map_repeat, sumZ_repeat; assumption.
Qed.

(** ** Cut Points in binary64 *)

Lemma py_float_integer (k : Z) :
  Z.abs k <= 2 ^ 53 -> Float64.py_float k = Ok (Num (inject_Z k)).
Proof. intros H; unfold Float64.py_float; rewrite round_integer by assumption; reflexivity. Qed.

Lemma py_int_floor (x : Q) : (0 <= x)%Q -> py_int x = Qfloor x.
Proof.
  destruct x as [n d]; unfold Qle, py_int, Qfloor; cbn [Qnum Qden]; intros H.
  apply Z.quot_div_nonneg; lia.
Qed.

Lemma round_zero (x : Q) : (x == 0)%Q -> Float64.round x = Num 0.
Proof. intros E; rewrite (round_comp _ _ E); reflexivity. Qed.

Lemma pow2_m53 : (Float64.pow2 (-53) == 1 # 9007199254740992)%Q.
Proof. reflexivity. Qed.

(** A product in the range of the cut computation is rounded by less than
    the fraction [2 ^ -53] of it. *)
Lemma fmul_near (x y : Q) :
  (1 # 1024 <= x * y)%Q -> (x * y <= 1152921504606846976)%Q ->
  exists z : Q,
    Float64.fmul (Num x) (Num y) = Num z /\
    (x * y - x * y * (1 # 9007199254740992) <= z)%Q /\
    (z <= x * y + x * y * (1 # 9007199254740992))%Q.
Proof.
  intros Hlo Hhi; cbn [Float64.fmul].
  destruct (round_near (x * y)) as (z & E & H1 & H2).
  - apply Qle_trans with (1 # 1024)%Q; [|assumption].
    change (1 # 1024)%Q with (Float64.pow2 (-10)); apply pow2_le; lia.
  - apply Qle_lt_trans with 1152921504606846976%Q; [assumption|].
    change 1152921504606846976%Q with (inject_Z (2 ^ 60)).
    rewrite <- pow2_Z by lia; apply pow2_lt; lia.
  - rewrite pow2_m53 in H1, H2; exists z; auto.
Qed.

Lemma cut_sample_near (s : Q) (sr r : Z) :
  (1 # 512 <= s)%Q -> (s <= 1 # 256)%Q ->
  1 <= sr <= 2 ^ 32 -> 0 <= r -> r * sr <= 2 ^ 50 ->
  exists ss c : Z,
    Float64.step_size (Num s) sr = Ok ss /\
    Float64.cut_sample (Num s) sr r = Ok c /\
    0 <= ss /\ r * ss - 1 <= c <= r * ss + r.
Proof.
  intros Hs1 Hs2 Hsr Hr Hb.
  unfold Float64.step_size, Float64.cut_sample.
  rewrite !py_float_integer by lia; cbn [bind].
  assert (Qsr : (1 <= inject_Z sr)%Q) by (rewrite <- (Zle_Qle 1); lia).
  assert (Qsr' : (inject_Z sr <= 4294967296)%Q).
  { change 4294967296%Q with (inject_Z (2 ^ 32)); rewrite <- Zle_Qle; lia. }
  (* the step *)
  assert (Ha1 : (1 # 512 <= s * inject_Z sr)%Q) by nra.
  assert (Ha2 : (s * inject_Z sr <= 4294967296)%Q) by nra.
  destruct (fmul_near s (inject_Z sr)) as (vs & Evs & Hvs1 & Hvs2); [lra | lra |].
  rewrite Evs; cbn [Float64.float_int].
  assert (Hvs0 : (0 <= vs)%Q) by lra.
  rewrite (py_int_floor vs Hvs0).
  pose proof (Qfloor_le vs) as Hf1; pose proof (Qlt_floor vs) as Hf2.
  set (ss := Qfloor vs) in *.
  assert (Hss0 : 0 <= ss).
  { change 0 with (Qfloor 0); apply Qfloor_resp_le; assumption. }
  destruct (Z.eq_dec r 0) as [->|Hr0].
  { (* no window before: the cut is sample 0 *)
    exists ss, 0; split; [reflexivity|].
    cbn [Float64.fmul].
    rewrite (round_zero (inject_Z 0 * s)) by ring.
    cbn [Float64.fmul]; rewrite (round_zero (0 * inject_Z sr)) by ring.
    split; [reflexivity|]; lia. }
  assert (Qr : (1 <= inject_Z r)%Q) by (rewrite <- (Zle_Qle 1); lia).
  assert (Qb : (inject_Z r * inject_Z sr <= 1125899906842624)%Q).
  { change 1125899906842624%Q with (inject_Z (2 ^ 50)).
    rewrite <- inject_Z_mult, <- Zle_Qle; assumption. }
  assert (Qr' : (inject_Z r <= 1125899906842624)%Q).
  { change 1125899906842624%Q with (inject_Z (2 ^ 50)); rewrite <- Zle_Qle; nia. }
  set (X := (inject_Z r * s * inject_Z sr)%Q).
  assert (HX1 : (1 # 512 <= X)%Q) by (unfold X; nra).
  assert (HX2 : (X <= 4398046511104)%Q).
  { unfold X.
    setoid_replace (inject_Z r * s * inject_Z sr)%Q
      with ((inject_Z r * inject_Z sr) * s)%Q by ring.
    nra. }
  (* the cut time *)
  destruct (fmul_near (inject_Z r) s) as (t & Et & Ht1 & Ht2).
  { nra. }
  { nra. }
  rewrite Et.
  set (u := (1 # 9007199254740992)%Q) in *.
  set (rs := (inject_Z r * s)%Q) in *.
  assert (Hrs : (1 # 512 <= rs)%Q) by (unfold rs; nra).
  assert (Ht0 : (0 <= t)%Q) by (unfold u in *; lra).
  (* the cut *)
  assert (HT1 : (X - X * u <= t * inject_Z sr)%Q).
  { setoid_replace (X - X * u)%Q with ((rs - rs * u) * inject_Z sr)%Q
      by (unfold X, rs; ring).
    apply Qmult_le_compat_r; [assumption | lra]. }
  assert (HT2 : (t * inject_Z sr <= X + X * u)%Q).
  { setoid_replace (X + X * u)%Q with ((rs + rs * u) * inject_Z sr)%Q
      by (unfold X, rs; ring).
    apply Qmult_le_compat_r; [assumption | lra]. }
  destruct (fmul_near t (inject_Z sr)) as (v & Ev & Hv1 & Hv2);
    [unfold u in *; lra | unfold u in *; lra |].
  rewrite Ev; cbn [Float64.float_int].
  fold u in Hv1, Hv2.
  assert (Hv0 : (0 <= v)%Q) by (unfold u in *; lra).
  rewrite (py_int_floor v Hv0).
  pose proof (Qfloor_le v) as Hc1; pose proof (Qlt_floor v) as Hc2.
  set (c := Qfloor v) in *.
  exists ss, c; split; [reflexivity|]; split; [reflexivity|]; split; [assumption|].
  (* the window start against the exact product *)
  assert (HR1 : (inject_Z (r * ss) <= X + X * u)%Q).
  { rewrite inject_Z_mult.
    apply Qle_trans with (inject_Z r * vs)%Q; [nra|].
    setoid_replace (X + X * u)%Q
      with (inject_Z r * (s * inject_Z sr + s * inject_Z sr * u))%Q
      by (unfold X, rs; ring).
    apply Qmult_le_l; [lra | assumption]. }
  assert (HR2 : (X - X * u <= inject_Z (r * ss + r))%Q).
  { rewrite inject_Z_plus, inject_Z_mult.
    apply Qle_trans with (inject_Z r * vs)%Q.
    - setoid_replace (X - X * u)%Q
        with (inject_Z r * (s * inject_Z sr - s * inject_Z sr * u))%Q
        by (unfold X, rs; ring).
      apply Qmult_le_l; [lra | assumption].
    - rewrite inject_Z_plus in Hf2; change (inject_Z 1) with 1%Q in Hf2; nra. }
  rewrite inject_Z_plus in Hc2; change (inject_Z 1) with 1%Q in Hc2.
  assert (G1 : (inject_Z (r * ss) < inject_Z (c + 2))%Q).
  { rewrite inject_Z_plus; change (inject_Z 2) with 2%Q; unfold u in *; lra. }
  assert (G2 : (inject_Z c < inject_Z (r * ss + r + 1))%Q).
  { rewrite (inject_Z_plus (r * ss + r) 1); change (inject_Z 1) with 1%Q.
    unfold u in *; lra. }
  rewrite <- Zlt_Qlt in G1, G2; lia.
Qed.

(** ** What rounding gives is a double *)

Lemma round_half_even_le (q : Q) (b : Z) :
  (q <= inject_Z b)%Q -> round_half_even q <= b.
Proof.
  intros H; destruct (round_half_even_error q) as (H1 & _).
  assert (G : (inject_Z (round_half_even q) < inject_Z (b + 1))%Q).
  { rewrite inject_Z_plus; change (inject_Z 1) with 1%Q; lra. }
  rewrite <- Zlt_Qlt in G; lia.
Qed.

Lemma round_half_even_ge (q : Q) (b : Z) :
  (inject_Z b <= q)%Q -> b <= round_half_even q.
Proof.
  intros H; destruct (round_half_even_error q) as (_ & H2).
  assert (G : (inject_Z b < inject_Z (round_half_even q + 1))%Q).
  { rewrite inject_Z_plus; change (inject_Z 1) with 1%Q; lra. }
  rewrite <- Zlt_Qlt in G; lia.
Qed.

(** The significand that rounding gives has at most 53 bits, and all 53
    above [2 ^ -1022]. *)
Lemma significand_bounds (x : Q) :
  ~ (x == 0)%Q ->
  let a := Float64.exponent (Qabs x) in
  let e := Z.max (a - 52) (-1074) in
  let m := round_half_even (x / Float64.pow2 e) in
  Z.abs m <= 2 ^ 53 /\ (-1022 <= a -> 2 ^ 52 <= Z.abs m).
Proof.
  intros Hx a e m.
  destruct (exponent_spec (Qabs x) (Qabs_nonzero x Hx)) as (Ha1 & Ha2).
  fold a in Ha1, Ha2.
  set (p := Float64.pow2 e).
  assert (Hp : (0 < p)%Q) by apply pow2_pos.
  assert (Hp0 : ~ (p == 0)%Q) by (intros E; rewrite E in Hp; discriminate Hp).
  assert (Hup : (Qabs x <= inject_Z (2 ^ 53) * p)%Q).
  { apply Qlt_le_weak, Qlt_le_trans with (Float64.pow2 (a + 1)); [assumption|].
    rewrite <- pow2_Z by lia; unfold p; rewrite <- pow2_add.
    apply pow2_le; lia. }
  apply Qabs_Qle_condition in Hup; destruct Hup as (Hup1 & Hup2).
  assert (Hq1 : (inject_Z (- 2 ^ 53) <= x / p)%Q).
  { apply Qle_shift_div_l; [assumption|].
    rewrite inject_Z_opp.
    setoid_replace (- inject_Z (2 ^ 53) * p)%Q with (- (inject_Z (2 ^ 53) * p))%Q
      by ring.
    assumption. }
  assert (Hq2 : (x / p <= inject_Z (2 ^ 53))%Q).
  { apply Qle_shift_div_r; assumption. }
  apply round_half_even_ge in Hq1; apply round_half_even_le in Hq2.
  fold e p in m; fold m in Hq1, Hq2.
  split; [lia|].
  intros Ha.
  assert (Ee : e = a - 52) by lia.
  assert (Hlow : (inject_Z (2 ^ 52) * p <= Qabs x)%Q).
  { apply Qle_trans with (Float64.pow2 a); [|assumption].
    rewrite <- pow2_Z by lia; unfold p; rewrite <- pow2_add, Ee.
    apply pow2_le; lia. }
  destruct (Qlt_le_dec x 0) as [Hneg|Hpos].
  - rewrite Qabs_neg in Hlow by (apply Qlt_le_weak; assumption).
    assert (Hq : (x / p <= inject_Z (- 2 ^ 52))%Q).
    { apply Qle_shift_div_r; [assumption|].
      rewrite inject_Z_opp.
      setoid_replace (- inject_Z (2 ^ 52) * p)%Q with (- (inject_Z (2 ^ 52) * p))%Q
        by ring.
      lra. }
    apply round_half_even_le in Hq; fold m in Hq; lia.
  - rewrite Qabs_pos in Hlow by assumption.
    assert (Hq : (inject_Z (2 ^ 52) <= x / p)%Q).
    { apply Qle_shift_div_l; assumption. }
    apply round_half_even_ge in Hq; fold m in Hq; lia.
Qed.

Lemma Qabs_scaled (m : Z) (p : Q) :
  (0 < p)%Q -> (Qabs (inject_Z m * p) == inject_Z (Z.abs m) * p)%Q.
Proof.
  intros Hp; rewrite Qabs_Qmult, (Qabs_pos p) by (apply Qlt_le_weak; assumption).
  reflexivity.
Qed.

(** What rounding gives is a double: rounding it again changes nothing. *)
Lemma round_idempotent (x y : Q) : Float64.round x = Num y -> Float64.round y = Num y.
Proof.
  intros E.
  destruct (Qeq_dec x 0) as [E0|Hx].
  { rewrite (round_zero x E0) in E; injection E as <-; reflexivity. }
  rewrite round_unfold in E by assumption; cbv zeta in E.
  destruct (significand_bounds x Hx) as (Hm & Hm'); cbv zeta in Hm, Hm'.
  set (a := Float64.exponent (Qabs x)) in *.
  set (e := Z.max (a - 52) (-1074)) in *.
  set (m := round_half_even (x / Float64.pow2 e)) in *.
  destruct (Qle_bool _ _) eqn:Eo; [discriminate|].
  assert (Ey : Qred (inject_Z m * Float64.pow2 e) = y) by congruence.
  clear E; subst y.
  assert (Hy : (Qabs (inject_Z m * Float64.pow2 e) < Float64.pow2 1024)%Q).
  { apply Qnot_le_lt; intros H.
    rewrite <- (Qred_correct (inject_Z m * Float64.pow2 e)) in H.
    apply Qle_bool_iff in H; congruence. }
  rewrite Qabs_scaled in Hy by apply pow2_pos.
  rewrite (round_comp _ _ (Qred_correct _)).
  assert (He0 : -1074 <= e) by (unfold e; lia).
  assert (Hae : 971 < e -> -1022 <= a) by (unfold e; lia).
  clearbody m e a; clear Eo.
  destruct (Z.eq_dec (Z.abs m) (2 ^ 53)) as [Em|Em].
  - (* the significand rounded up to the next power of two *)
    assert (He : e + 1 <= 971).
    { destruct (Z.le_gt_cases (e + 1) 971) as [|Hgt]; [assumption|].
      exfalso; apply (Qlt_not_le _ _ Hy).
      rewrite Em, <- pow2_Z, <- pow2_add by lia; apply pow2_le; lia. }
    assert (Ex : (inject_Z m * Float64.pow2 e == inject_Z (m / 2) * Float64.pow2 (e + 1))%Q).
    { assert (En : m = (m / 2) * 2).
      { destruct (Z.abs_spec m) as [[_ A]|[_ A]]; rewrite A in Em.
        - subst m; reflexivity.
        - replace m with (- 2 ^ 53) by lia; reflexivity. }
      rewrite En at 1; rewrite inject_Z_mult, pow2_add.
      change (Float64.pow2 1) with 2%Q; change (inject_Z 2) with 2%Q; ring. }
    rewrite (round_comp _ _ Ex), round_exact.
    + f_equal; apply Qred_complete; symmetry; exact Ex.
    + destruct (Z.abs_spec m) as [[_ A]|[_ A]]; rewrite A in Em.
      * rewrite Em; reflexivity.
      * replace m with (- 2 ^ 53) by lia; reflexivity.
    + lia.
  - destruct (Z.eq_dec m 0) as [->|Hm0].
    { rewrite round_zero by ring.
      f_equal; change 0%Q with (Qred 0); apply Qred_complete; ring. }
    apply round_exact; [lia|].
    split; [lia|].
    destruct (Z.le_gt_cases e 971) as [|Hgt]; [assumption|].
    exfalso; apply (Qlt_not_le _ _ Hy).
    apply Qle_trans with (Float64.pow2 52 * Float64.pow2 e)%Q.
    + rewrite <- pow2_add; apply pow2_le; lia.
    + apply Qmult_le_compat_r; [|apply Qlt_le_weak, pow2_pos].
      rewrite pow2_Z by lia; rewrite <- Zle_Qle; apply Hm', Hae; assumption.
Qed.

(** ** The energy of a constant sequence *)

Lemma energy_single (c : Q) :
  Float64.energy [c] = let f := Float64.round c in Float64.fmul f f.
Proof.
  unfold Float64.energy, Float64.np_sum, Float64.np_power; cbn [map List.length].
  cbv zeta; set (y := Float64.fmul (Float64.round c) (Float64.round c)).
  rewrite pairwise_sum_small by (simpl; lia).
  cbn [fold_left].
  assert (E1 : Float64.round (inject_Z (len [c])) = Num 1) by (vm_compute; reflexivity).
  rewrite E1; clear E1.
  assert (Hy : forall z : Q, y = Num z -> Float64.round z = Num z).
  { unfold y; intros z E.
    destruct (Float64.round c) as [x|s|]; cbn [Float64.fmul] in E; try discriminate.
    apply (round_idempotent _ _ E). }
  destruct y as [z|s|]; cbn [Float64.fadd Float64.fdiv].
  - rewrite (round_comp (0 + z) z) by ring.
    rewrite (Hy z eq_refl); cbn [Float64.fdiv].
    change (Qeq_bool 1 0) with false; cbv iota.
    rewrite (round_comp (z / 1) z) by (field; discriminate).
    apply Hy; reflexivity.
  - change (Qltb 1 0) with false; rewrite xorb_false_r; reflexivity.
  - reflexivity.
Qed.

(** C9.  [energy] is the sum of the squares of the samples divided by their
    count, computed in binary64, where every step rounds.  On whole samples
    whose squares add up to at most [2 ^ 53] every step before the division
    is exact, and the energy is the quotient, rounded once; so the energy
    of a constant sequence of [L] samples [c] with [L * c ^ 2] at most
    [2 ^ 53] is [c ^ 2] itself.  The energy of one sample, whatever it is,
    is the double nearest to the square of the sample as a double. *)
Theorem energy_binary64 :
  (forall samples : list Z,
      samples <> [] -> len samples <= 2 ^ 53 ->
      sumZ (map (fun x => x * x) samples) <= 2 ^ 53 ->
      Float64.energy (map inject_Z samples)
      = Float64.round (inject_Z (sumZ (map (fun x => x * x) samples))
               / inject_Z (len samples))) /\
  (forall (c : Z) (L : nat),
      (0 < L)%nat -> Z.of_nat L <= 2 ^ 53 -> Z.of_nat L * (c * c) <= 2 ^ 53 ->
      Float64.energy (repeat (inject_Z c) L) = Num (inject_Z (c * c))) /\
  (forall c : Q, Float64.energy [c] = Float64.fmul (Float64.round c) (Float64.round c)).
Proof.
  split; [exact energy_integers|].
  split; [exact energy_constant_integer | exact energy_single].
Qed.

(** The theorem at a window of two hundred samples of -32768. *)
Lemma energy_binary64_witness :
  Float64.energy (repeat (inject_Z (-32768)) 200) = Num (inject_Z (-32768 * -32768)).
Proof.
  destruct energy_binary64 as (_ & H & _).
  apply (H (-32768) 200%nat); lia.
Defined.

(** Past these bounds the energy of a constant sequence is [c ^ 2] up to
    rounding only.  The square of 2147483647, the full scale of 32 bits, is
    no double, and the energy of that one sample is one below it; three
    samples of the double nearest to 3/10 have an energy that is neither
    the square of the sample nor the double nearest to it. *)
Lemma energy_constant_rounds :
  Float64.energy [2147483647%Q] = Num 4611686014132420608
  /\ ~ (4611686014132420608 == 2147483647 ^ 2)%Q
  /\ exists c e : Q,
       Float64.round (3 # 10) = Num c /\ Float64.energy [c; c; c] = Num e
       /\ ~ (e == c ^ 2)%Q /\ Float64.fmul (Num c) (Num c) <> Num e.
Proof.
  split; [vm_compute; reflexivity|].
  split; [intros E; vm_compute in E; discriminate E|].
  eexists; eexists.
  split; [vm_compute; reflexivity|].
  split; [vm_compute; reflexivity|].
  split; [intros E; vm_compute in E; discriminate E|].
  intros E; vm_compute in E; discriminate E.
Qed.

(** ** The cut list *)

Lemma step_duration_value :
  Float64.step_duration = Num (3458764513820541 # 1152921504606846976).
Proof. vm_compute; reflexivity. Qed.

Lemma step_duration_range :
  (1 # 512 <= 3458764513820541 # 1152921504606846976)%Q /\
  (3458764513820541 # 1152921504606846976 <= 1 # 256)%Q.
Proof. split; unfold Qle; simpl; lia. Qed.

Lemma mapM_ext_in {A B : Type} (f g : A -> result B) (l : list A) :
  (forall a : A, In a l -> f a = g a) -> mapM f l = mapM g l.
Proof.
  induction l as [|a l IH]; intros H; [reflexivity|].
  cbn [mapM]; rewrite (H a) by (left; reflexivity).
  rewrite IH by (intros b Hb; apply H; right; assumption); reflexivity.
Qed.

Lemma mapM_total {A B : Type} (f : A -> result B) (l : list A) :
  (forall a : A, In a l -> exists b : B, f a = Ok b) ->
  exists bs : list B, mapM f l = Ok bs /\ List.length bs = List.length l.
Proof.
  induction l as [|a l IH]; intros H; [exists []; auto|].
  destruct (H a (or_introl eq_refl)) as (b & Eb).
  destruct IH as (bs & Ebs & Hl); [intros x Hx; apply H; right; assumption|].
  exists (b :: bs); cbn [mapM bind]; rewrite Eb; cbn [bind]; rewrite Ebs.
  split; [reflexivity | simpl; congruence].
Qed.

(** C4.  The Edge Detector yields window index [k] exactly when the flag of
    window [k] is set and the flag before it is not, the flag before the
    first window reading as not set; it yields the indices in increasing
    order, each once, and a sequence whose first flag is set yields index 0
    first.  The cut list is the Cut Points of these indices, in their
    order, followed by -1, and the Cut Point of index [k] is [k] times
    [step_duration], a double, times the sample rate, a double again,
    truncated to an integer.  With the step duration of a run, a sample
    rate of at most [2 ^ 32] and [len(flags) * sample_rate] at most
    [2 ^ 50], every conversion returns. *)
Theorem rising_edges_cut_points (flags : list bool) :
  (forall k : Z,
      In k (rising_edges flags) <->
      0 <= k < len flags /\ flag flags k = true /\ flag flags (k - 1) = false) /\
  StronglySorted Z.lt (rising_edges flags) /\
  (forall rest : list bool, hd_error (rising_edges (true :: rest)) = Some 0) /\
  (forall (sd : npfloat) (sr : Z),
      len flags <= 2 ^ 53 -> Z.abs sr <= 2 ^ 53 ->
      Float64.cut_samples sd sr flags
      = (cuts <- mapM (fun k =>
                         Float64.float_int (Float64.fmul (Float64.fmul (Num (inject_Z k)) sd)
                                         (Num (inject_Z sr))))
                      (rising_edges flags) ;;
         Ok (cuts ++ [-1]))%py) /\
  (forall sr : Z,
      1 <= sr <= 2 ^ 32 -> len flags * sr <= 2 ^ 50 ->
      exists cuts : list Z,
        Float64.cut_samples Float64.step_duration sr flags = Ok (cuts ++ [-1])%list /\
        List.length cuts = List.length (rising_edges flags)).
Proof.
  split; [intros k; apply rising_edges_In|].
  split; [apply rising_edges_sorted|].
  split; [reflexivity|].
  split.
  - intros sd sr Hlen Hsr; unfold Float64.cut_samples.
    rewrite (mapM_ext_in (Float64.cut_sample sd sr)
               (fun k => Float64.float_int (Float64.fmul (Float64.fmul (Num (inject_Z k)) sd)
                                         (Num (inject_Z sr))))); [reflexivity|].
    intros k Hk; apply rising_edges_In in Hk.
    unfold Float64.cut_sample; rewrite !py_float_integer by lia; reflexivity.
  - intros sr Hsr Hb; unfold Float64.cut_samples.
    destruct (mapM_total (Float64.cut_sample Float64.step_duration sr) (rising_edges flags))
      as (cuts & E & Hl).
    + intros k Hk; apply rising_edges_In in Hk.
      destruct step_duration_range as (Hlo & Hhi).
      destruct (cut_sample_near _ sr k Hlo Hhi Hsr ltac:(lia) ltac:(nia))
        as (_ & c & _ & Ec & _).
      exists c; rewrite step_duration_value; exact Ec.
    + exists cuts; rewrite E; auto.
Qed.

(** The theorem at 48000 samples a second and a signal that rises at
    window 97: the Cut Point is sample 13967, where the product without
    rounding, 97 * 0.003 * 48000, is 13968. *)
Lemma rising_edges_cut_points_witness :
  Float64.cut_samples Float64.step_duration 48000 (repeat false 97 ++ repeat true 200)
  = Ok [13967; -1].
Proof.
  destruct (rising_edges_cut_points (repeat false 97 ++ repeat true 200))
    as (_ & _ & _ & H & _).
  rewrite H by (vm_compute; discriminate).
  vm_compute; reflexivity.
Defined.

(** ** Cut Points and window starts *)

(** X15.  Window [r] starts at sample [r * step_size], and its Cut Point is
    computed from [step_duration] instead.  In binary64, at a sample rate
    of at most [2 ^ 32] and with [r * sample_rate] at most [2 ^ 50], the
    Cut Point is at most one sample before that start and at most [r]
    samples after it. *)
Theorem cut_point_drift (sr r : Z) :
  1 <= sr <= 2 ^ 32 -> 0 <= r -> r * sr <= 2 ^ 50 ->
  exists ss c : Z,
    Float64.step_size Float64.step_duration sr = Ok ss /\
    Float64.cut_sample Float64.step_duration sr r = Ok c /\
    0 <= ss /\ r * ss - 1 <= c <= r * ss + r.
Proof.
  intros Hsr Hr Hb.
  destruct step_duration_range as (Hlo & Hhi).
  rewrite step_duration_value.
  destruct (cut_sample_near _ sr r Hlo Hhi Hsr Hr Hb)
    as (ss & c & Es & Ec & Hss & Hc).
  exists ss, c; auto.
Qed.

(** The theorem at 48000 samples a second and window 97: the window
    starts at sample 13968 and its Cut Point is sample 13967. *)
Lemma cut_point_drift_witness :
  Float64.step_size Float64.step_duration 48000 = Ok 144 /\
  Float64.cut_sample Float64.step_duration 48000 97 = Ok 13967 /\
  97 * 144 - 1 <= 13967 <= 97 * 144 + 97.
Proof.
  destruct (cut_point_drift 48000 97) as (ss & c & E1 & E2 & _ & H); try lia.
  assert (Es : ss = 144) by (vm_compute in E1; congruence).
  assert (Ec : c = 13967) by (vm_compute in E2; congruence).
  subst ss c; split; [exact E1|]; split; [exact E2 | exact H].
Defined.

(** * The silent buffer *)

(** With integer samples at 334 samples a second or more, a run whose
    windows are all silent sets no flag and derives nothing. *)
Lemma silent_windows_analysis (w : wav) (max_amplitude : Z) :
  iinfo_max (samples_dtype w) = Ok max_amplitude ->
  334 <= sample_rate w ->
  (forall signal_windows : list (list Q),
      windows (samples w)
              (PyInt (window_size default_min_silence_length (sample_rate w)))
              (PyInt (step_size default_min_silence_length default_step_duration
                                (sample_rate w)))
      = Ok signal_windows ->
      Forall (silent_window max_amplitude) signal_windows) ->
  (exists flags : list bool,
      run_classify w = Ok flags /\ Forall (fun f => f = false) flags /\
      run_cuts (sample_rate w) flags = []) /\
  run_analyse w
  = Ok {| cut_samples := [-1]; cut_ranges := []; video_sub := [] |}.
Proof.
  intros HM Hsr Hsilent.
  destruct (run_classify_Ok w max_amplitude HM Hsr) as (wl & Hws & Hc & _).
  specialize (Hsilent wl Hws).
  set (flags := map (window_silence default_silence_threshold max_amplitude) wl)
    in *.
  assert (Hflags : Forall (fun f => f = false) flags).
  { unfold flags; apply Forall_map.
    eapply Forall_impl; [|exact Hsilent].
    intros x; apply silent_window_flag. }
  assert (Hcuts : run_cuts (sample_rate w) flags = []).
  { unfold run_cuts, detected_cuts, rising_edges.
    rewrite rising_edges_from_silent by assumption; reflexivity. }
  split; [exists flags; auto|].
  unfold run_analyse, analyse; fold run_classify; rewrite Hc; cbn [bind].
  unfold segment; fold run_cuts; rewrite Hcuts; reflexivity.
Qed.




(** X18.  A recording of integer samples that are all zero, at 334 samples
    a second or more, has no energy in any window: the run sets no flag,
    its cut list is [[-1]], and it derives no Segment and an empty
    manifest. *)
Theorem zero_recording (w : wav) (max_amplitude : Z) :
  iinfo_max (samples_dtype w) = Ok max_amplitude ->
  334 <= sample_rate w ->
  Forall (fun x => x == 0)%Q (samples w) ->
  (exists flags : list bool,
      run_classify w = Ok flags /\ Forall (fun f => f = false) flags) /\
  run_analyse w
  = Ok {| cut_samples := [-1]; cut_ranges := []; video_sub := [] |}.
Proof.
  intros HM Hsr Hzero.
  destruct (silent_windows_analysis w max_amplitude HM Hsr) as ((flags & Hc & Hf & _) & Ha);
    [|split; [exists flags; auto | exact Ha]].
  intros wl Hws.
  assert (HMpos : 0 < max_amplitude).
  { destruct (samples_dtype w); simpl in HM; try discriminate;
      injection HM as <-; lia. }
  assert (Hwsize : 0 < window_size default_min_silence_length (sample_rate w)).
  { change (window_size default_min_silence_length (sample_rate w))
      with (Z.quot (6 * sample_rate w) 10).
    pose proof (Z.quot_le_lower_bound (6 * sample_rate w) 10 1
                  ltac:(lia) ltac:(lia)); lia. }
  assert (Hall : Forall (fun x => x <> [] /\ Forall (fun s => s == 0)%Q x) wl).
  { unfold windows, py_range in Hws.
    destruct (_ =? 0); [discriminate|]; cbn [bind] in Hws; injection Hws as <-.
    apply Forall_and.
    - apply windows_loop_nonempty; [assumption|].
      apply Forall_map, Forall_forall; intros k _.
      pose proof (run_step_size (sample_rate w)) as E.
      pose proof (Z.quot_pos (3 * sample_rate w) 1000 ltac:(lia) ltac:(lia)).
      rewrite E; nia.
    - apply windows_loop_Forall; assumption. }
  eapply Forall_impl; [|exact Hall].
  intros x (Hne & Hx); unfold silent_window, window_energy.
  assert (Hsum : (np_sum (np_power x 2) == 0)%Q).
  { apply Qle_antisym; [|apply np_sum_squares_nonneg].
    apply Qle_trans with (inject_Z (len x) * 0 ^ 2)%Q.
    - apply np_sum_squares_le.
      eapply Forall_impl; [|exact Hx].
      intros s E; cbv beta; rewrite E; split; discriminate.
    - apply Qle_lteq; right; ring. }
  rewrite (energy_nonempty x Hne).
  rewrite (energy_nonempty [inject_Z max_amplitude]) by discriminate.
  unfold np_div.
  destruct (Qeq_bool _ 0) eqn:E.
  { apply Qeq_bool_eq in E.
    unfold np_sum, np_power, len in E; simpl in E.
    unfold Qeq in E; simpl in E; nia. }
  eexists; split; [reflexivity|].
  rewrite Hsum.
  unfold Qdiv; rewrite !Qmult_0_l; discriminate.
Qed.

(** The theorem at three hundred samples of value zero. *)
Lemma zero_recording_witness :
  (exists flags : list bool,
      run_classify Recordings.silent = Ok flags
      /\ Forall (fun f => f = false) flags) /\
  run_analyse Recordings.silent
  = Ok {| cut_samples := [-1]; cut_ranges := []; video_sub := [] |}.
Proof.
  apply (zero_recording Recordings.silent 32767).
  - reflexivity.
  - vm_compute; discriminate.
  - apply Forall_forall; intros x Hx; apply repeat_spec in Hx; subst x; reflexivity.
Defined.
